(** * go-clr: hosting the CLR from Go through raw COM calls

    A shallow embedding of the package's wrappers (safearray.go,
    iunknown.go, assembly.go, appdomain.go, icorruntimehost.go) over an
    explicit model of the native side they call into, and the properties
    of the specification stated and settled on that embedding.

    Every wrapper of the package has the same shape: resolve a native
    entry point, call it through [syscall.SyscallN] (or [proc.Call]), then
    look at the dispatch code [err] and at the status [hr].  The native
    side is a state: memory, array descriptors, COM objects, the
    last-error codes the dispatch layer reports, and the log of the calls
    made so far. *)

From Stdlib Require Import ZArith String List Lia.
From stdpp Require Import base gmap list strings.

Local Open Scope Z_scope.

(** ** Machine integers *)

Definition uint16 (z : Z) : Z := z mod 2 ^ 16.
Definition uint32 (z : Z) : Z := z mod 2 ^ 32.
Definition int32 (z : Z) : Z := (z + 2 ^ 31) mod 2 ^ 32 - 2 ^ 31.
Definition uintptr (z : Z) : Z := z mod 2 ^ 64.

Definition byte_val (b : Byte.byte) : Z := Z.of_N (Byte.to_N b).

(** ** Go errors

    The package builds its errors with [fmt.Errorf] from one format
    string and one argument, or hands back the [syscall.Errno] of the
    dispatch layer untouched. *)

Inductive verb : Type :=
| Hex (z : Z)          (* an integer under %x *)
| Dec (z : Z)          (* an integer under %d *)
| Str (s : string)     (* a string under %s *)
| Msg (errno : Z).     (* a syscall.Errno under %s *)

Inductive error : Type :=
| Errno (code : Z)
| Errorf (format : string) (a : verb)
| CheckOK (hr : Z) (caller : string).

(** A Go result [(T, error)]: the value that travels with a non-nil
    error is never looked at by the callers and is left out. *)
Inductive Res (A : Type) : Type :=
| Ok (a : A)
| Err (e : error).
Arguments Ok {A} a.
Arguments Err {A} e.

(** Run-time faults: what ends the Go program instead of returning. *)
Inductive fault : Type :=
| NilDereference
| AccessViolation (addr : Z)
| IndexOutOfRange
| ProcNotFound (dll name : string)
| LoopNotFinished.

Inductive outcome (A : Type) : Type :=
| Done (a : A)
| Panic (f : fault).
Arguments Done {A} a.
Arguments Panic {A} f.

(** ** Constants of the package that the declarations above rely on *)

(** Modelled from the spec: the status constants are not among the
    sources; "status codes: 32-bit, 0 = success". *)
Definition S_OK : Z := 0.

(** Modelled from the spec: the element kinds are not among the sources.
    The kind fixes the per-element byte size; [VT_UI1] is the single
    unsigned byte, [VT_UNKNOWN] and [VT_DISPATCH] are interface handles
    (pointer sized).  The numbers are those of the VARENUM enumeration. *)
Definition VT_DISPATCH : Z := 9.
Definition VT_UNKNOWN : Z := 13.
Definition VT_UI1 : Z := 17.

Definition elem_size (vt : Z) : option Z :=
  if vt =? VT_UI1 then Some 1
  else if (vt =? VT_UNKNOWN) || (vt =? VT_DISPATCH) then Some 8
  else None.

(** Statuses the native array functions report (winerror.h). *)
Definition E_INVALIDARG : Z := 0x80070057.
Definition DISP_E_BADINDEX : Z := 0x8002000B.

(** ** safearray.go: the data *)

Record SafeArrayBound : Type := mkBound {
  cElements : Z;   (* uint32 *)
  lLbound : Z      (* int32 *)
}.

(** The Go struct declares [rgsabound [1]SafeArrayBound]; the native
    descriptor carries one bound per dimension. *)
Record SafeArray : Type := mkSafeArray {
  cDims : Z;        (* uint16 *)
  fFeatures : Z;    (* uint16 *)
  cbElements : Z;   (* uint32 *)
  cLocks : Z;       (* uint32 *)
  pvData : Z;       (* uintptr *)
  rgsabound : list SafeArrayBound
}.

(** ** The native side *)

(** A COM object: its reference count and, for each slot of its method
    table, the status the method reports and the word it stores through
    its out pointer. *)
Record Object : Type := mkObject {
  refs : Z;
  respond : string → Z * Z
}.

(** Modelled from the spec: the identifier table (guids.go) is not among
    the sources; "pure constant lookup: symbolic name -> 128-bit
    identifier".  An identifier is kept by its symbolic name. *)
Inductive GUID : Type :=
| IID_AppDomain
| IID_ICorRuntimeHost
| CLSID_CorRuntimeHost.

(** What the code passes in an argument position of a native call. *)
Inductive arg : Type :=
| Ptr (a : Z)                      (* a pointer value: an object, a descriptor, a handle *)
| Imm (z : Z)                      (* an integer *)
| Out (var : string)               (* the address of the Go variable that receives the result *)
| In32 (z : Z)                     (* the address of a Go variable holding a 32-bit integer *)
| InGuid (g : GUID)                (* the address of an interface identifier *)
| InBound (b : SafeArrayBound)     (* the address of a bound record *)
| Bytes (bs : list Byte.byte)      (* the address of element 0 of a byte slice *)
| WStr (s : string).               (* the address of the UTF-16 text of a string *)

(** What is called: an export of a library, or the function found in a
    slot of the method table of an object. *)
Inductive target : Type :=
| Proc (dll name : string)
| Slot (obj : Z) (slot : string).

Record call : Type := Call { callee : target; args : list arg }.

Record World : Type := mkWorld {
  mem : gmap Z Byte.byte;        (* native memory, byte addressed *)
  arrays : gmap Z SafeArray;     (* array descriptors, by address *)
  objects : gmap Z Object;       (* live COM objects, by address *)
  bstrs : gmap Z string;         (* wide strings, by address *)
  brk : Z;                       (* next free address of the native heap *)
  top : Z;                       (* end of the native heap *)
  errnos : list Z;               (* last-error code after each coming call *)
  trace : list call              (* the native calls made so far, oldest first *)
}.

Definition set_mem (m : gmap Z Byte.byte) (w : World) : World :=
  mkWorld m (arrays w) (objects w) (bstrs w) (brk w) (top w) (errnos w) (trace w).
Definition set_arrays (a : gmap Z SafeArray) (w : World) : World :=
  mkWorld (mem w) a (objects w) (bstrs w) (brk w) (top w) (errnos w) (trace w).
Definition set_objects (o : gmap Z Object) (w : World) : World :=
  mkWorld (mem w) (arrays w) o (bstrs w) (brk w) (top w) (errnos w) (trace w).
Definition set_bstrs (b : gmap Z string) (w : World) : World :=
  mkWorld (mem w) (arrays w) (objects w) b (brk w) (top w) (errnos w) (trace w).
Definition set_brk (b : Z) (w : World) : World :=
  mkWorld (mem w) (arrays w) (objects w) (bstrs w) b (top w) (errnos w) (trace w).
Definition set_errnos (e : list Z) (w : World) : World :=
  mkWorld (mem w) (arrays w) (objects w) (bstrs w) (brk w) (top w) e (trace w).
Definition set_trace (t : list call) (w : World) : World :=
  mkWorld (mem w) (arrays w) (objects w) (bstrs w) (brk w) (top w) (errnos w) t.

(** *** Memory *)

Definition store_bytes (a : Z) (bs : list Byte.byte) (m : gmap Z Byte.byte)
  : gmap Z Byte.byte :=
  map_seqZ a bs ∪ m.

(** Little-endian load of [n] bytes. *)
Fixpoint load_le (n : nat) (a : Z) (m : gmap Z Byte.byte) : option Z :=
  match n with
  | O => Some 0
  | S n' =>
      b ← m !! a;
      hi ← load_le n' (a + 1) m;
      Some (byte_val b + 256 * hi)
  end.

(** *** OleAut32 and ntdll *)

(** Size of the descriptor header of a one-dimensional array (64-bit
    layout: 2 + 2 + 4 + 4, padding, 8, then one 8-byte bound). *)
Definition SAFEARRAY_SIZE : Z := 32.

(** The feature flags SafeArrayCreate sets: an array of interface
    handles carries their identifier, any other array its element kind. *)
Definition FADF_HAVEIID : Z := 0x40.
Definition FADF_HAVEVARTYPE : Z := 0x80.
Definition FADF_UNKNOWN : Z := 0x200.
Definition FADF_DISPATCH : Z := 0x400.

Definition features (vt : Z) : Z :=
  if vt =? VT_UNKNOWN then Z.lor FADF_HAVEIID FADF_UNKNOWN
  else if vt =? VT_DISPATCH then Z.lor FADF_HAVEIID FADF_DISPATCH
  else FADF_HAVEVARTYPE.

(** SafeArrayCreate: a new descriptor, its data allocated and zeroed
    right behind it; null when the array cannot be created.  The model
    creates the one-dimensional arrays the package asks for. *)
Definition native_SafeArrayCreate (vt cDims : Z) (b : option SafeArrayBound)
    (w : World) : Z * World :=
  match elem_size vt, b with
  | Some cb, Some bound =>
      let size := cb * cElements bound in
      let psa := brk w in
      let pv := psa + SAFEARRAY_SIZE in
      if (cDims =? 1) && (0 <? psa) && (pv + size <=? top w) then
        (psa,
         set_brk (pv + size)
           (set_mem (store_bytes pv (replicate (Z.to_nat size) Byte.x00) (mem w))
              (set_arrays
                 (<[psa := mkSafeArray 1 (features vt) cb 0 pv [bound]]> (arrays w))
                 w)))
      else (0, w)
  | _, _ => (0, w)
  end.

(** SafeArrayLock: one more lock on the descriptor. *)
Definition native_SafeArrayLock (psa : Z) (w : World) : Z * World :=
  match arrays w !! psa with
  | Some sa =>
      (S_OK,
       set_arrays
         (<[psa := mkSafeArray (cDims sa) (fFeatures sa) (cbElements sa)
                     (cLocks sa + 1) (pvData sa) (rgsabound sa)]> (arrays w))
         w)
  | None => (E_INVALIDARG, w)
  end.

Definition native_SafeArrayGetDim (psa : Z) (w : World) : Z :=
  match arrays w !! psa with
  | Some sa => cDims sa
  | None => 0
  end.

(** The bound of dimension [nDim] (dimensions count from 1). *)
Definition bound_of (sa : SafeArray) (nDim : Z) : option SafeArrayBound :=
  if (1 <=? nDim) && (nDim <=? cDims sa)
  then rgsabound sa !! Z.to_nat (nDim - 1)
  else None.

(** SafeArrayGetLBound and SafeArrayGetUBound store a LONG through
    their last argument; the Go variable behind it is a [uint32]. *)
Definition native_SafeArrayGetLBound (psa nDim : Z) (w : World) : Z * Z :=
  match arrays w !! psa with
  | Some sa =>
      match bound_of sa nDim with
      | Some b => (S_OK, uint32 (lLbound b))
      | None => (DISP_E_BADINDEX, 0)
      end
  | None => (E_INVALIDARG, 0)
  end.

Definition native_SafeArrayGetUBound (psa nDim : Z) (w : World) : Z * Z :=
  match arrays w !! psa with
  | Some sa =>
      match bound_of sa nDim with
      | Some b => (S_OK, uint32 (lLbound b + cElements b - 1))
      | None => (DISP_E_BADINDEX, 0)
      end
  | None => (E_INVALIDARG, 0)
  end.

(** Address of the element of index [i] (a LONG) of a one-dimensional
    array, when the index lies within the bound. *)
Definition element_addr (sa : SafeArray) (i : Z) : option Z :=
  match rgsabound sa with
  | [b] =>
      if (lLbound b <=? i) && (i <=? lLbound b + cElements b - 1)
      then Some (pvData sa + (i - lLbound b) * cbElements sa)
      else None
  | _ => None
  end.

(** SafeArrayGetElement copies the element into the variable behind its
    last argument. *)
Definition native_SafeArrayGetElement (psa idx : Z) (w : World)
  : outcome (Z * Z) :=
  match arrays w !! psa with
  | Some sa =>
      match element_addr sa (int32 idx) with
      | Some a =>
          match load_le (Z.to_nat (cbElements sa)) a (mem w) with
          | Some v => Done (S_OK, v)
          | None => Panic (AccessViolation a)
          end
      | None => Done (DISP_E_BADINDEX, 0)
      end
  | None => Done (E_INVALIDARG, 0)
  end.

(** SysAllocString: a new wide string (4-byte length prefix, the text,
    a terminator) holding a copy of the text passed; the pointer returned
    is that of the text. *)
Definition native_SysAllocString (s : string) (w : World) : Z * World :=
  let size := 4 + 2 * Z.of_nat (String.length s) + 2 in
  if (0 <? brk w) && (brk w + size <=? top w) then
    (brk w + 4, set_brk (brk w + size) (set_bstrs (<[brk w + 4 := s]> (bstrs w)) w))
  else (0, w).

(** RtlCopyMemory: [len] bytes from the source to the destination. *)
Definition native_RtlCopyMemory (dst : Z) (src : list Byte.byte) (len : Z)
    (w : World) : World :=
  set_mem (store_bytes dst (take (Z.to_nat len) src) (mem w)) w.

(** The exports of the two libraries the package resolves by name. *)
Definition exports (dll : string) : list string :=
  if String.eqb dll "OleAut32.dll" then
    ["SafeArrayCreate"; "SafeArrayLock"; "SafeArrayGetDim";
     "SafeArrayGetLBound"; "SafeArrayGetUBound"; "SafeArrayGetElement";
     "SysAllocString"]%string
  else if String.eqb dll "ntdll.dll" then ["RtlCopyMemory"]%string
  else [].

(** The integer in an argument position; an absent argument reads as 0. *)
Definition word (a : option arg) : Z :=
  match a with
  | Some (Ptr p) => p
  | Some (Imm z) => z
  | Some (In32 z) => z
  | _ => 0
  end.

Definition bound_arg (a : option arg) : option SafeArrayBound :=
  match a with
  | Some (InBound b) => Some b
  | _ => None
  end.

Definition bytes_arg (a : option arg) : list Byte.byte :=
  match a with
  | Some (Bytes bs) => bs
  | _ => []
  end.

Definition text_arg (a : option arg) : string :=
  match a with
  | Some (WStr s) => s
  | _ => ""
  end.

(** An export run on its arguments: the value it returns, the word it
    leaves in the out variable, and the world after it. *)
Definition native_proc (name : string) (a : list arg) (w : World)
  : outcome (Z * Z) * World :=
  if String.eqb name "SafeArrayCreate" then
    let '(r, w') :=
      native_SafeArrayCreate (uint16 (word (a !! 0%nat))) (word (a !! 1%nat))
        (bound_arg (a !! 2%nat)) w in
    (Done (r, 0), w')
  else if String.eqb name "SafeArrayLock" then
    let '(r, w') := native_SafeArrayLock (word (a !! 0%nat)) w in
    (Done (r, 0), w')
  else if String.eqb name "SafeArrayGetDim" then
    (Done (native_SafeArrayGetDim (word (a !! 0%nat)) w, 0), w)
  else if String.eqb name "SafeArrayGetLBound" then
    (Done (native_SafeArrayGetLBound (word (a !! 0%nat)) (word (a !! 1%nat)) w), w)
  else if String.eqb name "SafeArrayGetUBound" then
    (Done (native_SafeArrayGetUBound (word (a !! 0%nat)) (word (a !! 1%nat)) w), w)
  else if String.eqb name "SafeArrayGetElement" then
    (native_SafeArrayGetElement (word (a !! 0%nat)) (word (a !! 1%nat)) w, w)
  else if String.eqb name "SysAllocString" then
    let '(r, w') := native_SysAllocString (text_arg (a !! 0%nat)) w in
    (Done (r, 0), w')
  else if String.eqb name "RtlCopyMemory" then
    (Done (0, 0),
     native_RtlCopyMemory (word (a !! 0%nat)) (bytes_arg (a !! 1%nat))
       (word (a !! 2%nat)) w)
  else (Panic (ProcNotFound "" name), w).

(** *** COM methods *)

Definition set_refs (n : Z) (o : Object) : Object := mkObject n (respond o).

(** A method runs on the object its first argument points to.  AddRef
    and Release adjust the reference count and return the new count (a
    released object whose count reaches 0 is destroyed); QueryInterface
    adds a reference to the object it hands out; every other method
    reports its status and stores its result. *)
Definition native_method (slot : string) (a : list arg) (w : World)
  : outcome (Z * Z) * World :=
  match a !! 0%nat with
  | Some (Ptr this) =>
      match objects w !! this with
      | Some o =>
          if String.eqb slot "AddRef" then
            let n := uint32 (refs o + 1) in
            (Done (n, 0), set_objects (<[this := set_refs n o]> (objects w)) w)
          else if String.eqb slot "Release" then
            let n := uint32 (refs o - 1) in
            (Done (n, 0),
             set_objects
               (if n =? 0 then delete this (objects w)
                else <[this := set_refs n o]> (objects w)) w)
          else if String.eqb slot "QueryInterface" then
            let '(hr, out) := respond o slot in
            (Done (hr, out),
             if hr =? S_OK then
               match objects w !! out with
               | Some o' =>
                   set_objects (<[out := set_refs (uint32 (refs o' + 1)) o']> (objects w)) w
               | None => w
               end
             else w)
          else (Done (respond o slot), w)
      | None => (Panic (AccessViolation this), w)
      end
  | _ => (Panic (AccessViolation 0), w)
  end.

Definition native (c : call) (w : World) : outcome (Z * Z) * World :=
  match callee c with
  | Proc _ name => native_proc name (args c) w
  | Slot _ slot => native_method slot (args c) w
  end.

(** ** The Go side: a state monad over the world, with faults *)

Definition M (A : Type) : Type := World → outcome A * World.

#[global] Instance M_ret : MRet M := λ A a w, (Done a, w).
#[global] Instance M_bind : MBind M := λ A B k m w,
  match m w with
  | (Done a, w') => k a w'
  | (Panic f, w') => (Panic f, w')
  end.

Definition panic {A} (f : fault) : M A := λ w, (Panic f, w).

(** The dispatch layer: the call is logged and run, and the last-error
    code the thread holds afterwards comes back as [err] with the
    returned value and the out variable. *)
Definition next_errno (w : World) : Z := hd 0 (errnos w).

Definition SyscallN (fn : target) (a : list arg) : M (Z * Z * Z) := λ w,
  let w1 := set_trace (trace w ++ [Call fn a]) w in
  match native (Call fn a) w1 with
  | (Done (r1, out), w2) =>
      (Done (r1, out, next_errno w2), set_errnos (tl (errnos w2)) w2)
  | (Panic f, w2) => (Panic f, w2)
  end.

(** [syscall.Syscall(trap, nargs, a1, a2, a3)] passes the first [nargs]
    of its three arguments. *)
Definition Syscall (fn : target) (nargs : nat) (a1 a2 a3 : arg) : M (Z * Z * Z) :=
  SyscallN fn (take nargs [a1; a2; a3]).

(** [syscall.MustLoadDLL] and [MustFindProc] panic when the library or
    the export is missing. *)
Definition MustLoadDLL (dll : string) : M string := λ w,
  match exports dll with
  | [] => (Panic (ProcNotFound dll ""), w)
  | _ => (Done dll, w)
  end.

Definition MustFindProc (dll name : string) : M target := λ w,
  if existsb (String.eqb name) (exports dll)
  then (Done (Proc dll name), w)
  else (Panic (ProcNotFound dll name), w).

(** The fault of a read through a pointer that points to nothing. *)
Definition bad_pointer (p : Z) : fault :=
  if p =? 0 then NilDereference else AccessViolation p.

(** Reading a field through a descriptor pointer. *)
Definition deref_array (psa : Z) : M SafeArray := λ w,
  match arrays w !! psa with
  | Some sa => (Done sa, w)
  | None => (Panic (bad_pointer psa), w)
  end.

(** [obj.vtbl.slot]: the function address read from the method table of
    the object. *)
Definition vtbl (obj : Z) (slot : string) : M target := λ w,
  match objects w !! obj with
  | Some _ => (Done (Slot obj slot), w)
  | None => (Panic (bad_pointer obj), w)
  end.

(** Logging changes nothing the claims look at. *)
Definition debugPrint (s : string) : M unit := mret tt.

(** [&s[0]] on a slice. *)
Definition addr_elem0 (s : list Byte.byte) : M arg := λ w,
  match s with
  | [] => (Panic IndexOutOfRange, w)
  | _ :: _ => (Done (Bytes s), w)
  end.

(** ** safearray.go *)

Definition SafeArrayCreate (vt cDims : Z) (rgsabound : SafeArrayBound) : M (Res Z) :=
  modOleAuto ← MustLoadDLL "OleAut32.dll";
  procSafeArrayCreate ← MustFindProc modOleAuto "SafeArrayCreate";
  '(ret, _, err) ← SyscallN procSafeArrayCreate
                     [Imm (uintptr vt); Imm (uintptr cDims); InBound rgsabound];
  if negb (err =? 0) then mret (Err (Errno err))
  else if ret =? 0 then
    mret (Err (Errorf
      "the OleAut32!SafeArrayCreate function return 0x%x and the SafeArray was not created"
      (Hex ret)))
  else mret (Ok ret).

Definition CreateSafeArray (rawBytes : list Byte.byte) : M (Res Z) :=
  let safeArrayBounds :=
    mkBound (uint32 (Z.of_nat (length rawBytes))) (int32 0) in
  r ← SafeArrayCreate VT_UI1 1 safeArrayBounds;
  match r with
  | Err err => mret (Err err)
  | Ok safeArray =>
      modNtDll ← MustLoadDLL "ntdll.dll";
      procRtlCopyMemory ← MustFindProc modNtDll "RtlCopyMemory";
      sa ← deref_array safeArray;
      src ← addr_elem0 rawBytes;
      '(_, _, err) ← SyscallN procRtlCopyMemory
                       [Ptr (pvData sa); src; Imm (uintptr (Z.of_nat (length rawBytes)))];
      if negb (err =? 0) then mret (Err (Errno err))
      else mret (Ok safeArray)
  end.

(** Modelled from the spec: utf16Le (toWide) is not among the sources;
    it "encodes host text into UTF-16 code units, null-terminated", so
    its result has an element 0 whose address [WStr] stands for. *)
Definition SysAllocString (str : string) : M (Res Z) :=
  modOleAuto ← MustLoadDLL "OleAut32.dll";
  sysAllocString ← MustFindProc modOleAuto "SysAllocString";
  '(ret, _, err) ← SyscallN sysAllocString [WStr str];
  if negb (err =? 0) then mret (Err (Errno err))
  else mret (Ok ret).

Definition SafeArrayLock (psa : Z) : M (option error) :=
  modOleAuto ← MustLoadDLL "OleAut32.dll";
  safeArrayCreate ← MustFindProc modOleAuto "SafeArrayCreate";
  '(hr, _, err) ← SyscallN safeArrayCreate [Ptr psa];
  if negb (err =? 0) then mret (Some (Errno err))
  else if negb (hr =? S_OK) then
    mret (Some (Errorf
      "the OleAut32!SafeArrayCreate function returned a non-zero HRESULT: 0x%x"
      (Hex hr)))
  else mret None.

Definition SafeArrayGetLBound (psa nDim : Z) : M (Res Z) :=
  modOleAuto ← MustLoadDLL "OleAut32.dll";
  safeArrayGetLBound ← MustFindProc modOleAuto "SafeArrayGetLBound";
  '(hr, plLbound, err) ← SyscallN safeArrayGetLBound
                           [Ptr psa; Imm (uintptr nDim); Out "plLbound"];
  if negb (err =? 0) then mret (Err (Errno err))
  else if negb (hr =? S_OK) then
    mret (Err (Errorf
      "the oleaut32!SafeArrayGetLBound function returned a non-zero HRESULT: 0x%x"
      (Hex hr)))
  else mret (Ok plLbound).

Definition SafeArrayGetUBound (psa nDim : Z) : M (Res Z) :=
  modOleAuto ← MustLoadDLL "OleAut32.dll";
  safeArrayGetUBound ← MustFindProc modOleAuto "SafeArrayGetUBound";
  '(hr, plUbound, err) ← SyscallN safeArrayGetUBound
                           [Ptr psa; Imm (uintptr nDim); Out "plUbound"];
  if negb (err =? 0) then mret (Err (Errno err))
  else if negb (hr =? S_OK) then
    mret (Err (Errorf
      "the oleaut32!SafeArrayGetUBound function returned a non-zero HRESULT: 0x%x"
      (Hex hr)))
  else mret (Ok plUbound).

Definition SafeArrayGetDim (psa : Z) : M (Res Z) :=
  modOleAuto ← MustLoadDLL "OleAut32.dll";
  procGetDim ← MustFindProc modOleAuto "SafeArrayGetDim";
  '(udimensions, _, err) ← SyscallN procGetDim [Ptr psa];
  if negb (err =? 0) then
    mret (Err (Errorf
      "the oleaut32!SafeArrayGetDim function call returned an error:\n%s" (Msg err)))
  else mret (Ok (uint32 udimensions)).

Definition SafeArrayGetElement (array indicies : Z) : M (Res Z) :=
  modOleAuto ← MustLoadDLL "OleAut32.dll";
  procGetElement ← MustFindProc modOleAuto "SafeArrayGetElement";
  '(hr, ret, err) ← SyscallN procGetElement
                      [Ptr array; In32 indicies; Out "ret"];
  if negb (err =? 0) then
    mret (Err (Errorf
      "the oleaut32!SafeArrayGetElement function call returned an error:\n%s" (Msg err)))
  else if negb (hr =? S_OK) then
    mret (Err (Errorf
      "the oleaut32!SafeArrayGetElement function returned a non-zero HRESULT: 0x%x"
      (Hex hr)))
  else mret (Ok ret).

(** ** Helpers of the package that are not among the sources *)

(** Modelled from the spec: ReadUnicodeStr (fromWide) is not among the
    sources; it "reads the length prefix from ptr, then decodes that many
    bytes as UTF-16 into host text".  The wide strings of the native side
    are kept by the host text they decode to. *)
Definition ReadUnicodeStr (p : Z) : M string := λ w,
  match bstrs w !! p with
  | Some s => (Done s, w)
  | None => (Panic (bad_pointer p), w)
  end.

(** Modelled from the spec: checkOK is not among the sources; a wrapper's
    "job is solely to check status": nothing for status 0, otherwise a
    failure that carries the status and the name of the caller. *)
Definition checkOK (hr : Z) (caller : string) : option error :=
  if hr =? S_OK then None else Some (CheckOK hr caller).

(** Reading a [uint32] through a pointer. *)
Definition load_uint32 (p : Z) : M Z := λ w,
  match load_le 4 p (mem w) with
  | Some v => (Done v, w)
  | None => (Panic (bad_pointer p), w)
  end.

(** Go's [v, err := f(); if err != nil { return nil, err }]. *)
Definition try_bind {A B} (m : M (Res A)) (k : A → M (Res B)) : M (Res B) :=
  r ← m;
  match r with
  | Err err => mret (Err err)
  | Ok v => k v
  end.

Notation "x ←? y ; z" := (try_bind y (λ x, z))
  (at level 20, y at level 100, z at level 200, only parsing) : stdpp_scope.

(** *** Loops over a machine counter

    A [for] loop whose counter is a [uint32] ends by its exit test, by a
    [return] in its body, or not at all (the counter wraps around).
    [iterate d] runs up to [2 ^ d] rounds of the body and stops at the
    first [Break]. *)
Inductive step (S R : Type) : Type :=
| Next (s : S)
| Break (r : R).
Arguments Next {S R} s.
Arguments Break {S R} r.

Fixpoint iterate {S R} (d : nat) (body : S → M (step S R)) (s : S)
  : M (step S R) :=
  match d with
  | O => body s
  | Datatypes.S d' => λ w,
      match iterate d' body s w with
      | (Done (Next s'), w') => iterate d' body s' w'
      | r => r
      end
  end.

Definition for_loop {S R} (body : S → M (step S R)) (s : S) : M R :=
  r ← iterate 33 body s;
  match r with
  | Break r => mret r
  | Next _ => panic LoopNotFinished
  end.

(** ** iunknown.go *)

Module IUnknown.

Definition QueryInterface (obj : Z) (riid : GUID) (ppvObject : string)
  : M (Res Z) :=
  fn ← vtbl obj "QueryInterface";
  '(hr, out, err) ← SyscallN fn [Ptr obj; InGuid riid; Out ppvObject];
  if negb (err =? 0) then
    mret (Err (Errorf
      "the IUknown::QueryInterface method returned an error:\r\n%s" (Msg err)))
  else if negb (hr =? S_OK) then
    mret (Err (Errorf
      "the IUknown::QueryInterface method method returned a non-zero HRESULT: 0x%x"
      (Hex hr)))
  else mret (Ok out).

Definition AddRef (obj : Z) : M (Res Z) :=
  fn ← vtbl obj "AddRef";
  '(ret, _, err) ← SyscallN fn [Ptr obj];
  if negb (err =? 0) then
    mret (Err (Errorf
      "the IUnknown::AddRef method returned an error:\r\n%s" (Msg err)))
  else
    count ← load_uint32 ret;
    mret (Ok count).

Definition Release (obj : Z) : M (Res Z) :=
  fn ← vtbl obj "Release";
  '(ret, _, err) ← SyscallN fn [Ptr obj];
  if negb (err =? 0) then
    mret (Err (Errorf
      "the IUnknown::Release method returned an error:\r\n%s" (Msg err)))
  else
    count ← load_uint32 ret;
    mret (Ok count).

End IUnknown.

(** ** assembly.go *)

Module Assembly.

Definition QueryInterface (obj : Z) (riid : GUID) (ppvObject : string) : M Z :=
  fn ← vtbl obj "QueryInterface";
  '(ret, _, _) ← SyscallN fn [Ptr obj; InGuid riid; Out ppvObject];
  mret ret.

Definition AddRef (obj : Z) : M Z :=
  fn ← vtbl obj "AddRef";
  '(ret, _, _) ← SyscallN fn [Ptr obj];
  mret ret.

Definition Release (obj : Z) : M Z :=
  fn ← vtbl obj "Release";
  '(ret, _, _) ← SyscallN fn [Ptr obj];
  mret ret.

Definition GetEntryPoint (obj : Z) : M (Res Z) :=
  fn ← vtbl obj "get_EntryPoint";
  '(hr, pRetVal, err) ← SyscallN fn [Ptr obj; Out "pRetVal"];
  if negb (err =? 0) then
    mret (Err (Errorf
      "the Assembly::GetEntryPoint method returned an error:\r\n%s" (Msg err)))
  else if negb (hr =? S_OK) then
    mret (Err (Errorf
      "the Assembly::GetEntryPoint method returned a non-zero HRESULT: 0x%x"
      (Hex hr)))
  else mret (Ok pRetVal).

Definition GetFullName (obj : Z) : M (Res string) :=
  fn ← vtbl obj "get_FullName";
  '(hr, pRetValBSTR, err) ← SyscallN fn [Ptr obj; Out "pRetValBSTR"];
  if negb (err =? 0) then
    mret (Err (Errorf
      "the Assembly::GetFullName method returned an error:\r\n%s" (Msg err)))
  else if negb (hr =? S_OK) then
    mret (Err (Errorf
      "the Assembly::GetFullName method returned a non-zero HRESULT: 0x%x"
      (Hex hr)))
  else
    s ← ReadUnicodeStr pRetValBSTR;
    mret (Ok s).

End Assembly.

(** ** appdomain.go

    The file holds two revisions of the AppDomain wrappers: the current
    one, on [syscall.SyscallN], whose [Load_2] searches the loaded
    assemblies by name, and an earlier one, on [syscall.Syscall], whose
    [ListAssemblies] reads the names itself. *)

Module AppDomain.

Definition QueryInterface (obj : Z) (riid : GUID) (ppvObject : string) : M Z :=
  fn ← vtbl obj "QueryInterface";
  '(ret, _, _) ← SyscallN fn [Ptr obj; InGuid riid; Out ppvObject];
  mret ret.

Definition AddRef (obj : Z) : M Z :=
  fn ← vtbl obj "AddRef";
  '(ret, _, _) ← SyscallN fn [Ptr obj];
  mret ret.

Definition Release (obj : Z) : M Z :=
  fn ← vtbl obj "Release";
  '(ret, _, _) ← SyscallN fn [Ptr obj];
  mret ret.

Definition GetHashCode (obj : Z) : M (Res Z) :=
  fn ← vtbl obj "GetHashCode";
  '(ret, _, err) ← SyscallN fn [Ptr obj; Imm 0];
  if negb (err =? 0) then
    mret (Err (Errorf
      "the appdomain.GetHashCode function returned an error:\r\n%s" (Msg err)))
  else mret (Ok (int32 ret)).

Definition GetFriendlyName (obj : Z) : M (Res string) :=
  fn ← vtbl obj "get_FriendlyName";
  '(hr, bstrFriendlyname, err) ← SyscallN fn [Ptr obj; Out "bstrFriendlyname"; Imm 0];
  if negb (err =? 0) then
    mret (Err (Errorf
      "the appdomain.GetFriendlyName function returned an error:\r\n%s" (Msg err)))
  else if negb (hr =? S_OK) then
    mret (Err (Errorf
      "the appdomain.GetFriendlyName function returned a non-zero HRESULT: 0x%x"
      (Hex hr)))
  else
    s ← ReadUnicodeStr bstrFriendlyname;
    mret (Ok s).

Definition Load_3 (obj : Z) (rawAssembly : Z) : M (Res Z) :=
  fn ← vtbl obj "Load_3";
  '(hr, assembly, err) ← SyscallN fn [Ptr obj; Ptr rawAssembly; Out "assembly"];
  if negb (err =? 0) && negb (err =? 1150) then mret (Err (Errno err))
  else if negb (hr =? S_OK) then
    mret (Err (Errorf
      "the appdomain.Load_3 function returned a non-zero HRESULT: 0x%x" (Hex hr)))
  else mret (Ok assembly).

Definition ToString (obj : Z) : M (Res string) :=
  fn ← vtbl obj "get_ToString";
  '(hr, pDomain, err) ← SyscallN fn [Ptr obj; Out "pDomain"];
  if negb (err =? 0) then
    mret (Err (Errorf
      "the AppDomain.ToString method retured an error:\r\n%s" (Msg err)))
  else if negb (hr =? S_OK) then
    mret (Err (Errorf
      "the AppDomain.ToString method returned a non-zero HRESULT: 0x%x" (Hex hr)))
  else
    domain ← ReadUnicodeStr pDomain;
    mret (Ok domain).

Definition GetAssemblies (obj : Z) : M (Res Z) :=
  fn ← vtbl obj "GetAssemblies";
  '(hr, safeArray, err) ← SyscallN fn [Ptr obj; Out "safeArray"];
  if negb (err =? 0) then
    mret (Err (Errorf
      "the AppDomain.GetAssemblies method retured an error:\r\n%s" (Msg err)))
  else if negb (hr =? S_OK) then
    mret (Err (Errorf
      "the AppDomain.GetAssemblies method returned a non-zero HRESULT: 0x%x"
      (Hex hr)))
  else mret (Ok safeArray).

(** One round of [for i := lbound; i <= ubound; i++]; the slice made
    with capacity [ubound - lbound] grows by [append]. *)
Definition ListAssemblies_round (safeArray ubound : Z) (s : Z * list Z)
  : M (step (Z * list Z) (Res (list Z))) :=
  let '(i, assemblies) := s in
  if i <=? ubound then
    r ← SafeArrayGetElement safeArray i;
    match r with
    | Err err => mret (Break (Err err))
    | Ok pApp => mret (Next (uint32 (i + 1), assemblies ++ [pApp]))
    end
  else mret (Break (Ok assemblies)).

Definition ListAssemblies (obj : Z) : M (Res (list Z)) :=
  safeArray ←? GetAssemblies obj;
  d ←? SafeArrayGetDim safeArray;
  if negb (d =? 1) then
    mret (Err (Errorf "expected dimension of 1, got %d" (Dec d)))
  else
    lbound ←? SafeArrayGetLBound safeArray d;
    ubound ←? SafeArrayGetUBound safeArray d;
    for_loop (ListAssemblies_round safeArray ubound) (lbound, []).

Section Load_2.

(** [strings.ToLower], of the Go library. *)
Variable ToLower : string → string.

(** [strings.HasPrefix(s, prefix)] *)
Definition HasPrefix (s prefix : string) : bool := String.prefix prefix s.

(** [for i := range asmb] *)
Fixpoint Load_2_range (asmb : list Z) (assemblyString : string) : M (Res Z) :=
  match asmb with
  | [] =>
      mret (Err (Errorf "could not find assembly with name %s" (Str assemblyString)))
  | a :: rest =>
      r ← Assembly.GetFullName a;
      match r with
      | Ok name =>
          if HasPrefix (ToLower name) (ToLower assemblyString)
          then mret (Ok a)
          else Load_2_range rest assemblyString
      | Err _ => Load_2_range rest assemblyString
      end
  end.

Definition Load_2 (obj : Z) (assemblyString : string) : M (Res Z) :=
  asmb ←? ListAssemblies obj;
  Load_2_range asmb assemblyString.

End Load_2.

End AppDomain.

(** The earlier revision. *)
Module AppDomain_Syscall.

Definition QueryInterface (obj : Z) (riid : GUID) (ppvObject : string) : M Z :=
  fn ← vtbl obj "QueryInterface";
  '(ret, _, _) ← Syscall fn 3 (Ptr obj) (InGuid riid) (Out ppvObject);
  mret ret.

Definition AddRef (obj : Z) : M Z :=
  fn ← vtbl obj "AddRef";
  '(ret, _, _) ← Syscall fn 1 (Ptr obj) (Imm 0) (Imm 0);
  mret ret.

Definition Release (obj : Z) : M Z :=
  fn ← vtbl obj "Release";
  '(ret, _, _) ← Syscall fn 1 (Ptr obj) (Imm 0) (Imm 0);
  mret ret.

Definition GetHashCode (obj : Z) : M (Res Z) :=
  fn ← vtbl obj "GetHashCode";
  '(ret, _, err) ← Syscall fn 2 (Ptr obj) (Imm 0) (Imm 0);
  if negb (err =? 0) then
    mret (Err (Errorf
      "the appdomain.GetHashCode function returned an error:\r\n%s" (Msg err)))
  else mret (Ok (int32 ret)).

Definition GetFriendlyName (obj : Z) : M (Res string) :=
  fn ← vtbl obj "get_FriendlyName";
  '(hr, bstrFriendlyname, _) ← Syscall fn 3 (Ptr obj) (Out "bstrFriendlyname") (Imm 0);
  match checkOK hr "appdomain.Getfriendlyname" with
  | Some err => mret (Err err)
  | None =>
      s ← ReadUnicodeStr bstrFriendlyname;
      mret (Ok s)
  end.

Definition Load_3 (obj : Z) (rawAssembly : Z) : M (Res Z) :=
  fn ← vtbl obj "Load_3";
  '(hr, assembly, err) ← Syscall fn 3 (Ptr obj) (Ptr rawAssembly) (Out "assembly");
  if negb (err =? 0) && negb (err =? 1150) then mret (Err (Errno err))
  else if negb (hr =? S_OK) then
    mret (Err (Errorf
      "the appdomain.Load_3 function returned a non-zero HRESULT: 0x%x" (Hex hr)))
  else mret (Ok assembly).

Definition ToString (obj : Z) : M (Res string) :=
  fn ← vtbl obj "get_ToString";
  '(hr, pDomain, err) ← Syscall fn 2 (Ptr obj) (Out "pDomain") (Imm 0);
  if negb (err =? 0) then
    mret (Err (Errorf
      "the AppDomain.ToString method retured an error:\r\n%s" (Msg err)))
  else if negb (hr =? S_OK) then
    mret (Err (Errorf
      "the AppDomain.ToString method returned a non-zero HRESULT: 0x%x" (Hex hr)))
  else
    domain ← ReadUnicodeStr pDomain;
    mret (Ok domain).

Definition Load_2 (obj : Z) (assemblyString : string) : M (Res Z) :=
  r ← SysAllocString assemblyString;
  let str := match r with Ok p => p | Err _ => 0 end in
  fn ← vtbl obj "Load_2";
  '(ret, pAssembly, _) ← SyscallN fn [Ptr obj; Ptr str; Out "pAssembly"];
  if negb (ret =? 0) then mret (Err (Errorf "bad load 2: %x" (Hex ret)))
  else mret (Ok pAssembly).

Definition GetAssemblies (obj : Z) : M (Res Z) :=
  fn ← vtbl obj "GetAssemblies";
  '(ret, safeArray, _) ← SyscallN fn [Ptr obj; Out "safeArray"];
  if negb (ret =? 0) then mret (Err (Errorf "getassemblies: %x" (Hex ret)))
  else mret (Ok safeArray).

Definition ListAssemblies_round (safeArray ubound : Z) (s : Z * list string)
  : M (step (Z * list string) (Res (list string))) :=
  let '(i, assemblies) := s in
  if i <=? ubound then
    r ← SafeArrayGetElement safeArray i;
    match r with
    | Err err => mret (Break (Err err))
    | Ok app =>
        r ← Assembly.GetFullName app;
        match r with
        | Err err => mret (Break (Err err))
        | Ok asss => mret (Next (uint32 (i + 1), assemblies ++ [asss]))
        end
    end
  else mret (Break (Ok assemblies)).

Definition ListAssemblies (obj : Z) : M (Res (list string)) :=
  safeArray ←? GetAssemblies obj;
  d ←? SafeArrayGetDim safeArray;
  if negb (d =? 1) then
    mret (Err (Errorf "expected dimension of 1, got %d" (Dec d)))
  else
    lbound ←? SafeArrayGetLBound safeArray d;
    ubound ←? SafeArrayGetUBound safeArray d;
    for_loop (ListAssemblies_round safeArray ubound) (lbound, []).

End AppDomain_Syscall.

(** ** icorruntimehost.go *)

Module ICORRuntimeHost.

Definition QueryInterface (obj : Z) (riid : GUID) (ppvObject : string)
  : M (option error) :=
  fn ← vtbl obj "QueryInterface";
  '(hr, _, err) ← SyscallN fn [Ptr obj; InGuid riid; Out ppvObject];
  if negb (err =? 0) then
    mret (Some (Errorf
      "the IUknown::QueryInterface method returned an error:\r\n%s" (Msg err)))
  else if negb (hr =? S_OK) then
    mret (Some (Errorf
      "the IUknown::QueryInterface method method returned a non-zero HRESULT: 0x%x"
      (Hex hr)))
  else mret None.

Definition AddRef (obj : Z) : M Z :=
  fn ← vtbl obj "AddRef";
  '(ret, _, _) ← SyscallN fn [Ptr obj];
  mret ret.

Definition Release (obj : Z) : M Z :=
  fn ← vtbl obj "Release";
  '(ret, _, _) ← SyscallN fn [Ptr obj];
  mret ret.

Definition Start (obj : Z) : M (option error) :=
  fn ← vtbl obj "Start";
  '(hr, _, err) ← SyscallN fn [Ptr obj];
  _ ← (if negb (err =? 0)
       then debugPrint "the ICORRuntimeHost::Start method returned an error:\r\n%s"
       else mret tt);
  if negb (hr =? S_OK) then
    mret (Some (Errorf
      "the ICORRuntimeHost::Start method method returned a non-zero HRESULT: 0x%x"
      (Hex hr)))
  else mret None.

Definition GetDefaultDomain (obj : Z) : M (Res Z) :=
  fn ← vtbl obj "GetDefaultDomain";
  '(hr, IUnknown, err) ← SyscallN fn [Ptr obj; Out "IUnknown"];
  _ ← (if negb (err =? 0)
       then debugPrint
              "the ICORRuntimeHost::GetDefaultDomain method returned an error:\r\n%s"
       else mret tt);
  if negb (hr =? S_OK) then
    mret (Err (Errorf
      "the ICORRuntimeHost::GetDefaultDomain method method returned a non-zero HRESULT: 0x%x"
      (Hex hr)))
  else mret (Ok IUnknown).

Definition CreateDomain (obj : Z) (FriendlyName : string) : M (Res Z) :=
  let pwzFriendlyName := WStr FriendlyName in
  fn ← vtbl obj "CreateDomain";
  '(hr, iu, err) ← SyscallN fn [Ptr obj; pwzFriendlyName; Ptr 0; Out "iu"];
  _ ← (if negb (err =? 0)
       then debugPrint
              "the ICORRuntimeHost::CreateDomain method returned an error:\r\n%s"
       else mret tt);
  if negb (hr =? S_OK) then
    mret (Err (Errorf
      "the ICORRuntimeHost::CreateDomain method returned a non-zero HRESULT: 0x%x"
      (Hex hr)))
  else IUnknown.QueryInterface iu IID_AppDomain "pAppDomain".

Definition EnumDomains (obj : Z) : M (Res Z) :=
  fn ← vtbl obj "EnumDomains";
  '(hr, hEnum, err) ← SyscallN fn [Out "hEnum"];
  if negb (err =? 0) then
    mret (Err (Errorf
      "the ICORRuntimeHost::EnumDomains method returned an error:\n%s" (Msg err)))
  else if negb (hr =? S_OK) then
    mret (Err (Errorf
      "the ICORRuntimeHost::EnumDomains method returned a non-zero HRESULT: 0x%x"
      (Hex hr)))
  else mret (Ok hEnum).

Definition NextDomain (obj : Z) (hDomainEnum : Z) : M (Res Z) :=
  fn ← vtbl obj "NextDomain";
  '(hr, iu, err) ← SyscallN fn [Ptr obj; Imm hDomainEnum; Out "iu"];
  if negb (err =? 0) then
    mret (Err (Errorf
      "the ICORRuntimeHost::NextDomain method returned an error:\n%s" (Msg err)))
  else if negb (hr =? S_OK) then
    mret (Err (Errorf
      "the ICORRuntimeHost::NextDomain method returned a non-zero HRESULT: 0x%x"
      (Hex hr)))
  else IUnknown.QueryInterface iu IID_AppDomain "ad".

Definition CloseEnum (obj : Z) (hDomainEnum : Z) : M (option error) :=
  fn ← vtbl obj "CloseEnum";
  '(hr, _, err) ← SyscallN fn [Ptr obj; Imm hDomainEnum];
  if negb (err =? 0) then
    mret (Some (Errorf
      "the ICORRuntimeHost::CloseEnum method returned an error:\n%s" (Msg err)))
  else if negb (hr =? S_OK) then
    mret (Some (Errorf
      "the ICORRuntimeHost::CloseEnum method returned a non-zero HRESULT: 0x%x"
      (Hex hr)))
  else mret None.

Definition UnloadDomain (obj : Z) (appdomain : Z) : M (option error) :=
  fn ← vtbl obj "UnloadDomain";
  '(hr, _, err) ← SyscallN fn [Ptr obj; Ptr appdomain];
  if negb (err =? 0) then
    mret (Some (Errorf
      "the ICORRuntimeHost::UnloadDomain method returned an error:\n%s" (Msg err)))
  else if negb (hr =? S_OK) then
    mret (Some (Errorf
      "the ICORRuntimeHost::UnloadDomain method returned a non-zero HRESULT: 0x%x"
      (Hex hr)))
  else mret None.

Definition Stop (obj : Z) : M (option error) :=
  fn ← vtbl obj "Stop";
  '(hr, _, err) ← SyscallN fn [Ptr obj];
  if negb (err =? 0) then
    mret (Some (Errorf
      "the ICORRuntimeHost::UnloadDomain method returned an error:\n%s" (Msg err)))
  else if negb (hr =? S_OK) then
    mret (Some (Errorf
      "the ICORRuntimeHost::UnloadDomain method returned a non-zero HRESULT: 0x%x"
      (Hex hr)))
  else mret None.

End ICORRuntimeHost.

(** [GetAppDomain] of appdomain.go. *)
Definition GetAppDomain (runtimeHost : Z) : M (Res Z) :=
  iu ←? ICORRuntimeHost.GetDefaultDomain runtimeHost;
  IUnknown.QueryInterface iu IID_AppDomain "appDomain".

(** ** The COM method wrappers of the package, one name for each, and
    the run of a wrapper on a handle (its result dropped). *)

Inductive wrapper : Type :=
| IUnknown_QueryInterface (riid : GUID) (ppvObject : string)
| IUnknown_AddRef
| IUnknown_Release
| Assembly_QueryInterface (riid : GUID) (ppvObject : string)
| Assembly_AddRef
| Assembly_Release
| Assembly_GetEntryPoint
| Assembly_GetFullName
| AppDomain_QueryInterface (syscallN : bool) (riid : GUID) (ppvObject : string)
| AppDomain_AddRef (syscallN : bool)
| AppDomain_Release (syscallN : bool)
| AppDomain_GetHashCode (syscallN : bool)
| AppDomain_GetFriendlyName (syscallN : bool)
| AppDomain_Load_2 (assemblyString : string)
| AppDomain_Load_3 (syscallN : bool) (rawAssembly : Z)
| AppDomain_ToString (syscallN : bool)
| AppDomain_GetAssemblies (syscallN : bool)
| ICORRuntimeHost_QueryInterface (riid : GUID) (ppvObject : string)
| ICORRuntimeHost_AddRef
| ICORRuntimeHost_Release
| ICORRuntimeHost_Start
| ICORRuntimeHost_GetDefaultDomain
| ICORRuntimeHost_CreateDomain (FriendlyName : string)
| ICORRuntimeHost_EnumDomains
| ICORRuntimeHost_NextDomain (hDomainEnum : Z)
| ICORRuntimeHost_CloseEnum (hDomainEnum : Z)
| ICORRuntimeHost_UnloadDomain (appdomain : Z)
| ICORRuntimeHost_Stop.

Definition void {A} (m : M A) : M unit := _ ← m; mret tt.

Definition run (wr : wrapper) (obj : Z) : M unit :=
  match wr with
  | IUnknown_QueryInterface riid ppv => void (IUnknown.QueryInterface obj riid ppv)
  | IUnknown_AddRef => void (IUnknown.AddRef obj)
  | IUnknown_Release => void (IUnknown.Release obj)
  | Assembly_QueryInterface riid ppv => void (Assembly.QueryInterface obj riid ppv)
  | Assembly_AddRef => void (Assembly.AddRef obj)
  | Assembly_Release => void (Assembly.Release obj)
  | Assembly_GetEntryPoint => void (Assembly.GetEntryPoint obj)
  | Assembly_GetFullName => void (Assembly.GetFullName obj)
  | AppDomain_QueryInterface true riid ppv => void (AppDomain.QueryInterface obj riid ppv)
  | AppDomain_QueryInterface false riid ppv =>
      void (AppDomain_Syscall.QueryInterface obj riid ppv)
  | AppDomain_AddRef true => void (AppDomain.AddRef obj)
  | AppDomain_AddRef false => void (AppDomain_Syscall.AddRef obj)
  | AppDomain_Release true => void (AppDomain.Release obj)
  | AppDomain_Release false => void (AppDomain_Syscall.Release obj)
  | AppDomain_GetHashCode true => void (AppDomain.GetHashCode obj)
  | AppDomain_GetHashCode false => void (AppDomain_Syscall.GetHashCode obj)
  | AppDomain_GetFriendlyName true => void (AppDomain.GetFriendlyName obj)
  | AppDomain_GetFriendlyName false => void (AppDomain_Syscall.GetFriendlyName obj)
  | AppDomain_Load_2 name => void (AppDomain_Syscall.Load_2 obj name)
  | AppDomain_Load_3 true sa => void (AppDomain.Load_3 obj sa)
  | AppDomain_Load_3 false sa => void (AppDomain_Syscall.Load_3 obj sa)
  | AppDomain_ToString true => void (AppDomain.ToString obj)
  | AppDomain_ToString false => void (AppDomain_Syscall.ToString obj)
  | AppDomain_GetAssemblies true => void (AppDomain.GetAssemblies obj)
  | AppDomain_GetAssemblies false => void (AppDomain_Syscall.GetAssemblies obj)
  | ICORRuntimeHost_QueryInterface riid ppv =>
      void (ICORRuntimeHost.QueryInterface obj riid ppv)
  | ICORRuntimeHost_AddRef => void (ICORRuntimeHost.AddRef obj)
  | ICORRuntimeHost_Release => void (ICORRuntimeHost.Release obj)
  | ICORRuntimeHost_Start => void (ICORRuntimeHost.Start obj)
  | ICORRuntimeHost_GetDefaultDomain => void (ICORRuntimeHost.GetDefaultDomain obj)
  | ICORRuntimeHost_CreateDomain name => void (ICORRuntimeHost.CreateDomain obj name)
  | ICORRuntimeHost_EnumDomains => void (ICORRuntimeHost.EnumDomains obj)
  | ICORRuntimeHost_NextDomain h => void (ICORRuntimeHost.NextDomain obj h)
  | ICORRuntimeHost_CloseEnum h => void (ICORRuntimeHost.CloseEnum obj h)
  | ICORRuntimeHost_UnloadDomain ad => void (ICORRuntimeHost.UnloadDomain obj ad)
  | ICORRuntimeHost_Stop => void (ICORRuntimeHost.Stop obj)
  end.

(** The native calls made between two states of the world. *)
Definition new_calls (w w' : World) : list call :=
  drop (length (trace w)) (trace w').

(** ** Notions the statements below are written with *)

(** The next [n] native calls leave last-error code 0 behind. *)
Definition calm (n : nat) (w : World) : Prop :=
  Forall (λ e, e = 0) (take n (errnos w)).



(** The calls among [cs] that copy memory. *)
Definition is_copy (c : call) : bool :=
  match callee c with
  | Proc _ name => String.eqb name "RtlCopyMemory"
  | Slot _ _ => false
  end.

(** The first call among [cs] that goes through a method table. *)
Definition is_method (c : call) : bool :=
  match callee c with
  | Proc _ _ => false
  | Slot _ _ => true
  end.

Definition method_call (cs : list call) : option call := List.find is_method cs.



(** The call by which the name of an entry is read. *)
Definition name_call (a : Z) : call :=
  Call (Slot a "get_FullName") [Ptr a; Out "pRetValBSTR"].

(** The world right after a native call [c] that changes nothing else:
    the call is logged and one last-error code is consumed. *)
Definition after_call (c : call) (w : World) : World :=
  set_errnos (tl (errnos w)) (set_trace (trace w ++ [c]) w).

(** Two worlds with the same arrays, memory, objects and strings: they
    differ by the log and the pending last-error codes only. *)
Definition same_store (w w' : World) : Prop :=
  arrays w' = arrays w ∧ mem w' = mem w ∧ objects w' = objects w
  ∧ bstrs w' = bstrs w.

(** The two native calls [CreateSafeArray] makes. *)
Definition create_call (n : Z) : call :=
  Call (Proc "OleAut32.dll" "SafeArrayCreate")
    [Imm VT_UI1; Imm 1; InBound (mkBound n 0)].

Definition copy_call (dst : Z) (B : list Byte.byte) : call :=
  Call (Proc "ntdll.dll" "RtlCopyMemory")
    [Ptr dst; Bytes B; Imm (uintptr (Z.of_nat (length B)))].

(** A computation only adds calls to the log. *)
Definition grows {A} (m : M A) : Prop :=
  ∀ w, ∃ more, trace (m w).2 = trace w ++ more.

(** From [w], the first call through a method table that [m] makes is [c]. *)
Definition leads {A} (m : M A) (w : World) (c : call) : Prop :=
  ∃ pre more,
    trace (m w).2 = trace w ++ pre ++ c :: more
    ∧ Forall (λ c', is_method c' = false) pre.

(** [n] rounds of a loop body, one after the other. *)
Fixpoint steps {S R} (n : nat) (body : S → M (step S R)) (s : S)
  : M (step S R) :=
  match n with
  | O => λ w, (Done (Next s), w)
  | Datatypes.S n' => λ w,
      match body s w with
      | (Done (Next s'), w') => steps n' body s' w'
      | r => r
      end
  end.

(** [strings.ToLower] on ASCII text: the letters A to Z go to a to z. *)
Definition lower_ascii (c : Ascii.ascii) : Ascii.ascii :=
  let n := Ascii.nat_of_ascii c in
  if (65 <=? n)%nat && (n <=? 90)%nat then Ascii.ascii_of_nat (n + 32) else c.

Fixpoint ToLowerASCII (s : string) : string :=
  match s with
  | EmptyString => EmptyString
  | String c s' => String (lower_ascii c) (ToLowerASCII s')
  end.

(** ** Concrete worlds *)

(** The [n] low bytes of [v], least significant first. *)
Fixpoint le_bytes (n : nat) (v : Z) : list Byte.byte :=
  match n with
  | O => []
  | Datatypes.S n' =>
      default Byte.x00 (Byte.of_N (Z.to_N (v mod 256))) :: le_bytes n' (v / 256)
  end.

(** An empty native heap from 0x1000 to 0x100000; no dispatch noise. *)
Definition w_heap : World := mkWorld ∅ ∅ ∅ ∅ 0x1000 0x100000 [] [].

(** The same with a heap of 2^40 bytes. *)
Definition w_vast : World := mkWorld ∅ ∅ ∅ ∅ 0x1000 (2 ^ 40) [] [].

(** An object every method of which succeeds and stores [out]. *)
Definition plain_object (out : Z) : Object := mkObject 1 (λ _, (S_OK, out)).

(** An assembly whose name is the wide string at [bstr]; its entry point
    is the method object at [entry]. *)
Definition assembly_object (bstr entry : Z) : Object :=
  mkObject 1 (λ slot,
    if String.eqb slot "get_FullName" then (S_OK, bstr)
    else if String.eqb slot "get_EntryPoint" then (S_OK, entry)
    else (S_OK, 0)).

(** An assembly whose name cannot be read: status COR_E_FILELOAD. *)
Definition COR_E_FILELOAD : Z := 0x80131621.

Definition broken_assembly : Object :=
  mkObject 1 (λ slot,
    if String.eqb slot "get_FullName" then (COR_E_FILELOAD, 0) else (S_OK, 0)).

(** A domain whose assemblies are listed by the array at [psa]. *)
Definition domain_object (psa : Z) : Object :=
  mkObject 1 (λ slot,
    if String.eqb slot "GetAssemblies" then (S_OK, psa) else (S_OK, 0)).

Definition mscorlib_name : string :=
  "mscorlib, Version=4.0.0.0, Culture=neutral, PublicKeyToken=b77a5c561934e089".
Definition testdll_name : string :=
  "TestDLL, Version=1.0.0.0, Culture=neutral, PublicKeyToken=null".

(** A domain at 0x2000 that reports two assemblies, mscorlib at 0x4000
    and TestDLL at 0x5000, in the one-dimensional array at 0x3000; a
    runtime host at 0x6000.  Nothing has been called yet. *)
Definition w_domain : World :=
  mkWorld
    (store_bytes 0x3020 (le_bytes 8 0x4000 ++ le_bytes 8 0x5000) ∅)
    {[ 0x3000 := mkSafeArray 1 0 8 0 0x3020 [mkBound 2 0] ]}
    {[ 0x2000 := domain_object 0x3000;
       0x4000 := assembly_object 0x4100 0x4800;
       0x5000 := assembly_object 0x5100 0x5800;
       0x6000 := plain_object 0x2000 ]}
    {[ 0x4100 := mscorlib_name; 0x5100 := testdll_name ]}
    0x10000 0x100000 [] [].

(** The same domain, the name of whose first assembly cannot be read. *)
Definition w_unreadable : World :=
  set_objects (<[ 0x4000 := broken_assembly ]> (objects w_domain)) w_domain.

(** The same world, in which the dispatch layer leaves last-error code 5
    (access denied) behind the next call. *)
Definition w_noisy : World := set_errnos [5] w_domain.

(** The first bytes of an executable image. *)
Definition MZ : list Byte.byte := [Byte.x4d; Byte.x5a; Byte.x90; Byte.x00].

(** A byte sequence of 4 GiB. *)
Definition four_GiB : list Byte.byte := repeat Byte.x00 (Z.to_nat (2 ^ 32)).

(** ** icorruntimehost.go: the search for a domain by name *)

(** *** The text of an error

    [GetDomain] looks at the text of the error [NextDomain] returns.
    The text of an error built by [fmt.Errorf] is its format, with the
    verb replaced by the argument as the verb prints it.  Formats are
    kept as the source spells them. *)

(** A digit below 16, as [%x] and [%d] print it. *)
Definition digit (d : Z) : Ascii.ascii :=
  Ascii.ascii_of_N (Z.to_N (if d <? 10 then 48 + d else 87 + d)).

(** The digits of [z] in base [base], most significant first, put in
    front of [acc]; [fuel] digits at most. *)
Fixpoint digits (fuel : nat) (base z : Z) (acc : string) : string :=
  match fuel with
  | O => acc
  | Datatypes.S fuel' =>
      let acc' := String (digit (z mod base)) acc in
      if z / base =? 0 then acc' else digits fuel' base (z / base) acc'
  end.

(** A [uintptr] under [%x] and under [%d]. *)
Definition hex (z : Z) : string := digits 16 16 z "".
Definition dec (z : Z) : string := digits 20 10 z "".

(** [fmt.Sprintf] on a format with one verb. *)
Fixpoint Sprintf (format arg : string) : string :=
  match format with
  | EmptyString => EmptyString
  | String c rest =>
      if String.eqb (String c EmptyString) "%" then
        match rest with
        | String _ rest' => arg +:+ rest'
        | EmptyString => "%!(NOVERB)"
        end
      else String c (Sprintf rest arg)
  end.

(** [strings.HasSuffix(s, suffix)]:
    [len(s) >= len(suffix) && s[len(s)-len(suffix):] == suffix]. *)
Definition HasSuffix (s suffix : string) : bool :=
  (String.length suffix <=? String.length s)%nat
  && String.eqb
       (substring (String.length s - String.length suffix) (String.length suffix) s)
       suffix.

Section GetDomain.

(** [syscall.Errno.Error], the message the system has for a code, and
    [strings.EqualFold], of the Go library; the text of a failure of
    [checkOK], which is not among the sources. *)
Variable Errno_Error : Z → string.
Variable checkOK_Error : Z → string → string.
Variable EqualFold : string → string → bool.

Definition Sprint (a : verb) : string :=
  match a with
  | Hex z => hex z
  | Dec z => dec z
  | Str s => s
  | Msg errno => Errno_Error errno
  end.

(** [err.Error()] *)
Definition Error (err : error) : string :=
  match err with
  | Errno code => Errno_Error code
  | Errorf format a => Sprintf format (Sprint a)
  | CheckOK hr caller => checkOK_Error hr caller
  end.

(** One round of the [for { ... }] of [GetDomain]; [break] leads to the
    statement after the loop, which returns the not-found error. *)
Definition GetDomain_round (obj hEnum : Z) (dName : string) (_ : unit)
  : M (step unit (Res Z)) :=
  r ← ICORRuntimeHost.NextDomain obj hEnum;
  match r with
  | Err err =>
      if HasSuffix (Error err) "0x1" then
        mret (Break (Err (Errorf "could not find domain: %s" (Str dName))))
      else mret (Break (Err err))
  | Ok ad =>
      r ← AppDomain.GetFriendlyName ad;
      match r with
      | Err err => mret (Break (Err err))
      | Ok thisName =>
          if EqualFold dName thisName then mret (Break (Ok ad))
          else mret (Next tt)
      end
  end.

(** The loop has no exit test and no counter: it ends by a [return] or
    by the [break] (the model runs 2^33 rounds of it at most). *)
Definition GetDomain_loop (obj hEnum : Z) (dName : string) : M (Res Z) :=
  for_loop (GetDomain_round obj hEnum dName) tt.

Definition GetDomain (obj : Z) (dName : string) : M (Res Z) :=
  hEnum ←? ICORRuntimeHost.EnumDomains obj;
  GetDomain_loop obj hEnum dName.

End GetDomain.

(** ** Notions of the further properties *)

(** Every call a computation adds to the log satisfies [P]. *)
Definition makes {A} (P : call → Prop) (m : M A) : Prop :=
  ∀ w, ∃ more, trace (m w).2 = trace w ++ more ∧ Forall P more.

(** A computation that leaves arrays, memory, objects and strings as
    they were. *)
Definition quiet {A} (m : M A) : Prop := ∀ w, same_store w (m w).2.

(** The calls that read: the listing of a domain, the dimension count,
    the bounds and the elements of an array, the name of an assembly. *)
Definition is_read (c : call) : bool :=
  match callee c with
  | Proc dll name =>
      String.eqb dll "OleAut32.dll"
      && existsb (String.eqb name)
           ["SafeArrayGetDim"; "SafeArrayGetLBound"; "SafeArrayGetUBound";
            "SafeArrayGetElement"]%string
  | Slot _ slot => String.eqb slot "GetAssemblies" || String.eqb slot "get_FullName"
  end.

(** A call that closes an enumeration of the domains. *)
Definition is_close (c : call) : bool :=
  match callee c with
  | Slot _ slot => String.eqb slot "CloseEnum"
  | Proc _ _ => false
  end.

(** The dispatch layer reports no code at all. *)
Definition silent (w : World) : Prop := Forall (λ e, e = 0) (errnos w).

(** The calls by which [ListAssemblies] gets the array of a domain and
    reads its shape, and the call that reads one element. *)
Definition listing_calls (obj safeArray : Z) : list call :=
  [Call (Slot obj "GetAssemblies") [Ptr obj; Out "safeArray"];
   Call (Proc "OleAut32.dll" "SafeArrayGetDim") [Ptr safeArray];
   Call (Proc "OleAut32.dll" "SafeArrayGetLBound")
     [Ptr safeArray; Imm 1; Out "plLbound"];
   Call (Proc "OleAut32.dll" "SafeArrayGetUBound")
     [Ptr safeArray; Imm 1; Out "plUbound"]].

Definition element_call (safeArray i : Z) : call :=
  Call (Proc "OleAut32.dll" "SafeArrayGetElement")
    [Ptr safeArray; In32 i; Out "ret"].

(** The full name the native side holds for the assembly at [a], when
    the assembly is live and reports it with status 0. *)
Definition full_name (w : World) (a : Z) : option string :=
  o ← objects w !! a;
  if (respond o "get_FullName").1 =? S_OK
  then bstrs w !! (respond o "get_FullName").2
  else None.


(** The error of [SafeArrayGetElement] on an index outside the array. *)
Definition bad_index : error :=
  Errorf "the oleaut32!SafeArrayGetElement function returned a non-zero HRESULT: 0x%x"
    (Hex DISP_E_BADINDEX).

(** ** More concrete worlds *)

(** A native heap with no room left. *)
Definition w_full : World := mkWorld ∅ ∅ ∅ ∅ 0x1000 0x1000 [] [].


(** The domain of [w_domain], its array with two dimensions. *)
Definition w_two_dimensions : World :=
  set_arrays
    {[ 0x3000 := mkSafeArray 2 0 8 0 0x3020 [mkBound 1 0; mkBound 2 0] ]} w_domain.

(** A domain with a friendly name, that lists the array at [psa]. *)
Definition named_domain (bstr psa : Z) : Object :=
  mkObject 1 (λ slot,
    if String.eqb slot "get_FriendlyName" then (S_OK, bstr)
    else if String.eqb slot "GetAssemblies" then (S_OK, psa)
    else (S_OK, 0)).

(** A runtime host at 0x6000 every method of which hands out the
    interface at 0x7000, which answers every query with the domain at
    0x2000, named DefaultDomain. *)
Definition w_hosted : World :=
  mkWorld ∅ ∅
    {[ 0x2000 := named_domain 0x2100 0x3000;
       0x6000 := plain_object 0x7000;
       0x7000 := plain_object 0x2000 ]}
    {[ 0x2100 := "DefaultDomain" ]}
    0x10000 0x100000 [] [].

(** A runtime host whose enumeration of the domains is at its end:
    NextDomain reports status 1. *)
Definition S_FALSE : Z := 1.

Definition exhausted_host : Object :=
  mkObject 1 (λ slot, if String.eqb slot "NextDomain" then (S_FALSE, 0) else (S_OK, 0)).

Definition w_exhausted : World :=
  set_objects (<[ 0x6000 := exhausted_host ]> (objects w_hosted)) w_hosted.

(** [strings.EqualFold] on ASCII text, and a text for the codes of the
    system. *)
Definition EqualFoldASCII (s t : string) : bool :=
  String.eqb (ToLowerASCII s) (ToLowerASCII t).

Definition Errno_text (errno : Z) : string := "winapi error #" +:+ dec errno.

Definition checkOK_text (hr : Z) (caller : string) : string :=
  caller +:+ ": 0x" +:+ hex hr.

(** * Proofs *)

(** ** Tactics: unfolding the monad, a native call, the fields of a world *)

Ltac unfold_M :=
  cbv [mbind M_bind mret M_ret try_bind void panic debugPrint
       MustLoadDLL MustFindProc];
  cbn [exports String.eqb Ascii.eqb Bool.eqb existsb orb].

Ltac unfold_call :=
  cbv [SyscallN Syscall native callee args native_proc];
  cbn [String.eqb Ascii.eqb Bool.eqb take lookup list_lookup word bound_arg bytes_arg text_arg].

Ltac world_simpl :=
  cbv [mem arrays objects bstrs brk top errnos trace next_errno
       set_mem set_arrays set_objects set_bstrs set_brk set_errnos set_trace
       native_RtlCopyMemory fst snd] in *.

(** ** Machine integers and memory *)


Lemma int32_0 : int32 0 = 0.
Proof. reflexivity. Qed.

Lemma uintptr_small z : 0 ≤ z < 2 ^ 64 → uintptr z = z.
Proof. intros H. unfold uintptr. by apply Z.mod_small. Qed.

Lemma uint32_small z : 0 ≤ z < 2 ^ 32 → uint32 z = z.
Proof. intros H. unfold uint32. by apply Z.mod_small. Qed.


Lemma store_bytes_lookup pv (B : list Byte.byte) m (j : nat) b :
  B !! j = Some b → store_bytes pv B m !! (pv + Z.of_nat j) = Some b.
Proof.
  intros H. unfold store_bytes. apply lookup_union_Some_l.
  apply lookup_map_seqZ_Some. split; [lia|].
  replace (Z.to_nat (pv + Z.of_nat j - pv)) with j by lia. done.
Qed.

(** ** The native side *)

Lemma native_trace c w : trace (native c w).2 = trace w.
Proof.
  destruct w as [m a os s k t e tr].
  destruct c as [[dll name|obj slot] al]; unfold native; cbn [callee args].
  - unfold native_proc, native_SafeArrayCreate, native_SafeArrayLock,
      native_SysAllocString.
    repeat case_match; simplify_eq; reflexivity.
  - unfold native_method. repeat case_match; simplify_eq; reflexivity.
Qed.

Lemma SyscallN_trace fn a w :
  trace (SyscallN fn a w).2 = trace w ++ [Call fn a].
Proof.
  unfold SyscallN.
  pose proof (native_trace (Call fn a) (set_trace (trace w ++ [Call fn a]) w)) as Ht.
  destruct (native _ _) as [[[r1 out]|f] w2]; cbn [snd] in *.
  - destruct w2; world_simpl. rewrite Ht. by destruct w.
  - rewrite Ht. by destruct w.
Qed.

Lemma SyscallN_method obj this slot rest w o :
  objects w !! this = Some o →
  String.eqb slot "AddRef" = false →
  String.eqb slot "Release" = false →
  String.eqb slot "QueryInterface" = false →
  SyscallN (Slot obj slot) (Ptr this :: rest) w
  = (Done ((respond o slot).1, (respond o slot).2, next_errno w),
     after_call (Call (Slot obj slot) (Ptr this :: rest)) w).
Proof.
  intros H H1 H2 H3. unfold SyscallN, native, native_method, after_call.
  cbn [callee args lookup list_lookup].
  destruct w as [m a os s k t e tr]. world_simpl.
  rewrite H, H1, H2, H3. by destruct (respond o slot).
Qed.

Lemma vtbl_live obj slot w o :
  objects w !! obj = Some o → vtbl obj slot w = (Done (Slot obj slot), w).
Proof. intros H. unfold vtbl. by rewrite H. Qed.

Lemma calm_S n w :
  calm (S n) w → next_errno w = 0 ∧ ∀ w', errnos w' = tl (errnos w) → calm n w'.
Proof.
  unfold calm, next_errno. destruct (errnos w) as [|e es]; cbn [take hd tl].
  - intros _. split; [done|]. intros w' ->. by rewrite take_nil.
  - intros H. apply Forall_cons in H as [-> H]. split; [done|]. by intros w' ->.
Qed.

Lemma same_store_refl w : same_store w w.
Proof. done. Qed.

Lemma same_store_trans w1 w2 w3 :
  same_store w1 w2 → same_store w2 w3 → same_store w1 w3.
Proof. intros (?&?&?&?) (?&?&?&?). repeat split; congruence. Qed.

Lemma same_store_after_call c w : same_store w (after_call c w).
Proof. by destruct w. Qed.

Lemma native_GetElement_store psa i w w' :
  same_store w w' →
  native_SafeArrayGetElement psa i w' = native_SafeArrayGetElement psa i w.
Proof. intros (Ha & Hm & _). unfold native_SafeArrayGetElement. by rewrite Ha, Hm. Qed.

Lemma native_GetDim_store psa w w' :
  same_store w w' → native_SafeArrayGetDim psa w' = native_SafeArrayGetDim psa w.
Proof. intros (Ha & _). unfold native_SafeArrayGetDim. by rewrite Ha. Qed.

Lemma native_GetLBound_store psa d w w' :
  same_store w w' →
  native_SafeArrayGetLBound psa d w' = native_SafeArrayGetLBound psa d w.
Proof. intros (Ha & _). unfold native_SafeArrayGetLBound. by rewrite Ha. Qed.

Lemma native_GetUBound_store psa d w w' :
  same_store w w' →
  native_SafeArrayGetUBound psa d w' = native_SafeArrayGetUBound psa d w.
Proof. intros (Ha & _). unfold native_SafeArrayGetUBound. by rewrite Ha. Qed.



(** What SafeArrayCreate leaves behind when it hands out a descriptor. *)
Lemma native_SafeArrayCreate_new vt cDims b w psa w' :
  native_SafeArrayCreate vt cDims (Some b) w = (psa, w') → psa ≠ 0 →
  ∃ cb, elem_size vt = Some cb ∧ cDims = 1 ∧ psa = brk w ∧ 0 < brk w
    ∧ brk w + SAFEARRAY_SIZE + cb * cElements b ≤ top w
    ∧ arrays w' = <[psa := mkSafeArray 1 (features vt) cb 0 (psa + SAFEARRAY_SIZE) [b]]>
                    (arrays w)
    ∧ mem w' = store_bytes (psa + SAFEARRAY_SIZE)
                 (replicate (Z.to_nat (cb * cElements b)) Byte.x00) (mem w)
    ∧ brk w' = psa + SAFEARRAY_SIZE + cb * cElements b.
Proof.
  unfold native_SafeArrayCreate. intros H Hne.
  destruct (elem_size vt) as [cb|]; [|by inversion H; subst].
  destruct (_ && _) eqn:Hc; [|by inversion H; subst].
  inversion H; subst; clear H.
  apply andb_prop in Hc as [Hc H3]. apply andb_prop in Hc as [H1 H2].
  exists cb. repeat split; try done; lia.
Qed.


(** ** Loops *)

Lemma steps_add {S R} (n m : nat) (body : S → M (step S R)) s w :
  steps (n + m) body s w =
  match steps n body s w with
  | (Done (Next s'), w') => steps m body s' w'
  | r => r
  end.
Proof.
  revert s w. induction n as [|n IH]; intros s w; cbn [steps Nat.add].
  - reflexivity.
  - destruct (body s w) as [[[s'|r]|f] w']; [apply IH|reflexivity|reflexivity].
Qed.

Lemma iterate_steps {S R} (d : nat) (body : S → M (step S R)) s w :
  iterate d body s w = steps (2 ^ d) body s w.
Proof.
  revert s w. induction d as [|d IH]; intros s w.
  - cbn [iterate steps Nat.pow].
    by destruct (body s w) as [[[s'|r]|f] w'].
  - cbn [iterate]. rewrite Nat.pow_succ_r', Nat.mul_succ_l, Nat.mul_1_l.
    rewrite steps_add, <- IH.
    destruct (iterate d body s w) as [[[s'|r]|f] w']; [apply IH|reflexivity|reflexivity].
Qed.

Lemma iterate_Break_now {S R} (d : nat) (body : S → M (step S R)) s w r w' :
  body s w = (Done (Break r), w') → iterate d body s w = (Done (Break r), w').
Proof.
  intros H. induction d as [|d IH]; cbn [iterate]; [done|]. by rewrite IH.
Qed.

Lemma for_loop_Break_now {S R} (body : S → M (step S R)) s w r w' :
  body s w = (Done (Break r), w') → for_loop body s w = (Done r, w').
Proof.
  intros H. unfold for_loop, mbind, M_bind. by rewrite (iterate_Break_now _ _ _ _ _ _ H).
Qed.


(** ** The array functions, run *)

Lemma SafeArrayCreate_run vt cDims b w :
  SafeArrayCreate vt cDims b w =
  let c := Call (Proc "OleAut32.dll" "SafeArrayCreate")
             [Imm (uintptr vt); Imm (uintptr cDims); InBound b] in
  let r := native_SafeArrayCreate (uint16 (uintptr vt)) (uintptr cDims) (Some b)
             (set_trace (trace w ++ [c]) w) in
  (Done (if negb (next_errno r.2 =? 0) then Err (Errno (next_errno r.2))
         else if r.1 =? 0 then
           Err (Errorf
             "the OleAut32!SafeArrayCreate function return 0x%x and the SafeArray was not created"
             (Hex r.1))
         else Ok r.1),
   set_errnos (tl (errnos r.2)) r.2).
Proof.
  unfold SafeArrayCreate. unfold_M. unfold_call.
  destruct (native_SafeArrayCreate _ _ _ _) as [r w2]. cbn [fst snd].
  destruct (negb _); [reflexivity|]. destruct (r =? 0); reflexivity.
Qed.

Lemma SafeArrayCreate_Ok_array vt cDims b w psa w1 :
  SafeArrayCreate vt cDims b w = (Done (Ok psa), w1) →
  is_Some (arrays w1 !! psa).
Proof.
  rewrite SafeArrayCreate_run. cbv zeta.
  destruct (native_SafeArrayCreate _ _ _ _) as [r w2] eqn:Hn. cbn [fst snd].
  intros H. destruct (negb _); [by inversion H|].
  destruct (r =? 0) eqn:Hr; [by inversion H|].
  inversion H; subst; clear H. apply Z.eqb_neq in Hr.
  apply native_SafeArrayCreate_new in Hn as (cb & _ & _ & _ & _ & _ & Ha & _); [|done].
  destruct w2. world_simpl. rewrite Ha, lookup_insert_eq. by eexists.
Qed.

Lemma SafeArrayCreate_no_panic vt cDims b w f w1 :
  SafeArrayCreate vt cDims b w ≠ (Panic f, w1).
Proof.
  rewrite SafeArrayCreate_run. cbv zeta. discriminate.
Qed.

Lemma SafeArrayGetDim_run psa w :
  SafeArrayGetDim psa w =
  (Done (if negb (next_errno w =? 0)
         then Err (Errorf
                "the oleaut32!SafeArrayGetDim function call returned an error:\n%s"
                (Msg (next_errno w)))
         else Ok (uint32 (native_SafeArrayGetDim psa w))),
   after_call (Call (Proc "OleAut32.dll" "SafeArrayGetDim") [Ptr psa]) w).
Proof.
  unfold SafeArrayGetDim, after_call. unfold_M. unfold_call.
  cbn [next_errno errnos set_trace].
  destruct (negb _); reflexivity.
Qed.

Lemma SafeArrayGetLBound_run psa nDim w :
  SafeArrayGetLBound psa nDim w =
  let r := native_SafeArrayGetLBound psa (uintptr nDim) w in
  (Done (if negb (next_errno w =? 0) then Err (Errno (next_errno w))
         else if negb (r.1 =? S_OK) then
           Err (Errorf
             "the oleaut32!SafeArrayGetLBound function returned a non-zero HRESULT: 0x%x"
             (Hex r.1))
         else Ok r.2),
   after_call (Call (Proc "OleAut32.dll" "SafeArrayGetLBound")
                 [Ptr psa; Imm (uintptr nDim); Out "plLbound"]) w).
Proof.
  unfold SafeArrayGetLBound, after_call. unfold_M. unfold_call. cbv zeta.
  destruct w as [m ar os s k t e tr]. world_simpl.
  change (native_SafeArrayGetLBound psa (uintptr nDim) (mkWorld m ar os s k t e _))
    with (native_SafeArrayGetLBound psa (uintptr nDim) (mkWorld m ar os s k t e tr)).
  destruct (native_SafeArrayGetLBound _ _ _) as [hr out].
  destruct (negb _); [reflexivity|]. destruct (negb _); reflexivity.
Qed.

Lemma SafeArrayGetUBound_run psa nDim w :
  SafeArrayGetUBound psa nDim w =
  let r := native_SafeArrayGetUBound psa (uintptr nDim) w in
  (Done (if negb (next_errno w =? 0) then Err (Errno (next_errno w))
         else if negb (r.1 =? S_OK) then
           Err (Errorf
             "the oleaut32!SafeArrayGetUBound function returned a non-zero HRESULT: 0x%x"
             (Hex r.1))
         else Ok r.2),
   after_call (Call (Proc "OleAut32.dll" "SafeArrayGetUBound")
                 [Ptr psa; Imm (uintptr nDim); Out "plUbound"]) w).
Proof.
  unfold SafeArrayGetUBound, after_call. unfold_M. unfold_call. cbv zeta.
  destruct w as [m ar os s k t e tr]. world_simpl.
  change (native_SafeArrayGetUBound psa (uintptr nDim) (mkWorld m ar os s k t e _))
    with (native_SafeArrayGetUBound psa (uintptr nDim) (mkWorld m ar os s k t e tr)).
  destruct (native_SafeArrayGetUBound _ _ _) as [hr out].
  destruct (negb _); [reflexivity|]. destruct (negb _); reflexivity.
Qed.



Lemma CreateSafeArray_run (B : list Byte.byte) (w : World) :
  let n := uint32 (Z.of_nat (length B)) in
  let pv := brk w + SAFEARRAY_SIZE in
  B ≠ [] → calm 2 w → 0 < brk w → pv + n ≤ top w →
  ∃ w',
    CreateSafeArray B w = (Done (Ok (brk w)), w')
    ∧ arrays w' = <[brk w := mkSafeArray 1 FADF_HAVEVARTYPE 1 0 pv [mkBound n 0]]> (arrays w)
    ∧ mem w' = store_bytes pv (take (Z.to_nat (uintptr (Z.of_nat (length B)))) B)
                 (store_bytes pv (replicate (Z.to_nat n) Byte.x00) (mem w))
    ∧ trace w' = trace w ++ [create_call n; copy_call pv B].
Proof.
  intros n pv HB Hcalm Hbrk Htop.
  apply calm_S in Hcalm as [He1 Hcalm].
  specialize (Hcalm (set_errnos (tl (errnos w)) w) eq_refl).
  apply (calm_S 0) in Hcalm as [He2 _].
  unfold CreateSafeArray. unfold_M. rewrite SafeArrayCreate_run. cbv zeta.
  rewrite int32_0. fold n.
  change (uintptr VT_UI1) with 17. change (uint16 17) with 17. change (uintptr 1) with 1.
  unfold native_SafeArrayCreate. change (elem_size 17) with (Some 1).
  change (features 17) with FADF_HAVEVARTYPE.
  cbn [cElements lLbound]. rewrite Z.mul_1_l. subst pv.
  destruct w as [m a o s k t e tr]. world_simpl.
  assert (Hc : (1 =? 1) && (0 <? k) && (k + SAFEARRAY_SIZE + n <=? t) = true).
  { apply andb_true_intro; split; [apply andb_true_intro; split|]; [done| |]; lia. }
  rewrite Hc. world_simpl.
  rewrite He1. cbn [Z.eqb negb].
  assert (Hz : (k =? 0) = false) by lia. rewrite Hz.
  unfold deref_array, addr_elem0. world_simpl.
  rewrite lookup_insert_eq.
  destruct B as [|b B']; [done|].
  unfold_call. cbn [pvData]. world_simpl.
  rewrite He2. cbn [Z.eqb negb].
  eexists. split; [reflexivity|].
  unfold native_RtlCopyMemory. world_simpl.
  repeat split. by rewrite <- app_assoc.
Qed.

Lemma four_GiB_length : Z.of_nat (length four_GiB) = 2 ^ 32.
Proof.
  unfold four_GiB. rewrite repeat_length. apply Z2Nat.id. lia.
Qed.

(** ** The method wrappers, run on a live object *)


Lemma Load_3_run obj rawAssembly w o :
  objects w !! obj = Some o →
  (AppDomain.Load_3 obj rawAssembly w).1 =
  Done (if negb (next_errno w =? 0) && negb (next_errno w =? 1150)
        then Err (Errno (next_errno w))
        else if negb ((respond o "Load_3").1 =? S_OK) then
          Err (Errorf "the appdomain.Load_3 function returned a non-zero HRESULT: 0x%x"
                 (Hex (respond o "Load_3").1))
        else Ok (respond o "Load_3").2).
Proof.
  intros H. unfold AppDomain.Load_3. unfold_M. rewrite (vtbl_live _ _ _ _ H).
  erewrite SyscallN_method by (try exact H; reflexivity).
  destruct (_ && _); [reflexivity|]. destruct (negb _); reflexivity.
Qed.

Lemma Start_run obj w o :
  objects w !! obj = Some o →
  (ICORRuntimeHost.Start obj w).1 =
  Done (if negb ((respond o "Start").1 =? S_OK) then
          Some (Errorf
            "the ICORRuntimeHost::Start method method returned a non-zero HRESULT: 0x%x"
            (Hex (respond o "Start").1))
        else None).
Proof.
  intros H. unfold ICORRuntimeHost.Start. unfold_M. rewrite (vtbl_live _ _ _ _ H).
  erewrite SyscallN_method by (try exact H; reflexivity).
  destruct (negb (next_errno w =? 0)); destruct (negb (_ =? S_OK)); reflexivity.
Qed.

Lemma GetDefaultDomain_run obj w o :
  objects w !! obj = Some o →
  (ICORRuntimeHost.GetDefaultDomain obj w).1 =
  Done (if negb ((respond o "GetDefaultDomain").1 =? S_OK) then
          Err (Errorf
            "the ICORRuntimeHost::GetDefaultDomain method method returned a non-zero HRESULT: 0x%x"
            (Hex (respond o "GetDefaultDomain").1))
        else Ok (respond o "GetDefaultDomain").2).
Proof.
  intros H. unfold ICORRuntimeHost.GetDefaultDomain. unfold_M.
  rewrite (vtbl_live _ _ _ _ H).
  erewrite SyscallN_method by (try exact H; reflexivity).
  destruct (negb (next_errno w =? 0)); destruct (negb (_ =? S_OK)); reflexivity.
Qed.

Lemma IUnknown_AddRef_run obj w o :
  objects w !! obj = Some o → next_errno w = 0 →
  (IUnknown.AddRef obj w).1 =
  match load_le 4 (uint32 (refs o + 1)) (mem w) with
  | Some v => Done (Ok v)
  | None => Panic (bad_pointer (uint32 (refs o + 1)))
  end.
Proof.
  intros H He. unfold IUnknown.AddRef. unfold_M. rewrite (vtbl_live _ _ _ _ H).
  unfold SyscallN, native, native_method, load_uint32.
  cbn [callee args lookup list_lookup String.eqb Ascii.eqb Bool.eqb].
  destruct w as [m a os s k t e tr]. world_simpl. rewrite H, He.
  cbn [Z.eqb negb]. by destruct (load_le _ _ _).
Qed.

Lemma GetAssemblies_run obj w :
  AppDomain.GetAssemblies obj w =
  match objects w !! obj with
  | None => (Panic (bad_pointer obj), w)
  | Some o =>
      (Done
         (if negb (next_errno w =? 0) then
            Err (Errorf "the AppDomain.GetAssemblies method retured an error:\r\n%s"
                   (Msg (next_errno w)))
          else if negb ((respond o "GetAssemblies").1 =? S_OK) then
            Err (Errorf
                   "the AppDomain.GetAssemblies method returned a non-zero HRESULT: 0x%x"
                   (Hex (respond o "GetAssemblies").1))
          else Ok (respond o "GetAssemblies").2),
       after_call (Call (Slot obj "GetAssemblies") [Ptr obj; Out "safeArray"]) w)
  end.
Proof.
  unfold AppDomain.GetAssemblies, vtbl. unfold_M.
  destruct (objects w !! obj) as [o|] eqn:H; [|reflexivity].
  erewrite SyscallN_method by (try exact H; reflexivity).
  destruct (negb _); [reflexivity|]. destruct (negb _); reflexivity.
Qed.

Lemma GetFullName_run obj w :
  Assembly.GetFullName obj w =
  match objects w !! obj with
  | None => (Panic (bad_pointer obj), w)
  | Some o =>
      let w1 := after_call (name_call obj) w in
      if negb (next_errno w =? 0) then
        (Done (Err (Errorf "the Assembly::GetFullName method returned an error:\r\n%s"
                      (Msg (next_errno w)))), w1)
      else if negb ((respond o "get_FullName").1 =? S_OK) then
        (Done (Err (Errorf
                      "the Assembly::GetFullName method returned a non-zero HRESULT: 0x%x"
                      (Hex (respond o "get_FullName").1))), w1)
      else
        match bstrs w !! (respond o "get_FullName").2 with
        | Some s => (Done (Ok s), w1)
        | None => (Panic (bad_pointer (respond o "get_FullName").2), w1)
        end
  end.
Proof.
  unfold Assembly.GetFullName, vtbl, ReadUnicodeStr, name_call. unfold_M.
  destruct (objects w !! obj) as [o|] eqn:H; [|reflexivity].
  erewrite SyscallN_method by (try exact H; reflexivity). cbv zeta.
  destruct (negb _); [reflexivity|]. destruct (negb _); [reflexivity|].
  destruct w as [m ar os bs k t e tr]. unfold after_call. world_simpl.
  destruct (bs !! _); reflexivity.
Qed.

(** Reading a name adds at most the one call that reads it. *)
Lemma GetFullName_trace obj w :
  trace (Assembly.GetFullName obj w).2 = trace w
  ∨ trace (Assembly.GetFullName obj w).2 = trace w ++ [name_call obj].
Proof.
  rewrite GetFullName_run. destruct (objects w !! obj) as [o|]; [|by left].
  right. cbv zeta.
  destruct (negb _); [by destruct w|]. destruct (negb _); [by destruct w|].
  destruct (bstrs w !! _); by destruct w.
Qed.

(** ** The log of calls *)

Lemma grows_ret {A} (a : A) : grows (mret a).
Proof. intros w. exists []. by rewrite app_nil_r. Qed.

Lemma grows_panic {A} f : grows (@panic A f).
Proof. intros w. exists []. by rewrite app_nil_r. Qed.

Lemma grows_bind {A B} (m : M A) (k : A → M B) :
  grows m → (∀ a, grows (k a)) → grows (m ≫= k).
Proof.
  intros Hm Hk w. unfold mbind, M_bind.
  destruct (Hm w) as [more1 H1]. destruct (m w) as [[a|f] w1]; cbn [snd] in *.
  - destruct (Hk a w1) as [more2 H2]. exists (more1 ++ more2).
    by rewrite H2, H1, app_assoc.
  - by exists more1.
Qed.

Lemma grows_SyscallN fn a : grows (SyscallN fn a).
Proof. intros w. exists [Call fn a]. apply SyscallN_trace. Qed.

Lemma grows_vtbl obj slot : grows (vtbl obj slot).
Proof. intros w. exists []. unfold vtbl. rewrite app_nil_r. by case_match. Qed.

Lemma grows_ReadUnicodeStr p : grows (ReadUnicodeStr p).
Proof. intros w. exists []. unfold ReadUnicodeStr. rewrite app_nil_r. by case_match. Qed.

Lemma grows_load_uint32 p : grows (load_uint32 p).
Proof. intros w. exists []. unfold load_uint32. rewrite app_nil_r. by case_match. Qed.

Lemma grows_if {A} (b : bool) (m1 m2 : M A) :
  grows m1 → grows m2 → grows (if b then m1 else m2).
Proof. by destruct b. Qed.

Ltac grows :=
  repeat first
    [ apply grows_ret | apply grows_panic | apply grows_SyscallN
    | apply grows_vtbl | apply grows_ReadUnicodeStr | apply grows_load_uint32
    | apply grows_if
    | apply grows_bind; [|intros]
    | match goal with |- grows (let '(_, _) := ?x in _) => destruct x end
    | match goal with |- grows (match ?x with _ => _ end) => destruct x end ].

Lemma grows_IUnknown_QueryInterface obj riid ppv :
  grows (IUnknown.QueryInterface obj riid ppv).
Proof. unfold IUnknown.QueryInterface. grows. Qed.

Lemma leads_method_call {A} (m : M A) w c :
  leads m w c → is_method c = true →
  method_call (new_calls w (m w).2) = Some c.
Proof.
  intros (pre & more & Ht & Hpre) Hc. unfold new_calls, method_call.
  rewrite Ht, drop_app_length. clear Ht.
  induction pre as [|c' pre IH]; cbn [app List.find].
  - by rewrite Hc.
  - apply Forall_cons in Hpre as [-> Hpre]. by apply IH.
Qed.

Lemma leads_bind {A B} (m : M A) (k : A → M B) w c :
  leads m w c → (∀ a, grows (k a)) → leads (m ≫= k) w c.
Proof.
  intros (pre & more & Ht & Hpre) Hk. unfold leads, mbind, M_bind.
  destruct (m w) as [[a|f] w1]; cbn [snd] in *.
  - destruct (Hk a w1) as [more2 H2]. exists pre, (more ++ more2).
    split; [|done]. rewrite H2, Ht. by rewrite <- !app_assoc.
  - by exists pre, more.
Qed.

Lemma leads_after {A B} (m : M A) (k : A → M B) w a w1 c :
  m w = (Done a, w1) →
  (∃ pre, trace w1 = trace w ++ pre ∧ Forall (λ c', is_method c' = false) pre) →
  leads (k a) w1 c → leads (m ≫= k) w c.
Proof.
  intros Hm (pre1 & Ht1 & Hpre1) (pre & more & Ht & Hpre).
  unfold leads, mbind, M_bind. rewrite Hm.
  exists (pre1 ++ pre), more. split; [|by apply Forall_app].
  rewrite Ht, Ht1. by rewrite <- !app_assoc.
Qed.

Lemma leads_SyscallN fn a w : leads (SyscallN fn a) w (Call fn a).
Proof. exists [], []. split; [apply SyscallN_trace|done]. Qed.

(** A wrapper that reads its slot, calls it, and goes on without
    further native calls of its own. *)
Lemma leads_wrapper {A} obj slot a (k : Z * Z * Z → M A) w o :
  objects w !! obj = Some o →
  (∀ r, grows (k r)) →
  leads (fn ← vtbl obj slot; r ← SyscallN fn a; k r) w (Call (Slot obj slot) a).
Proof.
  intros H Hk. eapply leads_after; [by eapply vtbl_live| |].
  - exists []. by rewrite app_nil_r.
  - apply leads_bind; [apply leads_SyscallN|done].
Qed.

Lemma leads_void {A} (m : M A) w c : leads m w c → leads (void m) w c.
Proof. intros H. unfold void. apply leads_bind; [done|]. intros. apply grows_ret. Qed.

Ltac leads_simple H :=
  apply leads_void; eapply leads_wrapper; [exact H|];
  intros [[? ?] ?]; grows; try apply grows_IUnknown_QueryInterface.

Lemma SysAllocString_quiet str w :
  ∃ r w1, SysAllocString str w = (Done r, w1)
    ∧ objects w1 = objects w
    ∧ ∃ pre, trace w1 = trace w ++ pre ∧ Forall (λ c', is_method c' = false) pre.
Proof.
  unfold SysAllocString. unfold_M. unfold_call.
  unfold native_SysAllocString. destruct w; world_simpl.
  destruct (_ && _); destruct (negb _); eexists _, _; (split; [reflexivity|]);
    world_simpl; (split; [reflexivity|]); eexists [_]; (split; [reflexivity|]);
    by apply Forall_singleton.
Qed.

(** ** ListAssemblies and the scan of Load_2 *)

Section ListAssemblies_loop.

Variables (w0 : World) (sa ub : Z).
Hypothesis Hub : 0 ≤ ub < 2 ^ 32.
Hypothesis Hwrap :
  ub = 2 ^ 32 - 1 → ∀ a, native_SafeArrayGetElement sa 0 w0 ≠ Done (S_OK, a).

Let round := AppDomain.ListAssemblies_round sa ub.
Let reads (i a : Z) : Prop := native_SafeArrayGetElement sa i w0 = Done (S_OK, a).





End ListAssemblies_loop.



Section Load_2_range.

Variable ToLower : string → string.





(** A name that cannot be read is passed over. *)
Lemma Load_2_range_skips a rest search w e w1 :
  Assembly.GetFullName a w = (Done (Err e), w1) →
  AppDomain.Load_2_range ToLower (a :: rest) search w
  = AppDomain.Load_2_range ToLower rest search w1.
Proof.
  intros H. cbn [AppDomain.Load_2_range]. unfold mbind at 1, M_bind. by rewrite H.
Qed.

(** Each entry visited is read by one call; none is read twice. *)
Lemma Load_2_range_trace asmb search w :
  ∃ visited,
    trace (AppDomain.Load_2_range ToLower asmb search w).2
    = trace w ++ (name_call <$> visited)
    ∧ visited `sublist_of` asmb.
Proof.
  revert w. induction asmb as [|x rest IH]; intros w; cbn [AppDomain.Load_2_range].
  - exists []. by rewrite app_nil_r.
  - unfold mbind at 1, M_bind.
    assert (Hstop : ∀ (o : outcome (Res Z)) w1,
              trace w1 = trace w ∨ trace w1 = trace w ++ [name_call x] →
              ∃ visited,
                trace (o, w1).2 = trace w ++ (name_call <$> visited)
                ∧ visited `sublist_of` x :: rest).
    { intros o w1 [Ht|Ht]; cbn [snd]; rewrite Ht.
      - exists []. split; [by rewrite app_nil_r|apply sublist_nil_l].
      - exists [x]. split; [done|]. apply sublist_skip, sublist_nil_l. }
    assert (Hgo : ∀ w1,
              trace w1 = trace w ∨ trace w1 = trace w ++ [name_call x] →
              ∃ visited,
                trace (AppDomain.Load_2_range ToLower rest search w1).2
                = trace w ++ (name_call <$> visited)
                ∧ visited `sublist_of` x :: rest).
    { intros w1 Ht. destruct (IH w1) as (visited & Hd & Hsub). rewrite Hd.
      destruct Ht as [-> | ->].
      - exists visited. split; [done|by apply sublist_cons].
      - exists (x :: visited). split; [by rewrite <- app_assoc|by apply sublist_skip]. }
    pose proof (GetFullName_trace x w) as Ht.
    destruct (Assembly.GetFullName x w) as [[[name|e']|f] w1] eqn:Hg; cbn [snd] in Ht.
    + destruct (AppDomain.HasPrefix _ _); [by apply Hstop|by apply Hgo].
    + by apply Hgo.
    + by apply Hstop.
Qed.

End Load_2_range.

Lemma Load_2_unfold ToLower obj search w :
  AppDomain.Load_2 ToLower obj search w =
  match AppDomain.ListAssemblies obj w with
  | (Done (Ok asmb), w1) => AppDomain.Load_2_range ToLower asmb search w1
  | (Done (Err e), w1) => (Done (Err e), w1)
  | (Panic f, w1) => (Panic f, w1)
  end.
Proof.
  unfold AppDomain.Load_2, try_bind. unfold_M.
  by destruct (AppDomain.ListAssemblies obj w) as [[[asmb|e]|f] w1].
Qed.


(** * The claims *)

(** ** Byte arrays *)

(** C1, amended.  For every non-empty byte sequence [B] of fewer than
    2^32 bytes, in a world whose heap has room and whose next two calls
    leave no dispatch code, [CreateSafeArray B] returns a one-dimensional
    descriptor of single bytes with element count [len B] and lower bound
    0; it makes exactly one copying call, of [B] whole to the data
    pointer; the elements sit at consecutive addresses, and reading the
    elements from the lower bound 0 to the upper bound [len B - 1] gives
    [B] back, in order. *)
Theorem CreateSafeArray_copies_bytes (B : list Byte.byte) (w : World) :
  let len := Z.of_nat (length B) in
  B ≠ [] → len < 2 ^ 32 →
  calm 2 w → 0 < brk w → brk w + SAFEARRAY_SIZE + len ≤ top w →
  ∃ psa w' sa,
    CreateSafeArray B w = (Done (Ok psa), w')
    ∧ arrays w' !! psa = Some sa
    ∧ cDims sa = 1 ∧ cbElements sa = 1
    ∧ rgsabound sa = [mkBound len 0]
    ∧ List.filter is_copy (new_calls w w') = [copy_call (pvData sa) B]
    ∧ native_SafeArrayGetLBound psa 1 w' = (S_OK, 0)
    ∧ native_SafeArrayGetUBound psa 1 w' = (S_OK, len - 1)
    ∧ (∀ i, 0 ≤ i < len → element_addr sa i = Some (pvData sa + i))
    ∧ (λ i, element_addr sa i ≫= (mem w' !!.)) <$> seqZ 0 len = Some <$> B.
Proof.
  intros len HB Hlen Hcalm Hbrk Htop.
  assert (Hn : uint32 len = len) by (apply uint32_small; lia).
  destruct (CreateSafeArray_run B w) as (w' & Hrun & Ha & Hm & Ht); try done.
  { fold len. by rewrite Hn. }
  fold len in Ha, Hm, Ht. rewrite Hn in Ha, Ht, Hm.
  rewrite uintptr_small in Hm by lia.
  unfold len in Hm at 1. rewrite Nat2Z.id, firstn_all in Hm.
  set (pv := brk w + SAFEARRAY_SIZE) in *.
  set (sa := mkSafeArray 1 FADF_HAVEVARTYPE 1 0 pv [mkBound len 0]) in *.
  assert (Hl : arrays w' !! brk w = Some sa) by (rewrite Ha; apply lookup_insert_eq).
  exists (brk w), w', sa. split; [done|]. split; [done|].
  split; [done|]. split; [done|]. split; [done|].
  split.
  { unfold new_calls. rewrite Ht, drop_app_length. reflexivity. }
  split.
  { unfold native_SafeArrayGetLBound. rewrite Hl. reflexivity. }
  split.
  { unfold native_SafeArrayGetUBound. rewrite Hl. cbn.
    f_equal. apply uint32_small. destruct B; [done|]. subst len. cbn [length] in *. lia. }
  assert (Haddr : ∀ i, 0 ≤ i < len → element_addr sa i = Some (pv + i)).
  { intros i Hi. unfold element_addr. cbn [sa rgsabound lLbound cElements pvData cbElements].
    assert (Hc : (0 <=? i) && (i <=? 0 + len - 1) = true).
    { apply andb_true_intro; split; lia. }
    rewrite Hc. f_equal. lia. }
  split; [exact Haddr|].
  apply list_eq. intros j. rewrite !list_lookup_fmap.
  destruct (decide (Z.of_nat j < len)) as [Hj|Hj].
  - rewrite lookup_seqZ_lt by done. cbn [fmap option_fmap option_map].
    rewrite Z.add_0_l, Haddr by lia. cbn [mbind option_bind].
    destruct (B !! j) as [b|] eqn:Hb.
    + rewrite Hm. cbn. f_equal. by apply store_bytes_lookup.
    + apply lookup_ge_None in Hb. lia.
  - rewrite lookup_seqZ_ge by lia. rewrite (proj2 (lookup_ge_None B j)); [done|lia].
Qed.

Lemma CreateSafeArray_copies_bytes_witness :
  ∃ psa w' sa,
    CreateSafeArray MZ w_heap = (Done (Ok psa), w')
    ∧ arrays w' !! psa = Some sa
    ∧ cDims sa = 1 ∧ cbElements sa = 1
    ∧ rgsabound sa = [mkBound 4 0]
    ∧ List.filter is_copy (new_calls w_heap w') = [copy_call (pvData sa) MZ]
    ∧ native_SafeArrayGetLBound psa 1 w' = (S_OK, 0)
    ∧ native_SafeArrayGetUBound psa 1 w' = (S_OK, 4 - 1)
    ∧ (∀ i, 0 ≤ i < 4 → element_addr sa i = Some (pvData sa + i))
    ∧ (λ i, element_addr sa i ≫= (mem w' !!.)) <$> seqZ 0 4 = Some <$> MZ.
Proof.
  apply (CreateSafeArray_copies_bytes MZ w_heap).
  - discriminate.
  - reflexivity.
  - apply Forall_nil_2.
  - reflexivity.
  - vm_compute. discriminate.
Defined.

(** C1 as stated fails on a sequence of 2^32 bytes, whatever room the
    heap has: the element count of the descriptor is [uint32 (len B)],
    here 0, not [len B]. *)
Lemma CreateSafeArray_truncates_length :
  four_GiB ≠ []
  ∧ Z.of_nat (length four_GiB) = 2 ^ 32
  ∧ ∃ psa w' sa,
      CreateSafeArray four_GiB w_vast = (Done (Ok psa), w')
      ∧ arrays w' !! psa = Some sa
      ∧ rgsabound sa = [mkBound 0 0].
Proof.
  assert (Hne : four_GiB ≠ []).
  { intros H. pose proof four_GiB_length as Hl. rewrite H in Hl. discriminate Hl. }
  split; [exact Hne|]. split; [exact four_GiB_length|].
  assert (Hn : uint32 (Z.of_nat (length four_GiB)) = 0).
  { rewrite four_GiB_length. reflexivity. }
  destruct (CreateSafeArray_run four_GiB w_vast) as (w' & Hrun & Ha & _ & _).
  - exact Hne.
  - apply Forall_nil_2.
  - reflexivity.
  - rewrite Hn. vm_compute. discriminate.
  - rewrite Hn in Ha. eexists _, w', _. split; [exact Hrun|].
    split; [rewrite Ha; apply lookup_insert_eq|]. reflexivity.
Qed.



(** C8, amended.  On the empty slice [CreateSafeArray] never returns a
    descriptor.  When the creation of the array succeeds it faults with
    an index out of range at [&rawBytes[0]]; when the creation fails it
    returns that failure, and the slice is not touched.  On a non-empty
    slice the access to element 0 never faults. *)
Theorem CreateSafeArray_empty_slice (w : World) :
  (∀ psa w', CreateSafeArray [] w ≠ (Done (Ok psa), w'))
  ∧ (∀ psa w1,
       SafeArrayCreate VT_UI1 1 (mkBound 0 0) w = (Done (Ok psa), w1) →
       CreateSafeArray [] w = (Panic IndexOutOfRange, w1))
  ∧ (∀ e w1,
       SafeArrayCreate VT_UI1 1 (mkBound 0 0) w = (Done (Err e), w1) →
       CreateSafeArray [] w = (Done (Err e), w1))
  ∧ (∀ B, B ≠ [] → (CreateSafeArray B w).1 ≠ Panic IndexOutOfRange).
Proof.
  assert (Hcases : ∀ B, CreateSafeArray B w =
    match SafeArrayCreate VT_UI1 1
            (mkBound (uint32 (Z.of_nat (length B))) (int32 0)) w with
    | (Done (Ok psa), w1) =>
        match arrays w1 !! psa with
        | Some sa =>
            match B with
            | [] => (Panic IndexOutOfRange, w1)
            | _ :: _ =>
                let r := SyscallN (Proc "ntdll.dll" "RtlCopyMemory")
                           [Ptr (pvData sa); Bytes B;
                            Imm (uintptr (Z.of_nat (length B)))] w1 in
                match r with
                | (Done (_, _, err), w2) =>
                    (Done (if negb (err =? 0) then Err (Errno err) else Ok psa), w2)
                | (Panic f, w2) => (Panic f, w2)
                end
            end
        | None => (Panic (bad_pointer psa), w1)
        end
    | (Done (Err e), w1) => (Done (Err e), w1)
    | (Panic f, w1) => (Panic f, w1)
    end).
  { intros B. unfold CreateSafeArray. unfold_M.
    destruct (SafeArrayCreate _ _ _ w) as [[[psa|e]|f] w1]; try reflexivity.
    unfold deref_array, addr_elem0.
    destruct (arrays w1 !! psa) as [sa|]; [|reflexivity].
    destruct B; [reflexivity|]. cbv zeta.
    destruct (SyscallN _ _ w1) as [[[[r1 out] err]|f] w2]; [|reflexivity].
    destruct (negb _); reflexivity. }
  change (mkBound 0 0) with (mkBound (uint32 (Z.of_nat (length (@nil Byte.byte)))) (int32 0)).
  repeat split.
  - intros psa w'. rewrite Hcases.
    destruct (SafeArrayCreate _ _ _ w) as [[[psa'|e]|f] w1]; try discriminate.
    destruct (arrays w1 !! psa'); discriminate.
  - intros psa w1 H. rewrite Hcases, H.
    destruct (SafeArrayCreate_Ok_array _ _ _ _ _ _ H) as [sa ->]. reflexivity.
  - intros e w1 H. by rewrite Hcases, H.
  - intros B HB. rewrite Hcases.
    destruct (SafeArrayCreate _ _ _ w) as [[[psa|e]|f] w1] eqn:Hc; try discriminate.
    + destruct (arrays w1 !! psa) as [sa|].
      * destruct B; [done|]. cbv zeta.
        unfold SyscallN. unfold_call.
        destruct (negb _); discriminate.
      * unfold bad_pointer. destruct (psa =? 0); discriminate.
    + by apply SafeArrayCreate_no_panic in Hc.
Qed.

Lemma CreateSafeArray_empty_slice_witness :
  CreateSafeArray [] w_heap
  = (Panic IndexOutOfRange, (SafeArrayCreate VT_UI1 1 (mkBound 0 0) w_heap).2).
Proof.
  apply (proj1 (proj2 (CreateSafeArray_empty_slice w_heap)) 0x1000). reflexivity.
Defined.

(** C8 as stated fails when the dispatch layer reports a code after the
    creation call: the empty slice then yields an error, not a fault. *)
Lemma CreateSafeArray_empty_slice_returns_error :
  (CreateSafeArray [] (set_errnos [8] w_heap)).1 = Done (Err (Errno 8)).
Proof. reflexivity. Qed.

(** C9.  Whatever the array, [SafeArrayLock] makes one native call, to
    the export named SafeArrayCreate of OleAut32; it makes no call to the
    export named SafeArrayLock, and leaves every descriptor, lock counts
    included, as it was, whereas the locking primitive adds one lock. *)
Theorem SafeArrayLock_calls_SafeArrayCreate (psa : Z) (w : World) :
  let w' := (SafeArrayLock psa w).2 in
  new_calls w w' = [Call (Proc "OleAut32.dll" "SafeArrayCreate") [Ptr psa]]
  ∧ Forall (λ c, callee c ≠ Proc "OleAut32.dll" "SafeArrayLock") (new_calls w w')
  ∧ arrays w' = arrays w
  ∧ cLocks <$> arrays (native_SafeArrayLock psa w).2 !! psa
    = (λ sa, cLocks sa + 1) <$> arrays w !! psa.
Proof.
  assert (Hrun : ∃ r, SafeArrayLock psa w =
            (Done r, set_errnos (tl (errnos w))
               (set_trace
                  (trace w ++ [Call (Proc "OleAut32.dll" "SafeArrayCreate") [Ptr psa]])
                  w))).
  { unfold SafeArrayLock. unfold_M. unfold_call.
    unfold native_SafeArrayCreate. destruct (elem_size _); cbv zeta.
    - destruct (negb _); [by eexists|]. destruct (negb _); by eexists.
    - destruct (negb _); [by eexists|]. destruct (negb _); by eexists. }
  destruct Hrun as [r Hrun]. rewrite Hrun. cbv zeta. cbn [snd].
  assert (Hnew : new_calls w
            (set_errnos (tl (errnos w))
               (set_trace
                  (trace w ++ [Call (Proc "OleAut32.dll" "SafeArrayCreate") [Ptr psa]]) w))
          = [Call (Proc "OleAut32.dll" "SafeArrayCreate") [Ptr psa]]).
  { unfold new_calls. destruct w. world_simpl. apply drop_app_length. }
  rewrite Hnew. split; [done|]. split.
  { apply Forall_singleton. cbn. discriminate. }
  split.
  { by destruct w. }
  unfold native_SafeArrayLock. destruct (arrays w !! psa) as [sa|] eqn:Hsa.
  - destruct w. world_simpl. rewrite lookup_insert_eq. reflexivity.
  - cbn [snd]. by rewrite Hsa.
Qed.

(** ** Reference counts *)

(** C2.  On an object whose count is 1, [IUnknown.AddRef] does not
    return the new count 2: it reads a [uint32] at address 2 and faults,
    after the native count went to 2; [IUnknown.Release] likewise reads
    at address 0.  The AppDomain wrappers return the counts themselves,
    and [AddRef] then [Release] through them leaves the count at 1. *)
Theorem IUnknown_AddRef_reads_through_count :
  refs <$> objects w_domain !! 0x2000 = Some 1
  ∧ (IUnknown.AddRef 0x2000 w_domain).1 = Panic (AccessViolation 2)
  ∧ refs <$> objects (IUnknown.AddRef 0x2000 w_domain).2 !! 0x2000 = Some 2
  ∧ (IUnknown.Release 0x2000 w_domain).1 = Panic NilDereference
  ∧ (AppDomain.AddRef 0x2000 w_domain).1 = Done 2
  ∧ (AppDomain.Release 0x2000 (AppDomain.AddRef 0x2000 w_domain).2).1 = Done 1
  ∧ refs <$> objects (AppDomain.Release 0x2000 (AppDomain.AddRef 0x2000 w_domain).2).2
             !! 0x2000 = Some 1.
Proof. repeat split; vm_compute; reflexivity. Qed.

(** ** Dispatch codes *)

(** C3, amended.  After a call that reports status 0, [Load_3] (in both
    revisions) ignores dispatch code 1150 only and returns every other
    non-zero dispatch code to its caller; [Start] and [GetDefaultDomain]
    return success whatever the dispatch code is. *)
Theorem dispatch_codes_after_success (w : World) (obj : Z) (o : Object) :
  objects w !! obj = Some o →
  let e := next_errno w in
  (∀ rawAssembly,
     (e ≠ 0 → e ≠ 1150 →
      (AppDomain.Load_3 obj rawAssembly w).1 = Done (Err (Errno e)))
     ∧ (e = 0 ∨ e = 1150 → (respond o "Load_3").1 = S_OK →
        (AppDomain.Load_3 obj rawAssembly w).1 = Done (Ok (respond o "Load_3").2))
     ∧ (AppDomain_Syscall.Load_3 obj rawAssembly w).1
       = (AppDomain.Load_3 obj rawAssembly w).1)
  ∧ ((respond o "Start").1 = S_OK →
     (ICORRuntimeHost.Start obj w).1 = Done None)
  ∧ ((respond o "GetDefaultDomain").1 = S_OK →
     (ICORRuntimeHost.GetDefaultDomain obj w).1
     = Done (Ok (respond o "GetDefaultDomain").2)).
Proof.
  intros H e. split; [|split].
  - intros sa. split; [|split]; [| |reflexivity];
      rewrite (Load_3_run _ _ _ _ H); fold e.
    + intros H0 H1. apply Z.eqb_neq in H0, H1. by rewrite H0, H1.
    + intros He Hhr. rewrite Hhr.
      destruct He as [-> | ->]; reflexivity.
  - intros Hhr. by rewrite (Start_run _ _ _ H), Hhr.
  - intros Hhr. by rewrite (GetDefaultDomain_run _ _ _ H), Hhr.
Qed.

Lemma dispatch_codes_after_success_witness :
  (ICORRuntimeHost.Start 0x6000 w_noisy).1 = Done None.
Proof.
  apply (proj1 (proj2 (dispatch_codes_after_success w_noisy 0x6000 (plain_object 0x2000)
                         eq_refl))).
  reflexivity.
Defined.

(** C3 as stated fails for [Start]: dispatch code 5, which [Load_3]
    hands back, is ignored by [Start] when the status is 0. *)
Lemma Start_ignores_any_dispatch_code :
  next_errno w_noisy = 5
  ∧ (ICORRuntimeHost.Start 0x6000 w_noisy).1 = Done None
  ∧ (AppDomain.Load_3 0x2000 0x3000 w_noisy).1 = Done (Err (Errno 5)).
Proof. split; [|split]; vm_compute; reflexivity. Qed.

(** ** The assembly enumerator *)



(** C6, amended.  In the scan of [Load_2] an entry whose name cannot be
    read is passed over, and the scan goes on with the next entry; a
    failure of the listing is returned as it is.  In the earlier
    [ListAssemblies] the first failure to read a name ends the loop and
    is returned as it is.  Such a failure carries the dispatch code or
    the status of the native call.  Each entry visited is read by one
    native call, in the order of the list: nothing is tried again. *)
Theorem name_read_failures (ToLower : string → string) :
  (∀ a rest search w e w1,
     Assembly.GetFullName a w = (Done (Err e), w1) →
     AppDomain.Load_2_range ToLower (a :: rest) search w
     = AppDomain.Load_2_range ToLower rest search w1)
  ∧ (∀ obj search w e w1,
       AppDomain.ListAssemblies obj w = (Done (Err e), w1) →
       AppDomain.Load_2 ToLower obj search w = (Done (Err e), w1))
  ∧ (∀ sa ub i acc w app w1 e w2,
       i ≤ ub →
       SafeArrayGetElement sa i w = (Done (Ok app), w1) →
       Assembly.GetFullName app w1 = (Done (Err e), w2) →
       for_loop (AppDomain_Syscall.ListAssemblies_round sa ub) (i, acc) w
       = (Done (Err e), w2))
  ∧ (∀ a w e w1,
       Assembly.GetFullName a w = (Done (Err e), w1) →
       ∃ o, objects w !! a = Some o
         ∧ (next_errno w ≠ 0
            ∧ e = Errorf "the Assembly::GetFullName method returned an error:\r\n%s"
                    (Msg (next_errno w))
            ∨ (respond o "get_FullName").1 ≠ S_OK
              ∧ e = Errorf
                      "the Assembly::GetFullName method returned a non-zero HRESULT: 0x%x"
                      (Hex (respond o "get_FullName").1)))
  ∧ (∀ asmb search w,
       ∃ visited,
         new_calls w (AppDomain.Load_2_range ToLower asmb search w).2
         = name_call <$> visited
         ∧ visited `sublist_of` asmb).
Proof.
  split; [intros; by eapply Load_2_range_skips|].
  split; [intros obj search w e w1 H; by rewrite Load_2_unfold, H|].
  split.
  { intros sa ub i acc w app w1 e w2 Hi Hg Hn. apply for_loop_Break_now.
    unfold AppDomain_Syscall.ListAssemblies_round. unfold_M.
    assert (Hle : (i <=? ub) = true) by lia. by rewrite Hle, Hg, Hn. }
  split.
  { intros a w e w1. rewrite GetFullName_run.
    destruct (objects w !! a) as [o|]; [|discriminate]. cbv zeta.
    destruct (negb (next_errno w =? 0)) eqn:He.
    { intros H. simplify_eq. exists o. split; [done|]. left.
      apply negb_true_iff, Z.eqb_neq in He. done. }
    destruct (negb (_ =? S_OK)) eqn:Hhr.
    { intros H. simplify_eq. exists o. split; [done|]. right.
      apply negb_true_iff, Z.eqb_neq in Hhr. done. }
    destruct (bstrs w !! _); discriminate. }
  intros asmb search w.
  destruct (Load_2_range_trace ToLower asmb search w) as (visited & Ht & Hsub).
  exists visited. split; [|done]. unfold new_calls. by rewrite Ht, drop_app_length.
Qed.

Lemma name_read_failures_witness :
  AppDomain.Load_2_range ToLowerASCII [0x4000; 0x5000] "mscorlib" w_unreadable
  = AppDomain.Load_2_range ToLowerASCII [0x5000] "mscorlib"
      (Assembly.GetFullName 0x4000 w_unreadable).2.
Proof.
  apply (proj1 (name_read_failures ToLowerASCII) 0x4000 [0x5000] "mscorlib" w_unreadable
           (Errorf "the Assembly::GetFullName method returned a non-zero HRESULT: 0x%x"
              (Hex COR_E_FILELOAD))).
  vm_compute. reflexivity.
Defined.

(** C6 as stated fails for [Load_2]: the status with which the name of
    the first entry could not be read reaches no caller. *)
Lemma Load_2_drops_name_failure :
  (Assembly.GetFullName 0x4000 w_unreadable).1
  = Done (Err (Errorf
                "the Assembly::GetFullName method returned a non-zero HRESULT: 0x%x"
                (Hex COR_E_FILELOAD)))
  ∧ (AppDomain.Load_2 ToLowerASCII 0x2000 "mscorlib" w_unreadable).1
    = Done (Err (Errorf "could not find assembly with name %s" (Str "mscorlib")))
  ∧ (AppDomain.Load_2 ToLowerASCII 0x2000 "testdll" w_unreadable).1 = Done (Ok 0x5000).
Proof. repeat split; vm_compute; reflexivity. Qed.

(** ** Stages *)



(** ** First arguments *)

(** C10.  Run on a live object, every COM method wrapper of the package
    makes its call through the method table with the address of the
    object as first argument, except [EnumDomains], whose call has the
    address of the output handle as its only argument. *)
Theorem wrappers_pass_the_object (wr : wrapper) (obj : Z) (o : Object) (w : World) :
  objects w !! obj = Some o →
  let calls := new_calls w (run wr obj w).2 in
  match wr with
  | ICORRuntimeHost_EnumDomains =>
      method_call calls = Some (Call (Slot obj "EnumDomains") [Out "hEnum"])
  | _ =>
      ∃ slot rest,
        method_call calls = Some (Call (Slot obj slot) (Ptr obj :: rest))
  end.
Proof.
  intros H. cbv zeta.
  destruct wr; try destruct syscallN; cbn [run].
  all: try (eexists _, _; apply leads_method_call; [|reflexivity];
            leads_simple H; fail).
  all: try (apply leads_method_call; [|reflexivity]; leads_simple H; fail).
  destruct (SysAllocString_quiet assemblyString w) as (r & w1 & Hs & Ho & Hpre).
  eexists _, _. apply leads_method_call; [|reflexivity].
  apply leads_void. unfold AppDomain_Syscall.Load_2.
  eapply leads_after; [exact Hs|exact Hpre|]. cbv zeta.
  eapply leads_wrapper; [rewrite Ho; exact H|].
  intros [[? ?] ?]; grows.
Qed.

Lemma wrappers_pass_the_object_witness :
  ∃ slot rest,
    method_call (new_calls w_domain (run ICORRuntimeHost_Start 0x6000 w_domain).2)
    = Some (Call (Slot 0x6000 slot) (Ptr 0x6000 :: rest)).
Proof.
  apply (wrappers_pass_the_object ICORRuntimeHost_Start 0x6000 (plain_object 0x2000) w_domain).
  reflexivity.
Defined.

(** * Further properties of the code *)

(** ** More on the array functions *)

Lemma int32_small z : 0 ≤ z < 2 ^ 31 → int32 z = z.
Proof. intros H. unfold int32. rewrite Z.mod_small by lia. lia. Qed.

Lemma int32_outside z n :
  0 ≤ n ≤ 2 ^ 31 → n ≤ z < 2 ^ 32 → ¬ (0 ≤ int32 z ≤ n - 1).
Proof.
  intros Hn Hz. unfold int32.
  destruct (decide (z < 2 ^ 31)).
  - rewrite Z.mod_small by lia. lia.
  - replace (z + 2 ^ 31) with (z - 2 ^ 31 + 1 * 2 ^ 32) by lia.
    rewrite Z.mod_add by lia. rewrite Z.mod_small by lia. lia.
Qed.

Lemma SafeArrayGetElement_run psa i w :
  SafeArrayGetElement psa i w =
  match native_SafeArrayGetElement psa i w with
  | Done (hr, v) =>
      (Done (if negb (next_errno w =? 0) then
               Err (Errorf
                 "the oleaut32!SafeArrayGetElement function call returned an error:\n%s"
                 (Msg (next_errno w)))
             else if negb (hr =? S_OK) then
               Err (Errorf
                 "the oleaut32!SafeArrayGetElement function returned a non-zero HRESULT: 0x%x"
                 (Hex hr))
             else Ok v),
       after_call (element_call psa i) w)
  | Panic f => (Panic f, set_trace (trace w ++ [element_call psa i]) w)
  end.
Proof.
  unfold SafeArrayGetElement, after_call, element_call. unfold_M. unfold_call.
  destruct w as [m ar os s k t e tr]. world_simpl.
  change (native_SafeArrayGetElement psa i
            (mkWorld m ar os s k t e
               (tr ++ [Call (Proc "OleAut32.dll" "SafeArrayGetElement")
                         [Ptr psa; In32 i; Out "ret"]])))
    with (native_SafeArrayGetElement psa i (mkWorld m ar os s k t e tr)).
  destruct (native_SafeArrayGetElement _ _ _) as [[hr v]|f]; [|reflexivity].
  destruct (negb _); [reflexivity|]. destruct (negb _); reflexivity.
Qed.

(** The run of [CreateSafeArray] when neither call leaves a code. *)
Lemma CreateSafeArray_world (B : list Byte.byte) (w : World) :
  let n := uint32 (Z.of_nat (length B)) in
  let pv := brk w + SAFEARRAY_SIZE in
  B ≠ [] → calm 2 w → 0 < brk w → pv + n ≤ top w →
  ∃ w',
    CreateSafeArray B w = (Done (Ok (brk w)), w')
    ∧ arrays w' = <[brk w := mkSafeArray 1 FADF_HAVEVARTYPE 1 0 pv [mkBound n 0]]> (arrays w)
    ∧ mem w' = store_bytes pv (take (Z.to_nat (uintptr (Z.of_nat (length B)))) B)
                 (store_bytes pv (replicate (Z.to_nat n) Byte.x00) (mem w))
    ∧ errnos w' = tl (tl (errnos w)).
Proof.
  intros n pv HB Hcalm Hbrk Htop.
  apply calm_S in Hcalm as [He1 Hcalm].
  specialize (Hcalm (set_errnos (tl (errnos w)) w) eq_refl).
  apply (calm_S 0) in Hcalm as [He2 _].
  unfold CreateSafeArray. unfold_M. rewrite SafeArrayCreate_run. cbv zeta.
  rewrite int32_0. fold n.
  change (uintptr VT_UI1) with 17. change (uint16 17) with 17. change (uintptr 1) with 1.
  unfold native_SafeArrayCreate. change (elem_size 17) with (Some 1).
  change (features 17) with FADF_HAVEVARTYPE.
  cbn [cElements lLbound]. rewrite Z.mul_1_l. subst pv.
  destruct w as [m a o s k t e tr]. world_simpl.
  assert (Hc : (1 =? 1) && (0 <? k) && (k + SAFEARRAY_SIZE + n <=? t) = true).
  { apply andb_true_intro; split; [apply andb_true_intro; split|]; [done| |]; lia. }
  rewrite Hc. world_simpl.
  rewrite He1. cbn [Z.eqb negb].
  assert (Hz : (k =? 0) = false) by lia. rewrite Hz.
  unfold deref_array, addr_elem0. world_simpl.
  rewrite lookup_insert_eq.
  destruct B as [|b B']; [done|].
  unfold_call. cbn [pvData]. world_simpl.
  rewrite He2. cbn [Z.eqb negb].
  eexists. split; [reflexivity|].
  unfold native_RtlCopyMemory. world_simpl. done.
Qed.

(** X1.  What [CreateSafeArray] stores, [SafeArrayGetElement] reads
    back.  For a non-empty [B] of at most 2^31 bytes, in a world whose
    heap has room and whose next three calls leave no dispatch code,
    [SafeArrayGetElement] on the descriptor [CreateSafeArray B] returns
    gives, at each index [i] below [len B], the byte [B[i]], and at every
    other index the bad-index failure. *)
Theorem CreateSafeArray_then_SafeArrayGetElement (B : list Byte.byte) (w : World) :
  let len := Z.of_nat (length B) in
  B ≠ [] → len ≤ 2 ^ 31 →
  calm 3 w → 0 < brk w → brk w + SAFEARRAY_SIZE + len ≤ top w →
  ∃ psa w',
    CreateSafeArray B w = (Done (Ok psa), w')
    ∧ (∀ (i : nat) b, B !! i = Some b →
         (SafeArrayGetElement psa (Z.of_nat i) w').1 = Done (Ok (byte_val b)))
    ∧ (∀ i, len ≤ i < 2 ^ 32 →
         (SafeArrayGetElement psa i w').1 = Done (Err bad_index)).
Proof.
  intros len HB Hlen Hcalm Hbrk Htop.
  assert (Hn : uint32 len = len) by (apply uint32_small; lia).
  assert (Hcalm2 : calm 2 w).
  { unfold calm in *. destruct (errnos w) as [|e1 [|e2 [|e3 es]]]; cbn [take] in *; try done.
    apply Forall_cons in Hcalm as [? Hcalm]. apply Forall_cons in Hcalm as [? Hcalm].
    by repeat constructor. }
  assert (He3 : hd 0 (tl (tl (errnos w))) = 0).
  { unfold calm in Hcalm. destruct (errnos w) as [|e1 [|e2 [|e3 es]]]; cbn in *; try done.
    apply Forall_cons in Hcalm as [? Hcalm]. apply Forall_cons in Hcalm as [? Hcalm].
    by apply Forall_cons in Hcalm as [? _]. }
  destruct (CreateSafeArray_world B w) as (w' & Hrun & Ha & Hm & He); try done.
  { fold len. by rewrite Hn. }
  fold len in Ha, Hm. rewrite Hn in Ha, Hm.
  rewrite uintptr_small in Hm by lia.
  unfold len in Hm at 1. rewrite Nat2Z.id, firstn_all in Hm.
  set (pv := brk w + SAFEARRAY_SIZE) in *.
  set (sa := mkSafeArray 1 FADF_HAVEVARTYPE 1 0 pv [mkBound len 0]) in *.
  assert (Hl : arrays w' !! brk w = Some sa) by (rewrite Ha; apply lookup_insert_eq).
  assert (He' : next_errno w' = 0) by (unfold next_errno; by rewrite He).
  exists (brk w), w'. split; [done|]. split.
  - intros i b Hb. rewrite SafeArrayGetElement_run.
    unfold native_SafeArrayGetElement. rewrite Hl.
    assert (Hi : Z.of_nat i < len) by (apply lookup_lt_Some in Hb; lia).
    rewrite int32_small by lia.
    unfold element_addr. cbn [sa rgsabound lLbound cElements pvData cbElements].
    assert (Hc : (0 <=? Z.of_nat i) && (Z.of_nat i <=? 0 + len - 1) = true).
    { apply andb_true_intro; split; lia. }
    rewrite Hc. change (Z.to_nat 1) with 1%nat. cbn [load_le].
    replace (pv + (Z.of_nat i - 0) * 1) with (pv + Z.of_nat i) by lia.
    rewrite Hm, (store_bytes_lookup _ _ _ _ _ Hb).
    cbn [mbind option_bind fst]. rewrite He'. cbn [Z.eqb negb S_OK].
    do 2 f_equal. lia.
  - intros i Hi. rewrite SafeArrayGetElement_run.
    unfold native_SafeArrayGetElement. rewrite Hl.
    unfold element_addr. cbn [sa rgsabound lLbound cElements pvData cbElements].
    assert (Hc : (0 <=? int32 i) && (int32 i <=? 0 + len - 1) = false).
    { assert (Hl0 : 0 ≤ len ≤ 2 ^ 31) by lia.
      pose proof (int32_outside i len Hl0 Hi). apply andb_false_iff. lia. }
    rewrite Hc. cbn [fst]. rewrite He'. reflexivity.
Qed.

Lemma CreateSafeArray_then_SafeArrayGetElement_witness :
  ∃ psa w',
    CreateSafeArray MZ w_heap = (Done (Ok psa), w')
    ∧ (∀ (i : nat) b, MZ !! i = Some b →
         (SafeArrayGetElement psa (Z.of_nat i) w').1 = Done (Ok (byte_val b)))
    ∧ (∀ i, 4 ≤ i < 2 ^ 32 →
         (SafeArrayGetElement psa i w').1 = Done (Err bad_index)).
Proof.
  apply (CreateSafeArray_then_SafeArrayGetElement MZ w_heap).
  - discriminate.
  - vm_compute. discriminate.
  - apply Forall_nil_2.
  - reflexivity.
  - vm_compute. discriminate.
Defined.

(** X2.  A dispatch code left behind either native call makes
    [CreateSafeArray] fail with that code, although the native side did
    its work: the array created stays allocated, and no further call is
    made that would destroy it. *)
Theorem CreateSafeArray_dispatch_code_leaves_array
    (B : list Byte.byte) (w : World) (e : Z) :
  let n := uint32 (Z.of_nat (length B)) in
  let pv := brk w + SAFEARRAY_SIZE in
  let sa := mkSafeArray 1 FADF_HAVEVARTYPE 1 0 pv [mkBound n 0] in
  B ≠ [] → e ≠ 0 → 0 < brk w → pv + n ≤ top w →
  (next_errno w = e →
     ∃ w', CreateSafeArray B w = (Done (Err (Errno e)), w')
       ∧ arrays w' = <[brk w := sa]> (arrays w)
       ∧ new_calls w w' = [create_call n])
  ∧ (∀ rest, errnos w = 0 :: e :: rest →
     ∃ w', CreateSafeArray B w = (Done (Err (Errno e)), w')
       ∧ arrays w' = <[brk w := sa]> (arrays w)
       ∧ new_calls w w' = [create_call n; copy_call pv B]).
Proof.
  intros n pv sa HB He Hbrk Htop.
  assert (Hrun : CreateSafeArray B w =
    let w1 := set_brk (pv + n)
                (set_mem (store_bytes pv (replicate (Z.to_nat n) Byte.x00) (mem w))
                   (set_arrays (<[brk w := sa]> (arrays w))
                      (set_trace (trace w ++ [create_call n]) w))) in
    if negb (next_errno w =? 0)
    then (Done (Err (Errno (next_errno w))), set_errnos (tl (errnos w)) w1)
    else
      let w2 := set_errnos (tl (errnos w)) w1 in
      let w3 := native_RtlCopyMemory pv B (uintptr (Z.of_nat (length B)))
                  (set_trace (trace w2 ++ [copy_call pv B]) w2) in
      (Done (if negb (next_errno w2 =? 0) then Err (Errno (next_errno w2))
             else Ok (brk w)),
       set_errnos (tl (errnos w2)) w3)).
  { unfold CreateSafeArray. unfold_M. rewrite SafeArrayCreate_run. cbv zeta.
    rewrite int32_0. fold n.
    change (uintptr VT_UI1) with 17. change (uint16 17) with 17. change (uintptr 1) with 1.
    unfold native_SafeArrayCreate. change (elem_size 17) with (Some 1).
    change (features 17) with FADF_HAVEVARTYPE.
    cbn [cElements lLbound]. rewrite Z.mul_1_l. subst pv sa.
    unfold create_call, copy_call. change VT_UI1 with 17.
    destruct w as [m a o s k t er tr]. world_simpl.
    assert (Hc : (1 =? 1) && (0 <? k) && (k + SAFEARRAY_SIZE + n <=? t) = true).
    { apply andb_true_intro; split; [apply andb_true_intro; split|]; [done| |]; lia. }
    rewrite Hc. world_simpl.
    destruct (negb (hd 0 er =? 0)); [reflexivity|].
    assert (Hz : (k =? 0) = false) by lia. rewrite Hz.
    unfold deref_array, addr_elem0. world_simpl.
    rewrite lookup_insert_eq.
    destruct B as [|b B']; [done|].
    unfold_call. cbn [pvData]. world_simpl.
    destruct (negb (hd 0 (tl er) =? 0)); reflexivity. }
  rewrite Hrun. cbv zeta. split.
  - intros Hn. rewrite Hn.
    assert (Hb : negb (e =? 0) = true) by (apply negb_true_iff; lia).
    rewrite Hb. eexists. split; [reflexivity|].
    destruct w as [m a o s k t er tr]. world_simpl. split; [reflexivity|].
    unfold new_calls. world_simpl. apply drop_app_length.
  - intros rest Hr.
    assert (Hn : next_errno w = 0) by (unfold next_errno; by rewrite Hr).
    rewrite Hn. cbn [Z.eqb negb].
    destruct w as [m a o s k t er tr]. world_simpl. subst er. cbn [hd tl].
    assert (Hb : negb (e =? 0) = true) by (apply negb_true_iff; lia).
    rewrite Hb. eexists. split; [reflexivity|]. world_simpl.
    split; [reflexivity|].
    unfold new_calls. world_simpl. rewrite <- app_assoc. apply drop_app_length.
Qed.

Lemma CreateSafeArray_dispatch_code_leaves_array_witness :
  ∃ w', CreateSafeArray MZ (set_errnos [0; 5] w_heap) = (Done (Err (Errno 5)), w')
    ∧ arrays w' = {[ 0x1000 := mkSafeArray 1 FADF_HAVEVARTYPE 1 0 0x1020 [mkBound 4 0] ]}
    ∧ new_calls (set_errnos [0; 5] w_heap) w' = [create_call 4; copy_call 0x1020 MZ].
Proof.
  refine (proj2 (CreateSafeArray_dispatch_code_leaves_array MZ (set_errnos [0; 5] w_heap) 5
            _ _ _ _) [] eq_refl).
  - discriminate.
  - discriminate.
  - reflexivity.
  - vm_compute. discriminate.
Defined.

(** X3.  When the native side cannot create the array and hands back a
    null descriptor, [CreateSafeArray] returns the error of
    [SafeArrayCreate] that shows the null pointer; it makes no copying
    call, and arrays, memory, objects and strings are as they were. *)
Theorem CreateSafeArray_no_room (B : list Byte.byte) (w : World) :
  let n := uint32 (Z.of_nat (length B)) in
  next_errno w = 0 → top w < brk w + SAFEARRAY_SIZE + n →
  ∃ w',
    CreateSafeArray B w
    = (Done (Err (Errorf
         "the OleAut32!SafeArrayCreate function return 0x%x and the SafeArray was not created"
         (Hex 0))), w')
    ∧ new_calls w w' = [create_call n]
    ∧ same_store w w'.
Proof.
  intros n He Htop.
  unfold CreateSafeArray. unfold_M. rewrite SafeArrayCreate_run. cbv zeta.
  rewrite int32_0. fold n.
  change (uintptr VT_UI1) with 17. change (uint16 17) with 17. change (uintptr 1) with 1.
  unfold native_SafeArrayCreate. change (elem_size 17) with (Some 1).
  cbn [cElements lLbound]. rewrite Z.mul_1_l.
  unfold create_call. change VT_UI1 with 17.
  destruct w as [m a o s k t er tr]. world_simpl.
  assert (Hc : (1 =? 1) && (0 <? k) && (k + SAFEARRAY_SIZE + n <=? t) = false).
  { apply andb_false_iff. right. lia. }
  rewrite Hc. world_simpl. rewrite He. cbn [Z.eqb negb].
  eexists. split; [reflexivity|]. split; [|done].
  unfold new_calls. world_simpl. apply drop_app_length.
Qed.

Lemma CreateSafeArray_no_room_witness :
  ∃ w',
    CreateSafeArray MZ w_full
    = (Done (Err (Errorf
         "the OleAut32!SafeArrayCreate function return 0x%x and the SafeArray was not created"
         (Hex 0))), w')
    ∧ new_calls w_full w' = [create_call 4]
    ∧ same_store w_full w'.
Proof.
  apply (CreateSafeArray_no_room MZ w_full).
  - reflexivity.
  - reflexivity.
Defined.

(** ** Wide strings *)

Lemma SysAllocString_run str w :
  SysAllocString str w =
  let c := Call (Proc "OleAut32.dll" "SysAllocString") [WStr str] in
  let r := native_SysAllocString str (set_trace (trace w ++ [c]) w) in
  (Done (if negb (next_errno w =? 0) then Err (Errno (next_errno w)) else Ok r.1),
   set_errnos (tl (errnos w)) r.2).
Proof.
  unfold SysAllocString. unfold_M. unfold_call. cbv zeta.
  unfold native_SysAllocString. destruct w as [m a o s k t e tr]. world_simpl.
  destruct (_ && _); world_simpl; destruct (negb _); reflexivity.
Qed.



(** X5.  The earlier [Load_2] drops the error of [SysAllocString] and
    every dispatch code.  On a live domain it always makes its two
    native calls, the second with the pointer [SysAllocString] returned,
    nil when the allocation failed; its result depends on the status of
    the native Load_2 alone. *)
Theorem Load_2_Syscall_drops_errors (obj : Z) (o : Object) (name : string) (w : World) :
  objects w !! obj = Some o →
  let str := match (SysAllocString name w).1 with Done (Ok p) => p | _ => 0 end in
  let hr := (respond o "Load_2").1 in
  new_calls w (AppDomain_Syscall.Load_2 obj name w).2
  = [Call (Proc "OleAut32.dll" "SysAllocString") [WStr name];
     Call (Slot obj "Load_2") [Ptr obj; Ptr str; Out "pAssembly"]]
  ∧ (AppDomain_Syscall.Load_2 obj name w).1
    = Done (if negb (hr =? 0) then Err (Errorf "bad load 2: %x" (Hex hr))
            else Ok (respond o "Load_2").2)
  ∧ (next_errno w ≠ 0 → str = 0).
Proof.
  intros H str hr.
  assert (Hs : ∃ r w1, SysAllocString name w = (Done r, w1)
             ∧ objects w1 = objects w
             ∧ trace w1 = trace w ++ [Call (Proc "OleAut32.dll" "SysAllocString") [WStr name]]
             ∧ (next_errno w ≠ 0 → ∃ e, r = Err e)).
  { rewrite SysAllocString_run. cbv zeta. eexists _, _. split; [reflexivity|].
    unfold native_SysAllocString. destruct w as [m a os s k t e tr]. world_simpl.
    split; [by destruct (_ && _)|]. split; [by destruct (_ && _)|].
    intros Hne. assert (Hb : negb (hd 0 e =? 0) = true) by (apply negb_true_iff; lia).
    rewrite Hb. by eexists. }
  destruct Hs as (r & w1 & Hs & Ho & Ht & Hfail).
  subst str. rewrite Hs. cbn [fst].
  unfold AppDomain_Syscall.Load_2. unfold_M. rewrite Hs.
  assert (H1 : objects w1 !! obj = Some o) by (by rewrite Ho).
  rewrite (vtbl_live _ _ _ _ H1).
  erewrite SyscallN_method by (try exact H1; reflexivity).
  fold hr. split; [|split].
  - assert (Hnew : ∀ p, new_calls w (after_call
                (Call (Slot obj "Load_2") [Ptr obj; Ptr p; Out "pAssembly"]) w1)
              = [Call (Proc "OleAut32.dll" "SysAllocString") [WStr name];
                 Call (Slot obj "Load_2") [Ptr obj; Ptr p; Out "pAssembly"]]).
    { intros p. unfold new_calls, after_call.
      destruct w1 as [m1 a1 o1 s1 k1 t1 e1 tr1]. world_simpl. subst tr1.
      rewrite <- app_assoc. apply drop_app_length. }
    destruct (negb (hr =? 0)); destruct r; cbn [snd]; apply Hnew.
  - by destruct (negb (hr =? 0)).
  - intros Hne. destruct (Hfail Hne) as [e ->]. reflexivity.
Qed.

Lemma Load_2_Syscall_drops_errors_witness :
  (AppDomain_Syscall.Load_2 0x2000 "TestDLL" w_noisy).1 = Done (Ok 0).
Proof.
  apply (proj1 (proj2 (Load_2_Syscall_drops_errors 0x2000 (domain_object 0x3000)
                         "TestDLL" w_noisy eq_refl))).
Defined.

(** ** Loops that come to their end *)

Lemma steps_Break_for_loop {S R} (k : nat) (body : S → M (step S R)) s w r w' :
  steps k body s w = (Done (Break r), w') →
  Z.of_nat k ≤ 2 ^ 33 →
  for_loop body s w = (Done r, w').
Proof.
  intros H Hk. unfold for_loop, mbind, M_bind. rewrite iterate_steps.
  assert (Hsplit : ∃ m, (2 ^ 33)%nat = (k + m)%nat).
  { exists (Z.to_nat (2 ^ 33 - Z.of_nat k)). apply Nat2Z.inj.
    rewrite Nat2Z.inj_pow, Nat2Z.inj_add, Z2Nat.id by lia.
    change (Z.of_nat 2) with 2. change (Z.of_nat 33) with 33. lia. }
  destruct Hsplit as [m ->]. rewrite steps_add, H. reflexivity.
Qed.

Lemma silent_after_call c w :
  silent w → next_errno w = 0 ∧ silent (after_call c w).
Proof.
  unfold silent, next_errno, after_call. destruct w as [m a o s k t e tr]. world_simpl.
  destruct e as [|e0 e]; cbn [hd tl]; [done|].
  intros H. apply Forall_cons in H as [-> H]. done.
Qed.

Lemma silent_calm n w : silent w → calm n w.
Proof. unfold silent, calm. intros H. by apply Forall_take. Qed.

(** The shape of a one-dimensional array, as the native side reports it. *)
Lemma native_shape sa arr b w :
  arrays w !! sa = Some arr → cDims arr = 1 → rgsabound arr = [b] →
  native_SafeArrayGetDim sa w = 1
  ∧ native_SafeArrayGetLBound sa 1 w = (S_OK, uint32 (lLbound b))
  ∧ native_SafeArrayGetUBound sa 1 w = (S_OK, uint32 (lLbound b + cElements b - 1)).
Proof.
  intros Ha Hd Hb.
  unfold native_SafeArrayGetDim, native_SafeArrayGetLBound, native_SafeArrayGetUBound,
    bound_of.
  rewrite Ha, Hd, Hb. done.
Qed.

(** [ListAssemblies] up to its loop. *)
Lemma ListAssemblies_to_loop obj o sa lb ub w :
  objects w !! obj = Some o → respond o "GetAssemblies" = (S_OK, sa) →
  silent w →
  uint32 (native_SafeArrayGetDim sa w) = 1 →
  native_SafeArrayGetLBound sa 1 w = (S_OK, lb) →
  native_SafeArrayGetUBound sa 1 w = (S_OK, ub) →
  ∃ w4,
    AppDomain.ListAssemblies obj w
    = for_loop (AppDomain.ListAssemblies_round sa ub) (lb, []) w4
    ∧ same_store w w4
    ∧ trace w4 = trace w ++ listing_calls obj sa
    ∧ silent w4.
Proof.
  intros Ho Hr Hq Hd Hlb Hub.
  unfold AppDomain.ListAssemblies, try_bind. unfold_M.
  rewrite GetAssemblies_run, Ho, Hr. cbn [fst snd].
  destruct (silent_after_call (Call (Slot obj "GetAssemblies") [Ptr obj; Out "safeArray"])
              w Hq) as [He0 Hq1].
  rewrite He0. cbn [Z.eqb negb S_OK].
  set (w1 := after_call _ w) in *.
  assert (Hs1 : same_store w w1) by apply same_store_after_call.
  rewrite SafeArrayGetDim_run.
  destruct (silent_after_call (Call (Proc "OleAut32.dll" "SafeArrayGetDim") [Ptr sa])
              w1 Hq1) as [He1 Hq2].
  rewrite He1. cbn [Z.eqb negb].
  rewrite (native_GetDim_store _ _ _ Hs1), Hd.
  change (negb (1 =? 1)) with false. cbv beta iota.
  set (w2 := after_call _ w1) in *.
  assert (Hs2 : same_store w w2).
  { eapply same_store_trans; [exact Hs1|apply same_store_after_call]. }
  rewrite SafeArrayGetLBound_run. cbv zeta. change (uintptr 1) with 1.
  rewrite (native_GetLBound_store _ _ _ _ Hs2), Hlb. cbn [fst snd].
  destruct (silent_after_call
              (Call (Proc "OleAut32.dll" "SafeArrayGetLBound")
                 [Ptr sa; Imm 1; Out "plLbound"]) w2 Hq2) as [He2 Hq3].
  rewrite He2. cbn [Z.eqb negb S_OK].
  set (w3 := after_call _ w2) in *.
  assert (Hs3 : same_store w w3).
  { eapply same_store_trans; [exact Hs2|apply same_store_after_call]. }
  rewrite SafeArrayGetUBound_run. cbv zeta. change (uintptr 1) with 1.
  rewrite (native_GetUBound_store _ _ _ _ Hs3), Hub. cbn [fst snd].
  destruct (silent_after_call
              (Call (Proc "OleAut32.dll" "SafeArrayGetUBound")
                 [Ptr sa; Imm 1; Out "plUbound"]) w3 Hq3) as [He3 Hq4].
  rewrite He3. cbn [Z.eqb negb S_OK].
  set (w4 := after_call _ w3) in *.
  exists w4. split; [reflexivity|]. split.
  { eapply same_store_trans; [exact Hs3|apply same_store_after_call]. }
  split; [|exact Hq4].
  destruct w as [m a os s k t e tr]. subst w4 w3 w2 w1. unfold after_call, listing_calls.
  world_simpl. by rewrite <- !app_assoc.
Qed.

Section ListAssemblies_total.

Variables (w0 : World) (sa n : Z).
Hypothesis Hn : 1 ≤ n < 2 ^ 32.

Let round := AppDomain.ListAssemblies_round sa (n - 1).
Let reads (i a : Z) : Prop := native_SafeArrayGetElement sa i w0 = Done (S_OK, a).

Lemma ListAssemblies_steps_total (rest : list Z) : ∀ i acc w,
  same_store w0 w → silent w → 0 ≤ i →
  i + Z.of_nat (length rest) = n →
  Forall2 reads (seqZ i (Z.of_nat (length rest))) rest →
  ∃ w',
    steps (S (length rest)) round (i, acc) w = (Done (Break (Ok (acc ++ rest))), w')
    ∧ same_store w0 w'
    ∧ trace w' = trace w ++ (element_call sa <$> seqZ i (Z.of_nat (length rest)))
    ∧ silent w'.
Proof.
  induction rest as [|a rest IH]; intros i acc w Hs Hq Hi Hlen Hall.
  - cbn [length] in *. cbn [steps]. unfold round, AppDomain.ListAssemblies_round. unfold_M.
    assert (Hle : (i <=? n - 1) = false) by lia. rewrite Hle.
    exists w. rewrite !app_nil_r. done.
  - cbn [length] in Hlen, Hall. rewrite Nat2Z.inj_succ in Hlen, Hall.
    rewrite seqZ_cons in Hall by lia. apply Forall2_cons in Hall as [Ha Hall].
    replace (Z.pred (Z.succ (Z.of_nat (length rest)))) with (Z.of_nat (length rest))
      in Hall by lia.
    change (steps (S (length (a :: rest))) round (i, acc) w)
      with (match round (i, acc) w with
            | (Done (Next s'), w') => steps (S (length rest)) round s' w'
            | r => r
            end).
    unfold round at 1, AppDomain.ListAssemblies_round. unfold_M.
    assert (Hle : (i <=? n - 1) = true) by lia. rewrite Hle.
    rewrite SafeArrayGetElement_run, (native_GetElement_store _ _ _ _ Hs), Ha.
    destruct (silent_after_call (element_call sa i) w Hq) as [He Hq'].
    rewrite He. cbn [Z.eqb negb S_OK].
    rewrite uint32_small by lia.
    destruct (IH (i + 1) (acc ++ [a]) (after_call (element_call sa i) w))
      as (w' & Hst & Hs' & Ht & Hqw).
    + eapply same_store_trans; [exact Hs|apply same_store_after_call].
    + exact Hq'.
    + lia.
    + lia.
    + by replace (i + 1) with (Z.succ i) by lia.
    + exists w'. rewrite Hst, <- app_assoc. split; [done|]. split; [done|].
      split; [|done].
      rewrite Ht. cbn [length]. rewrite Nat2Z.inj_succ, (seqZ_cons i) by lia.
      replace (Z.pred (Z.succ (Z.of_nat (length rest)))) with (Z.of_nat (length rest)) by lia.
      replace (Z.succ i) with (i + 1) by lia.
      destruct w. unfold after_call. world_simpl. by rewrite <- app_assoc.
Qed.

End ListAssemblies_total.

Lemma ListAssemblies_total obj sa o arr asmb w :
  let n := Z.of_nat (length asmb) in
  objects w !! obj = Some o → respond o "GetAssemblies" = (S_OK, sa) →
  arrays w !! sa = Some arr → cDims arr = 1 → rgsabound arr = [mkBound n 0] →
  asmb ≠ [] → n < 2 ^ 32 →
  Forall2 (λ i a, native_SafeArrayGetElement sa i w = Done (S_OK, a)) (seqZ 0 n) asmb →
  silent w →
  ∃ w', AppDomain.ListAssemblies obj w = (Done (Ok asmb), w')
    ∧ trace w' = trace w ++ listing_calls obj sa ++ (element_call sa <$> seqZ 0 n)
    ∧ same_store w w'
    ∧ silent w'.
Proof.
  intros n Ho Hr Ha Hd Hb Hne Hn Hall Hq.
  assert (Hn1 : 1 ≤ n) by (destruct asmb; [done|]; subst n; cbn [length]; lia).
  destruct (native_shape _ _ _ _ Ha Hd Hb) as (Hdim & Hlb & Hub).
  cbn [lLbound cElements] in Hlb, Hub. change (uint32 0) with 0 in Hlb.
  rewrite uint32_small in Hub by lia. replace (0 + n - 1) with (n - 1) in Hub by lia.
  destruct (ListAssemblies_to_loop obj o sa 0 (n - 1) w) as (w4 & Hrun & Hs4 & Ht4 & Hq4);
    try done.
  { by rewrite Hdim. }
  destruct (ListAssemblies_steps_total w sa n ltac:(lia) asmb 0 [] w4)
    as (w' & Hst & Hs' & Ht' & Hq'); try done.
  exists w'. rewrite Hrun. split.
  - eapply steps_Break_for_loop; [exact Hst|]. cbn [length]. lia.
  - split; [|done]. by rewrite Ht', Ht4, <- app_assoc.
Qed.

(** The earlier revision, up to its loop. *)
Lemma ListAssemblies_Syscall_to_loop obj o sa lb ub w :
  objects w !! obj = Some o → respond o "GetAssemblies" = (S_OK, sa) →
  silent w →
  uint32 (native_SafeArrayGetDim sa w) = 1 →
  native_SafeArrayGetLBound sa 1 w = (S_OK, lb) →
  native_SafeArrayGetUBound sa 1 w = (S_OK, ub) →
  ∃ w4,
    AppDomain_Syscall.ListAssemblies obj w
    = for_loop (AppDomain_Syscall.ListAssemblies_round sa ub) (lb, []) w4
    ∧ same_store w w4
    ∧ silent w4.
Proof.
  intros Ho Hr Hq Hd Hlb Hub.
  unfold AppDomain_Syscall.ListAssemblies, AppDomain_Syscall.GetAssemblies, try_bind.
  unfold_M. rewrite (vtbl_live _ _ _ _ Ho).
  erewrite SyscallN_method by (try exact Ho; reflexivity).
  rewrite Hr. cbn [fst snd]. change (negb (S_OK =? 0)) with false. cbv beta iota.
  destruct (silent_after_call (Call (Slot obj "GetAssemblies") [Ptr obj; Out "safeArray"])
              w Hq) as [He0 Hq1].
  set (w1 := after_call _ w) in *.
  assert (Hs1 : same_store w w1) by apply same_store_after_call.
  rewrite SafeArrayGetDim_run.
  destruct (silent_after_call (Call (Proc "OleAut32.dll" "SafeArrayGetDim") [Ptr sa])
              w1 Hq1) as [He1 Hq2].
  rewrite He1. cbn [Z.eqb negb].
  rewrite (native_GetDim_store _ _ _ Hs1), Hd.
  change (negb (1 =? 1)) with false. cbv beta iota.
  set (w2 := after_call _ w1) in *.
  assert (Hs2 : same_store w w2).
  { eapply same_store_trans; [exact Hs1|apply same_store_after_call]. }
  rewrite SafeArrayGetLBound_run. cbv zeta. change (uintptr 1) with 1.
  rewrite (native_GetLBound_store _ _ _ _ Hs2), Hlb. cbn [fst snd].
  destruct (silent_after_call
              (Call (Proc "OleAut32.dll" "SafeArrayGetLBound")
                 [Ptr sa; Imm 1; Out "plLbound"]) w2 Hq2) as [He2 Hq3].
  rewrite He2. cbn [Z.eqb negb S_OK].
  set (w3 := after_call _ w2) in *.
  assert (Hs3 : same_store w w3).
  { eapply same_store_trans; [exact Hs2|apply same_store_after_call]. }
  rewrite SafeArrayGetUBound_run. cbv zeta. change (uintptr 1) with 1.
  rewrite (native_GetUBound_store _ _ _ _ Hs3), Hub. cbn [fst snd].
  destruct (silent_after_call
              (Call (Proc "OleAut32.dll" "SafeArrayGetUBound")
                 [Ptr sa; Imm 1; Out "plUbound"]) w3 Hq3) as [He3 Hq4].
  rewrite He3. cbn [Z.eqb negb S_OK].
  set (w4 := after_call _ w3) in *.
  exists w4. split; [reflexivity|]. split; [|exact Hq4].
  eapply same_store_trans; [exact Hs3|apply same_store_after_call].
Qed.

Lemma full_name_store w w' a : same_store w w' → full_name w' a = full_name w a.
Proof. intros (_ & _ & Ho & Hb). unfold full_name. by rewrite Ho, Hb. Qed.

Lemma GetFullName_full_name a w name :
  full_name w a = Some name → next_errno w = 0 →
  Assembly.GetFullName a w = (Done (Ok name), after_call (name_call a) w).
Proof.
  unfold full_name. intros H He. rewrite GetFullName_run.
  destruct (objects w !! a) as [o|]; [|discriminate]. cbn [mbind option_bind] in H.
  cbv zeta. rewrite He. cbn [Z.eqb negb].
  destruct ((respond o "get_FullName").1 =? S_OK); [|discriminate].
  cbn [negb]. by rewrite H.
Qed.

Section ListAssemblies_Syscall_total.

Variables (w0 : World) (sa n : Z).
Hypothesis Hn : 1 ≤ n < 2 ^ 32.

Let round := AppDomain_Syscall.ListAssemblies_round sa (n - 1).
Let reads (i : Z) (e : Z * string) : Prop :=
  native_SafeArrayGetElement sa i w0 = Done (S_OK, e.1) ∧ full_name w0 e.1 = Some e.2.

Lemma ListAssemblies_Syscall_steps_total (rest : list (Z * string)) : ∀ i acc w,
  same_store w0 w → silent w → 0 ≤ i →
  i + Z.of_nat (length rest) = n →
  Forall2 reads (seqZ i (Z.of_nat (length rest))) rest →
  ∃ w',
    steps (S (length rest)) round (i, acc) w = (Done (Break (Ok (acc ++ rest.*2))), w')
    ∧ same_store w0 w'.
Proof.
  induction rest as [|[a name] rest IH]; intros i acc w Hs Hq Hi Hlen Hall.
  - cbn [length] in *. cbn [steps]. unfold round, AppDomain_Syscall.ListAssemblies_round.
    unfold_M.
    assert (Hle : (i <=? n - 1) = false) by lia. rewrite Hle.
    exists w. cbn [fmap list_fmap]. rewrite !app_nil_r. done.
  - cbn [length] in Hlen, Hall. rewrite Nat2Z.inj_succ in Hlen, Hall.
    rewrite seqZ_cons in Hall by lia. apply Forall2_cons in Hall as [[Ha Hname] Hall].
    cbn [fst snd] in Ha, Hname.
    replace (Z.pred (Z.succ (Z.of_nat (length rest)))) with (Z.of_nat (length rest))
      in Hall by lia.
    change (steps (S (length ((a, name) :: rest))) round (i, acc) w)
      with (match round (i, acc) w with
            | (Done (Next s'), w') => steps (S (length rest)) round s' w'
            | r => r
            end).
    unfold round at 1, AppDomain_Syscall.ListAssemblies_round. unfold_M.
    assert (Hle : (i <=? n - 1) = true) by lia. rewrite Hle.
    rewrite SafeArrayGetElement_run, (native_GetElement_store _ _ _ _ Hs), Ha.
    destruct (silent_after_call (element_call sa i) w Hq) as [He Hq1].
    rewrite He. cbn [Z.eqb negb S_OK].
    set (w1 := after_call (element_call sa i) w) in *.
    assert (Hs1 : same_store w0 w1).
    { eapply same_store_trans; [exact Hs|apply same_store_after_call]. }
    destruct (silent_after_call (name_call a) w1 Hq1) as [He1 Hq2].
    rewrite (GetFullName_full_name a w1 name); [|by rewrite (full_name_store _ _ _ Hs1)|done].
    rewrite uint32_small by lia.
    destruct (IH (i + 1) (acc ++ [name]) (after_call (name_call a) w1)) as (w' & Hst & Hs').
    + eapply same_store_trans; [exact Hs1|apply same_store_after_call].
    + exact Hq2.
    + lia.
    + lia.
    + by replace (i + 1) with (Z.succ i) by lia.
    + exists w'. rewrite Hst. cbn [fmap list_fmap snd]. rewrite <- app_assoc. done.
Qed.

End ListAssemblies_Syscall_total.

(** ** ListAssemblies *)



(** X7.  The earlier [ListAssemblies] returns the full names of the
    assemblies the current one returns, in the same order: on a
    one-dimensional array with lower bound 0 and at least one element,
    each element a live assembly that reports its name, and with no
    dispatch code pending, the current revision gives the handles and
    the earlier one their names. *)
Theorem ListAssemblies_Syscall_lists_the_names
    (obj sa : Z) (o : Object) (arr : SafeArray) (entries : list (Z * string))
    (w : World) :
  let n := Z.of_nat (length entries) in
  objects w !! obj = Some o → respond o "GetAssemblies" = (S_OK, sa) →
  arrays w !! sa = Some arr → cDims arr = 1 → rgsabound arr = [mkBound n 0] →
  entries ≠ [] → n < 2 ^ 32 →
  Forall2 (λ i e, native_SafeArrayGetElement sa i w = Done (S_OK, e.1)
                  ∧ full_name w e.1 = Some e.2) (seqZ 0 n) entries →
  silent w →
  (AppDomain_Syscall.ListAssemblies obj w).1 = Done (Ok entries.*2)
  ∧ (AppDomain.ListAssemblies obj w).1 = Done (Ok entries.*1)
  ∧ same_store w (AppDomain_Syscall.ListAssemblies obj w).2.
Proof.
  intros n Ho Hr Ha Hd Hb Hne Hn Hall Hq.
  assert (Hn1 : 1 ≤ n) by (destruct entries; [done|]; subst n; cbn [length]; lia).
  destruct (native_shape _ _ _ _ Ha Hd Hb) as (Hdim & Hlb & Hub).
  cbn [lLbound cElements] in Hlb, Hub. change (uint32 0) with 0 in Hlb.
  rewrite uint32_small in Hub by lia. replace (0 + n - 1) with (n - 1) in Hub by lia.
  destruct (ListAssemblies_Syscall_to_loop obj o sa 0 (n - 1) w) as (w4 & Hrun & Hs4 & Hq4);
    try done.
  { by rewrite Hdim. }
  destruct (ListAssemblies_Syscall_steps_total w sa n ltac:(lia) entries 0 [] w4)
    as (w' & Hst & Hs'); try done.
  assert (Hloop : for_loop (AppDomain_Syscall.ListAssemblies_round sa (n - 1)) (0, []) w4
                  = (Done (Ok entries.*2), w')).
  { eapply steps_Break_for_loop; [exact Hst|]. cbn [length]. lia. }
  rewrite Hrun, Hloop. cbn [fst snd]. split; [done|]. split; [|done].
  destruct (ListAssemblies_total obj sa o arr entries.*1 w) as (w1 & Hl & _); try done.
  - by rewrite length_fmap.
  - by destruct entries.
  - by rewrite length_fmap.
  - rewrite length_fmap. fold n. apply Forall2_fmap_r.
    eapply Forall2_impl; [exact Hall|]. by intros i e [? _].
  - by rewrite Hl.
Qed.

Lemma ListAssemblies_Syscall_lists_the_names_witness :
  (AppDomain_Syscall.ListAssemblies 0x2000 w_domain).1
  = Done (Ok [mscorlib_name; testdll_name]).
Proof.
  apply (ListAssemblies_Syscall_lists_the_names 0x2000 0x3000 (domain_object 0x3000)
           (mkSafeArray 1 0 8 0 0x3020 [mkBound 2 0])
           [(0x4000, mscorlib_name); (0x5000, testdll_name)] w_domain).
  - reflexivity.
  - reflexivity.
  - reflexivity.
  - reflexivity.
  - reflexivity.
  - discriminate.
  - reflexivity.
  - repeat constructor.
  - apply Forall_nil_2.
Defined.

(** X8.  Both revisions of [ListAssemblies] stop at an array whose
    dimension count [d] is not 1, with the error that shows [d]; no
    bound and no element is read.  A handle that designates no array
    counts as 0 dimensions. *)
Theorem ListAssemblies_checks_the_dimension (obj sa : Z) (o : Object) (w : World) :
  let d := uint32 (native_SafeArrayGetDim sa w) in
  let e := Errorf "expected dimension of 1, got %d" (Dec d) in
  objects w !! obj = Some o → respond o "GetAssemblies" = (S_OK, sa) →
  calm 2 w → d ≠ 1 →
  (∃ w', AppDomain.ListAssemblies obj w = (Done (Err e), w')
     ∧ new_calls w w' = take 2 (listing_calls obj sa))
  ∧ (AppDomain_Syscall.ListAssemblies obj w).1 = Done (Err e)
  ∧ (arrays w !! sa = None → d = 0).
Proof.
  intros d e Ho Hr Hcalm Hd.
  apply calm_S in Hcalm as [He0 Hcalm].
  set (w1 := after_call (Call (Slot obj "GetAssemblies") [Ptr obj; Out "safeArray"]) w).
  assert (Hs1 : same_store w w1) by apply same_store_after_call.
  specialize (Hcalm w1 ltac:(by destruct w)).
  apply (calm_S 0) in Hcalm as [He1 _].
  assert (Hb : negb (d =? 1) = true) by (apply negb_true_iff; lia).
  split; [|split].
  - unfold AppDomain.ListAssemblies, try_bind. unfold_M.
    rewrite GetAssemblies_run, Ho, Hr. cbn [fst snd].
    rewrite He0. cbn [Z.eqb negb S_OK]. fold w1.
    rewrite SafeArrayGetDim_run, He1. cbn [Z.eqb negb].
    rewrite (native_GetDim_store _ _ _ Hs1). fold d. rewrite Hb.
    eexists. split; [reflexivity|].
    unfold new_calls, listing_calls, after_call. destruct w as [m a os s k t er tr].
    subst w1. unfold after_call. world_simpl. cbn [take].
    rewrite <- app_assoc. apply drop_app_length.
  - unfold AppDomain_Syscall.ListAssemblies, AppDomain_Syscall.GetAssemblies, try_bind.
    unfold_M. rewrite (vtbl_live _ _ _ _ Ho).
    erewrite SyscallN_method by (try exact Ho; reflexivity).
    rewrite Hr. cbn [fst snd]. change (negb (S_OK =? 0)) with false. cbv beta iota.
    fold w1. rewrite SafeArrayGetDim_run, He1. cbn [Z.eqb negb].
    rewrite (native_GetDim_store _ _ _ Hs1). fold d. by rewrite Hb.
  - intros Hnone. subst d. unfold native_SafeArrayGetDim. by rewrite Hnone.
Qed.

Lemma ListAssemblies_checks_the_dimension_witness :
  ∃ w', AppDomain.ListAssemblies 0x2000 w_two_dimensions
        = (Done (Err (Errorf "expected dimension of 1, got %d" (Dec 2))), w')
     ∧ new_calls w_two_dimensions w' = take 2 (listing_calls 0x2000 0x3000).
Proof.
  apply (ListAssemblies_checks_the_dimension 0x2000 0x3000 (domain_object 0x3000)
           w_two_dimensions).
  - reflexivity.
  - reflexivity.
  - apply Forall_nil_2.
  - discriminate.
Defined.



(** ** What a computation calls, and what it leaves alone *)

Lemma makes_ret {A} P (a : A) : makes P (mret a).
Proof. intros w. exists []. by rewrite app_nil_r. Qed.

Lemma makes_panic {A} P f : makes P (@panic A f).
Proof. intros w. exists []. by rewrite app_nil_r. Qed.

Lemma makes_bind {A B} P (m : M A) (k : A → M B) :
  makes P m → (∀ a, makes P (k a)) → makes P (m ≫= k).
Proof.
  intros Hm Hk w. unfold mbind, M_bind.
  destruct (Hm w) as (more1 & H1 & HP1). destruct (m w) as [[a|f] w1]; cbn [snd] in *.
  - destruct (Hk a w1) as (more2 & H2 & HP2). exists (more1 ++ more2).
    split; [by rewrite H2, H1, app_assoc|by apply Forall_app].
  - by exists more1.
Qed.

Lemma makes_try_bind {A B} P (m : M (Res A)) (k : A → M (Res B)) :
  makes P m → (∀ a, makes P (k a)) → makes P (try_bind m k).
Proof.
  intros Hm Hk. unfold try_bind. apply makes_bind; [done|].
  intros [a|e]; [apply Hk|apply makes_ret].
Qed.

Lemma makes_SyscallN P fn a : P (Call fn a) → makes P (SyscallN fn a).
Proof.
  intros HP w. exists [Call fn a]. split; [apply SyscallN_trace|by apply Forall_singleton].
Qed.

Lemma makes_same {A} P (m : M A) : (∀ w, trace (m w).2 = trace w) → makes P m.
Proof. intros H w. exists []. by rewrite app_nil_r, H. Qed.

Lemma makes_vtbl P obj slot : makes P (vtbl obj slot).
Proof. apply makes_same. intros w. unfold vtbl. by case_match. Qed.

Lemma makes_ReadUnicodeStr P p : makes P (ReadUnicodeStr p).
Proof. apply makes_same. intros w. unfold ReadUnicodeStr. by case_match. Qed.

Lemma makes_MustLoadDLL P dll : makes P (MustLoadDLL dll).
Proof. apply makes_same. intros w. unfold MustLoadDLL. by case_match. Qed.

Lemma makes_MustFindProc P dll name : makes P (MustFindProc dll name).
Proof. apply makes_same. intros w. unfold MustFindProc. by case_match. Qed.

Lemma makes_iterate {S R} P (d : nat) (body : S → M (step S R)) :
  (∀ s, makes P (body s)) → ∀ s, makes P (iterate d body s).
Proof.
  intros Hb. induction d as [|d IH]; intros s; cbn [iterate]; [apply Hb|].
  intros w. destruct (IH s w) as (more1 & H1 & HP1).
  destruct (iterate d body s w) as [[[s'|r]|f] w1]; cbn [snd] in *;
    [|by exists more1|by exists more1].
  destruct (IH s' w1) as (more2 & H2 & HP2). exists (more1 ++ more2).
  split; [by rewrite H2, H1, app_assoc|by apply Forall_app].
Qed.

Lemma makes_for_loop {S R} P (body : S → M (step S R)) s :
  (∀ s, makes P (body s)) → makes P (for_loop body s).
Proof.
  intros Hb. unfold for_loop. apply makes_bind; [by apply makes_iterate|].
  intros [s'|r]; [apply makes_panic|apply makes_ret].
Qed.

Lemma makes_new_calls {A} P (m : M A) w :
  makes P m → Forall P (new_calls w (m w).2).
Proof.
  intros H. destruct (H w) as (more & Ht & HP). unfold new_calls.
  by rewrite Ht, drop_app_length.
Qed.

Lemma makes_vtbl_bind {A} P obj slot (k : target → M A) :
  makes P (k (Slot obj slot)) → makes P (vtbl obj slot ≫= k).
Proof.
  intros H w. unfold mbind, M_bind, vtbl.
  destruct (objects w !! obj); [apply H|]. exists []. by rewrite app_nil_r.
Qed.

Lemma makes_MustLoadDLL_bind {A} P dll (k : string → M A) :
  makes P (k dll) → makes P (MustLoadDLL dll ≫= k).
Proof.
  intros H w. unfold mbind, M_bind, MustLoadDLL.
  destruct (exports dll); [|apply H]. exists []. by rewrite app_nil_r.
Qed.

Lemma makes_MustFindProc_bind {A} P dll name (k : target → M A) :
  makes P (k (Proc dll name)) → makes P (MustFindProc dll name ≫= k).
Proof.
  intros H w. unfold mbind, M_bind, MustFindProc.
  destruct (existsb _ _); [apply H|]. exists []. by rewrite app_nil_r.
Qed.

Ltac makes :=
  repeat first
    [ apply makes_ret | apply makes_panic
    | apply makes_ReadUnicodeStr
    | apply makes_SyscallN; reflexivity
    | apply makes_vtbl_bind | apply makes_MustLoadDLL_bind | apply makes_MustFindProc_bind
    | apply makes_for_loop; intros
    | match goal with |- makes _ (try_bind _ _) => apply makes_try_bind; [|intros] end
    | match goal with |- makes _ (_ ≫= _) => apply makes_bind; [|intros] end
    | match goal with |- makes _ (if ?b then _ else _) => destruct b end
    | match goal with |- makes _ (let '(_, _) := ?x in _) => destruct x end
    | match goal with |- makes _ (match ?x with _ => _ end) => destruct x end ].

Lemma quiet_ret {A} (a : A) : quiet (mret a).
Proof. intros w. apply same_store_refl. Qed.

Lemma quiet_bind {A B} (m : M A) (k : A → M B) :
  quiet m → (∀ a, quiet (k a)) → quiet (m ≫= k).
Proof.
  intros Hm Hk w. unfold mbind, M_bind. specialize (Hm w).
  destruct (m w) as [[a|f] w1]; cbn [snd] in *; [|done].
  eapply same_store_trans; [exact Hm|apply Hk].
Qed.

Lemma quiet_same {A} (m : M A) : (∀ w, (m w).2 = w) → quiet m.
Proof. intros H w. rewrite H. apply same_store_refl. Qed.


(** A reading call leaves the native store as it was. *)
Lemma native_read_store c w : is_read c = true → same_store w (native c w).2.
Proof.
  destruct c as [[dll name|obj slot] al]; unfold is_read, native; cbn [callee args].
  - intros H. apply andb_prop in H as [_ H]. cbn [existsb] in H.
    repeat (apply orb_prop in H as [H|H]); try discriminate;
      apply String.eqb_eq in H; subst name; by destruct w.
  - intros H. unfold native_method.
    destruct (al !! 0%nat) as [[this| | | | | | |]|]; try apply same_store_refl.
    destruct (objects w !! this); [|apply same_store_refl].
    apply orb_prop in H as [H|H]; apply String.eqb_eq in H; subst slot; by destruct w.
Qed.

Lemma quiet_SyscallN fn a : is_read (Call fn a) = true → quiet (SyscallN fn a).
Proof.
  intros H w. unfold SyscallN.
  pose proof (native_read_store (Call fn a) (set_trace (trace w ++ [Call fn a]) w) H) as Hs.
  destruct (native _ _) as [[[r1 out]|f] w2]; cbn [snd] in *.
  - destruct w, w2. done.
  - by destruct w.
Qed.

Lemma quiet_vtbl_bind {A} obj slot (k : target → M A) :
  quiet (k (Slot obj slot)) → quiet (vtbl obj slot ≫= k).
Proof.
  intros H w. unfold mbind, M_bind, vtbl.
  destruct (objects w !! obj); [apply H|apply same_store_refl].
Qed.

Lemma quiet_MustLoadDLL_bind {A} dll (k : string → M A) :
  quiet (k dll) → quiet (MustLoadDLL dll ≫= k).
Proof.
  intros H w. unfold mbind, M_bind, MustLoadDLL.
  destruct (exports dll); [apply same_store_refl|apply H].
Qed.

Lemma quiet_MustFindProc_bind {A} dll name (k : target → M A) :
  quiet (k (Proc dll name)) → quiet (MustFindProc dll name ≫= k).
Proof.
  intros H w. unfold mbind, M_bind, MustFindProc.
  destruct (existsb _ _); [apply H|apply same_store_refl].
Qed.

Lemma quiet_ReadUnicodeStr p : quiet (ReadUnicodeStr p).
Proof. apply quiet_same. intros w. unfold ReadUnicodeStr. by case_match. Qed.

Lemma quiet_panic {A} f : quiet (@panic A f).
Proof. by apply quiet_same. Qed.

Ltac quiet :=
  repeat first
    [ apply quiet_ret | apply quiet_panic | apply quiet_ReadUnicodeStr
    | apply quiet_SyscallN; reflexivity
    | apply quiet_vtbl_bind | apply quiet_MustLoadDLL_bind | apply quiet_MustFindProc_bind
    | match goal with |- quiet (_ ≫= _) => apply quiet_bind; [|intros] end
    | match goal with |- quiet (if ?b then _ else _) => destruct b end
    | match goal with |- quiet (let '(_, _) := ?x in _) => destruct x end
    | match goal with |- quiet (match ?x with _ => _ end) => destruct x end ].



(** The scan of [Load_2] over entries whose names can be read. *)
Lemma Load_2_range_find (ToLower : string → string) (search : string) (w0 : World)
    (entries : list (Z * string)) : ∀ w,
  same_store w0 w → silent w →
  Forall (λ e, full_name w0 e.1 = Some e.2) entries →
  (AppDomain.Load_2_range ToLower entries.*1 search w).1
  = Done (match List.find (λ e, AppDomain.HasPrefix (ToLower e.2) (ToLower search)) entries
          with
          | Some e => Ok e.1
          | None => Err (Errorf "could not find assembly with name %s" (Str search))
          end).
Proof.
  induction entries as [|[a name] rest IH]; intros w Hs Hq Hall.
  - reflexivity.
  - apply Forall_cons in Hall as [Hname Hall]. cbn [fst snd] in Hname.
    cbn [fmap list_fmap fst AppDomain.Load_2_range List.find snd].
    unfold mbind at 1, M_bind.
    destruct (silent_after_call (name_call a) w Hq) as [He Hq'].
    rewrite (GetFullName_full_name a w name); [|by rewrite (full_name_store _ _ _ Hs)|done].
    destruct (AppDomain.HasPrefix (ToLower name) (ToLower search)); [reflexivity|].
    apply IH; [|done|done].
    eapply same_store_trans; [exact Hs|apply same_store_after_call].
Qed.

(** X11.  On a domain whose array of assemblies is one-dimensional with
    lower bound 0 and at least one element, each element a live assembly
    that reports its name, and with no dispatch code pending, [Load_2]
    is a search of the list of the assemblies: it returns the first
    assembly, in index order, whose name case-folded starts with the
    case-folded search string, and the not-found error when there is
    none. *)
Theorem Load_2_is_a_first_match_search (ToLower : string → string)
    (obj sa : Z) (o : Object) (arr : SafeArray) (entries : list (Z * string))
    (search : string) (w : World) :
  let n := Z.of_nat (length entries) in
  objects w !! obj = Some o → respond o "GetAssemblies" = (S_OK, sa) →
  arrays w !! sa = Some arr → cDims arr = 1 → rgsabound arr = [mkBound n 0] →
  entries ≠ [] → n < 2 ^ 32 →
  Forall2 (λ i e, native_SafeArrayGetElement sa i w = Done (S_OK, e.1)
                  ∧ full_name w e.1 = Some e.2) (seqZ 0 n) entries →
  silent w →
  (AppDomain.Load_2 ToLower obj search w).1
  = Done (match List.find (λ e, AppDomain.HasPrefix (ToLower e.2) (ToLower search)) entries
          with
          | Some e => Ok e.1
          | None => Err (Errorf "could not find assembly with name %s" (Str search))
          end).
Proof.
  intros n Ho Hr Ha Hd Hb Hne Hn Hall Hq.
  destruct (ListAssemblies_total obj sa o arr entries.*1 w) as (w' & Hl & _ & Hs & Hq');
    try done.
  - by rewrite length_fmap.
  - by destruct entries.
  - by rewrite length_fmap.
  - rewrite length_fmap. fold n. apply Forall2_fmap_r.
    eapply Forall2_impl; [exact Hall|]. by intros i e [? _].
  - rewrite Load_2_unfold, Hl. apply (Load_2_range_find ToLower search w); [done|done|].
    clear -Hall. revert Hall. generalize (seqZ 0 n). intros l Hall.
    induction Hall as [|i e l entries [_ He] _ IH]; constructor; done.
Qed.

Lemma Load_2_is_a_first_match_search_witness :
  (AppDomain.Load_2 ToLowerASCII 0x2000 "MSCORLIB, Version=4" w_domain).1
  = Done (Ok 0x4000).
Proof.
  apply (Load_2_is_a_first_match_search ToLowerASCII 0x2000 0x3000 (domain_object 0x3000)
           (mkSafeArray 1 0 8 0 0x3020 [mkBound 2 0])
           [(0x4000, mscorlib_name); (0x5000, testdll_name)] "MSCORLIB, Version=4"
           w_domain).
  - reflexivity.
  - reflexivity.
  - reflexivity.
  - reflexivity.
  - reflexivity.
  - discriminate.
  - reflexivity.
  - repeat constructor.
  - apply Forall_nil_2.
Defined.

(** ** The text of an error *)

Lemma string_app_cons c (s t : string) : String c s +:+ t = String c (s +:+ t).
Proof. reflexivity. Qed.

Lemma string_app_nil_r (s : string) : s +:+ "" = s.
Proof. induction s as [|c s IH]; [done|]. by rewrite string_app_cons, IH. Qed.

Lemma string_app_assoc (s t u : string) : (s +:+ t) +:+ u = s +:+ (t +:+ u).
Proof. induction s as [|c s IH]; [done|]. by rewrite !string_app_cons, IH. Qed.

Lemma string_app_length (s t : string) :
  String.length (s +:+ t) = (String.length s + String.length t)%nat.
Proof.
  induction s as [|c s IH]; [done|].
  rewrite string_app_cons. cbn [String.length]. by rewrite IH.
Qed.

Lemma substring_app_skip (p s : string) (j k : nat) :
  substring (String.length p + j) k (p +:+ s) = substring j k s.
Proof.
  induction p as [|c p IH]; [done|].
  rewrite string_app_cons. cbn [String.length Nat.add substring]. exact IH.
Qed.

Lemma HasSuffix_app (p s suffix : string) :
  (String.length suffix ≤ String.length s)%nat →
  HasSuffix (p +:+ s) suffix = HasSuffix s suffix.
Proof.
  intros H. unfold HasSuffix. rewrite string_app_length.
  replace (String.length p + String.length s - String.length suffix)%nat
    with (String.length p + (String.length s - String.length suffix))%nat by lia.
  rewrite substring_app_skip.
  assert (H1 : (String.length suffix <=? String.length p + String.length s)%nat = true)
    by (apply Nat.leb_le; lia).
  assert (H2 : (String.length suffix <=? String.length s)%nat = true)
    by (apply Nat.leb_le; lia).
  by rewrite H1, H2.
Qed.

Lemma string_snoc (s : string) :
  s ≠ "" → ∃ s0 c, s = s0 +:+ String c "".
Proof.
  induction s as [|c s IH]; [done|]. intros _.
  destruct s as [|c' s].
  - by exists "", c.
  - destruct IH as (s0 & c0 & Hs); [done|]. exists (String c s0), c0.
    by rewrite string_app_cons, <- Hs.
Qed.

Lemma digits_acc fuel base : ∀ z acc,
  digits fuel base z acc = digits fuel base z "" +:+ acc.
Proof.
  induction fuel as [|fuel IH]; intros z acc; cbn [digits]; [done|]. cbv zeta.
  destruct (z / base =? 0); [done|].
  rewrite (IH _ (String _ acc)), (IH _ (String _ "")), string_app_assoc. done.
Qed.

Lemma digits_last fuel base z :
  digits (S fuel) base z ""
  = (if z / base =? 0 then "" else digits fuel base (z / base) "")
    +:+ String (digit (z mod base)) "".
Proof.
  cbn [digits]. cbv zeta. destruct (z / base =? 0); [done|]. apply digits_acc.
Qed.

Lemma digit_is_1 d : 0 ≤ d < 16 → digit d = digit 1 → d = 1.
Proof.
  intros Hd.
  assert (H : d = 0 ∨ d = 1 ∨ d = 2 ∨ d = 3 ∨ d = 4 ∨ d = 5 ∨ d = 6 ∨ d = 7 ∨ d = 8
              ∨ d = 9 ∨ d = 10 ∨ d = 11 ∨ d = 12 ∨ d = 13 ∨ d = 14 ∨ d = 15) by lia.
  repeat (destruct H as [->|H]); try subst d; vm_compute; (done || discriminate).
Qed.

Lemma digit_is_not_x d : 0 ≤ d < 16 → String (digit d) "" ≠ "x".
Proof.
  intros Hd.
  assert (H : d = 0 ∨ d = 1 ∨ d = 2 ∨ d = 3 ∨ d = 4 ∨ d = 5 ∨ d = 6 ∨ d = 7 ∨ d = 8
              ∨ d = 9 ∨ d = 10 ∨ d = 11 ∨ d = 12 ∨ d = 13 ∨ d = 14 ∨ d = 15) by lia.
  repeat (destruct H as [->|H]); try subst d; vm_compute; discriminate.
Qed.

(** A text that ends with 0x and the hexadecimal digits of [z] ends
    with 0x1 when [z] is 1, and then only. *)
Lemma HasSuffix_0x1 (pre : string) (z : Z) :
  HasSuffix (pre +:+ "0x" +:+ hex z) "0x1" = (z =? 1).
Proof.
  unfold hex. rewrite digits_last.
  pose proof (Z.mod_pos_bound z 16 ltac:(lia)) as Hd.
  destruct (z / 16 =? 0) eqn:Hq.
  - assert (Hz : 0 ≤ z < 16).
    { apply Z.eqb_eq in Hq. apply Z.div_small_iff in Hq; lia. }
    rewrite Z.mod_small by lia.
    rewrite HasSuffix_app by (cbv; lia).
    destruct (z =? 1) eqn:H1.
    + apply Z.eqb_eq in H1. by subst z.
    + apply Z.eqb_neq in H1. unfold HasSuffix.
      cbv [String.append].
      cbn [String.length Nat.leb Nat.sub andb substring].
      apply String.eqb_neq. intros H. apply H1, digit_is_1; [done|]. by simplify_eq.
  - apply Z.eqb_neq in Hq.
    assert (H1 : (z =? 1) = false).
    { apply Z.eqb_neq. intros ->. by apply Hq. }
    rewrite H1. clear H1.
    rewrite (digits_last 14).
    set (hi := if z / 16 / 16 =? 0 then "" else digits 14 16 (z / 16 / 16) "").
    pose proof (Z.mod_pos_bound (z / 16) 16 ltac:(lia)) as Hc.
    set (c := digit (z / 16 mod 16)). set (d := digit (z mod 16)).
    destruct (string_snoc (pre +:+ "0x" +:+ hi)) as (s0 & a & Hs).
    { destruct pre; discriminate. }
    replace (pre +:+ "0x" +:+ (hi +:+ String c "") +:+ String d "")
      with ((pre +:+ "0x" +:+ hi) +:+ String c (String d "")).
    2:{ rewrite !string_app_assoc. done. }
    rewrite Hs, string_app_assoc. rewrite HasSuffix_app by (cbv; lia).
    cbv [String.append].
    unfold HasSuffix. cbn [String.length Nat.leb Nat.sub andb substring].
    apply String.eqb_neq. intros H.
    apply (digit_is_not_x (z / 16 mod 16) Hc). fold c.
    injection H as _ Hx _. by rewrite Hx.
Qed.

Lemma Error_status Errno_Error checkOK_Error (pre : string) (hr : Z) format :
  (∀ arg, Sprintf format arg = pre +:+ "0x" +:+ arg +:+ "") →
  HasSuffix (Error Errno_Error checkOK_Error (Errorf format (Hex hr))) "0x1" = (hr =? 1).
Proof.
  intros H. cbn [Error Sprint]. rewrite H, string_app_nil_r. apply HasSuffix_0x1.
Qed.

(** ** Interfaces and domains *)

Lemma IUnknown_QueryInterface_run iu ou riid ppv w :
  objects w !! iu = Some ou →
  ∃ w',
    IUnknown.QueryInterface iu riid ppv w
    = (Done (if negb (next_errno w =? 0) then
               Err (Errorf "the IUknown::QueryInterface method returned an error:\r\n%s"
                      (Msg (next_errno w)))
             else if negb ((respond ou "QueryInterface").1 =? S_OK) then
               Err (Errorf
                 "the IUknown::QueryInterface method method returned a non-zero HRESULT: 0x%x"
                 (Hex (respond ou "QueryInterface").1))
             else Ok (respond ou "QueryInterface").2), w')
    ∧ trace w' = trace w ++ [Call (Slot iu "QueryInterface") [Ptr iu; InGuid riid; Out ppv]]
    ∧ errnos w' = tl (errnos w)
    ∧ bstrs w' = bstrs w
    ∧ ∀ x ox, objects w !! x = Some ox →
        ∃ ox', objects w' !! x = Some ox' ∧ respond ox' = respond ox.
Proof.
  intros H. unfold IUnknown.QueryInterface. unfold_M. rewrite (vtbl_live _ _ _ _ H).
  unfold SyscallN, native, native_method.
  cbn [callee args lookup list_lookup String.eqb Ascii.eqb Bool.eqb].
  destruct w as [m a os s k t e tr]. world_simpl. rewrite H.
  destruct (respond ou "QueryInterface") as [hr out]. cbn [fst snd].
  assert (Hkeep : ∀ o', os !! out = Some o' → ∀ x ox, os !! x = Some ox →
            ∃ ox', <[out := set_refs (uint32 (refs o' + 1)) o']> os !! x = Some ox'
                 ∧ respond ox' = respond ox).
  { intros o' Ho' x ox Hx. destruct (decide (out = x)) as [->|Hne].
    - rewrite lookup_insert_eq. eexists. split; [done|]. by simplify_eq.
    - rewrite lookup_insert_ne by done. by eexists. }
  destruct (hr =? S_OK) eqn:Hhr.
  - destruct (os !! out) as [o'|] eqn:Ho'; world_simpl.
    + eexists. split; [by destruct (negb (hd 0 e =? 0))|]. world_simpl.
      repeat split; try done. by apply Hkeep.
    + eexists. split; [by destruct (negb (hd 0 e =? 0))|]. world_simpl.
      repeat split; try done. intros x ox Hx. by eexists.
  - world_simpl. eexists. split; [by destruct (negb (hd 0 e =? 0))|]. world_simpl.
    repeat split; try done. intros x ox Hx. by eexists.
Qed.

Lemma GetDefaultDomain_world obj w o :
  objects w !! obj = Some o →
  ICORRuntimeHost.GetDefaultDomain obj w =
  (Done (if negb ((respond o "GetDefaultDomain").1 =? S_OK) then
           Err (Errorf
             "the ICORRuntimeHost::GetDefaultDomain method method returned a non-zero HRESULT: 0x%x"
             (Hex (respond o "GetDefaultDomain").1))
         else Ok (respond o "GetDefaultDomain").2),
   after_call (Call (Slot obj "GetDefaultDomain") [Ptr obj; Out "IUnknown"]) w).
Proof.
  intros H. unfold ICORRuntimeHost.GetDefaultDomain. unfold_M.
  rewrite (vtbl_live _ _ _ _ H).
  erewrite SyscallN_method by (try exact H; reflexivity).
  destruct (negb (next_errno w =? 0)); destruct (negb (_ =? S_OK)); reflexivity.
Qed.

Lemma new_calls_after_call c w : new_calls w (after_call c w) = [c].
Proof. unfold new_calls, after_call. destruct w. world_simpl. apply drop_app_length. Qed.

(** X12.  [GetAppDomain] asks the host for the default domain and then
    the interface it got for the AppDomain interface.  A failing status
    of the first call is returned and the second call is not made; the
    dispatch code of the first call is ignored; a nil or dangling
    interface pointer that comes with status 0 is not checked and is a
    fault; otherwise the result is the pointer the query stores. *)
Theorem GetAppDomain_queries_the_default_domain (host : Z) (oh : Object) (w : World) :
  let hr := (respond oh "GetDefaultDomain").1 in
  let iu := (respond oh "GetDefaultDomain").2 in
  let first := Call (Slot host "GetDefaultDomain") [Ptr host; Out "IUnknown"] in
  let second :=
    Call (Slot iu "QueryInterface") [Ptr iu; InGuid IID_AppDomain; Out "appDomain"] in
  objects w !! host = Some oh →
  (hr ≠ S_OK →
     (GetAppDomain host w).1
     = Done (Err (Errorf
         "the ICORRuntimeHost::GetDefaultDomain method method returned a non-zero HRESULT: 0x%x"
         (Hex hr)))
     ∧ new_calls w (GetAppDomain host w).2 = [first])
  ∧ (hr = S_OK → objects w !! iu = None →
     (GetAppDomain host w).1 = Panic (bad_pointer iu)
     ∧ new_calls w (GetAppDomain host w).2 = [first])
  ∧ (hr = S_OK → ∀ ou, objects w !! iu = Some ou →
     hd 0 (tl (errnos w)) = 0 → (respond ou "QueryInterface").1 = S_OK →
     (GetAppDomain host w).1 = Done (Ok (respond ou "QueryInterface").2)
     ∧ new_calls w (GetAppDomain host w).2 = [first; second]).
Proof.
  intros hr iu first second H.
  unfold GetAppDomain, try_bind. unfold_M. rewrite (GetDefaultDomain_world _ _ _ H).
  fold hr iu first. split; [|split].
  - intros Hhr. assert (Hb : negb (hr =? S_OK) = true) by (apply negb_true_iff; lia).
    rewrite Hb. cbn [fst snd]. split; [done|]. apply new_calls_after_call.
  - intros Hhr Hnone. rewrite Hhr. cbn [Z.eqb negb S_OK].
    unfold IUnknown.QueryInterface. unfold_M. unfold vtbl.
    assert (Hn : objects (after_call first w) !! iu = None) by (by destruct w).
    rewrite Hn. cbn [fst snd]. split; [done|]. apply new_calls_after_call.
  - intros Hhr ou Hou He Hq. rewrite Hhr. cbn [Z.eqb negb S_OK].
    assert (Hl : objects (after_call first w) !! iu = Some ou) by (by destruct w).
    destruct (IUnknown_QueryInterface_run iu ou IID_AppDomain "appDomain" _ Hl)
      as (w' & Hrun & Ht & _).
    rewrite Hrun. cbn [fst snd].
    assert (He' : next_errno (after_call first w) = 0) by (by destruct w).
    rewrite He', Hq. cbn [Z.eqb negb S_OK]. split; [done|].
    unfold new_calls. rewrite Ht. destruct w. unfold after_call. world_simpl.
    rewrite <- app_assoc. apply drop_app_length.
Qed.

Lemma GetAppDomain_queries_the_default_domain_witness :
  (GetAppDomain 0x6000 (set_errnos [5] w_hosted)).1 = Done (Ok 0x2000)
  ∧ new_calls (set_errnos [5] w_hosted) (GetAppDomain 0x6000 (set_errnos [5] w_hosted)).2
    = [Call (Slot 0x6000 "GetDefaultDomain") [Ptr 0x6000; Out "IUnknown"];
       Call (Slot 0x7000 "QueryInterface") [Ptr 0x7000; InGuid IID_AppDomain; Out "appDomain"]].
Proof.
  apply (proj2 (proj2 (GetAppDomain_queries_the_default_domain 0x6000 (plain_object 0x7000)
                         (set_errnos [5] w_hosted) eq_refl)) eq_refl (plain_object 0x2000)).
  - reflexivity.
  - reflexivity.
  - reflexivity.
Defined.

(** ** The search for a domain by name *)

Section GetDomain.

Variable Errno_Error : Z → string.
Variable checkOK_Error : Z → string → string.
Variable EqualFold : string → string → bool.

Let loop := GetDomain_loop Errno_Error checkOK_Error EqualFold.
Let Error := Error Errno_Error checkOK_Error.

Lemma NextDomain_status obj hEnum o w :
  objects w !! obj = Some o → next_errno w = 0 →
  (respond o "NextDomain").1 ≠ S_OK →
  ICORRuntimeHost.NextDomain obj hEnum w
  = (Done (Err (Errorf
       "the ICORRuntimeHost::NextDomain method returned a non-zero HRESULT: 0x%x"
       (Hex (respond o "NextDomain").1))),
     after_call (Call (Slot obj "NextDomain") [Ptr obj; Imm hEnum; Out "iu"]) w).
Proof.
  intros H He Hhr. unfold ICORRuntimeHost.NextDomain. unfold_M.
  rewrite (vtbl_live _ _ _ _ H).
  erewrite SyscallN_method by (try exact H; reflexivity).
  rewrite He. cbn [Z.eqb negb].
  assert (Hb : negb ((respond o "NextDomain").1 =? S_OK) = true)
    by (apply negb_true_iff; lia).
  by rewrite Hb.
Qed.

Lemma NextDomain_query obj hEnum o w :
  objects w !! obj = Some o → next_errno w = 0 →
  (respond o "NextDomain").1 = S_OK →
  ICORRuntimeHost.NextDomain obj hEnum w
  = IUnknown.QueryInterface (respond o "NextDomain").2 IID_AppDomain "ad"
      (after_call (Call (Slot obj "NextDomain") [Ptr obj; Imm hEnum; Out "iu"]) w).
Proof.
  intros H He Hhr. unfold ICORRuntimeHost.NextDomain. unfold_M.
  rewrite (vtbl_live _ _ _ _ H).
  erewrite SyscallN_method by (try exact H; reflexivity).
  rewrite He, Hhr. reflexivity.
Qed.

Lemma loop_round obj hEnum dName w r w' :
  GetDomain_round Errno_Error checkOK_Error EqualFold obj hEnum dName tt w
  = (Done (Break r), w') →
  loop obj hEnum dName w = (Done r, w').
Proof. apply for_loop_Break_now. Qed.

End GetDomain.

(** X13.  [CreateDomain] and [NextDomain] hand out the pointer that the
    query for the AppDomain interface stores, not the interface pointer
    the host gave them.  [CreateDomain] passes the friendly name and a
    nil identity array, and ignores the dispatch code of its call;
    [NextDomain] returns the dispatch code of its call as an error and
    then makes no query. *)
Theorem domains_come_from_QueryInterface
    (host iu ad : Z) (oh ou : Object) (w : World) :
  objects w !! host = Some oh → objects w !! iu = Some ou →
  respond ou "QueryInterface" = (S_OK, ad) → hd 0 (tl (errnos w)) = 0 →
  (∀ name, respond oh "CreateDomain" = (S_OK, iu) →
     (ICORRuntimeHost.CreateDomain host name w).1 = Done (Ok ad)
     ∧ new_calls w (ICORRuntimeHost.CreateDomain host name w).2
       = [Call (Slot host "CreateDomain") [Ptr host; WStr name; Ptr 0; Out "iu"];
          Call (Slot iu "QueryInterface") [Ptr iu; InGuid IID_AppDomain; Out "pAppDomain"]])
  ∧ (∀ hEnum, respond oh "NextDomain" = (S_OK, iu) →
     (next_errno w = 0 →
        (ICORRuntimeHost.NextDomain host hEnum w).1 = Done (Ok ad)
        ∧ new_calls w (ICORRuntimeHost.NextDomain host hEnum w).2
          = [Call (Slot host "NextDomain") [Ptr host; Imm hEnum; Out "iu"];
             Call (Slot iu "QueryInterface") [Ptr iu; InGuid IID_AppDomain; Out "ad"]])
     ∧ (next_errno w ≠ 0 →
        (ICORRuntimeHost.NextDomain host hEnum w).1
        = Done (Err (Errorf
            "the ICORRuntimeHost::NextDomain method returned an error:\n%s"
            (Msg (next_errno w))))
        ∧ new_calls w (ICORRuntimeHost.NextDomain host hEnum w).2
          = [Call (Slot host "NextDomain") [Ptr host; Imm hEnum; Out "iu"]])).
Proof.
  intros Hh Hu Hq He2.
  assert (Hquery : ∀ c ppv,
    let w1 := after_call c w in
    (IUnknown.QueryInterface iu IID_AppDomain ppv w1).1 = Done (Ok ad)
    ∧ new_calls w (IUnknown.QueryInterface iu IID_AppDomain ppv w1).2
      = [c; Call (Slot iu "QueryInterface") [Ptr iu; InGuid IID_AppDomain; Out ppv]]).
  { intros c ppv w1.
    assert (Hl : objects w1 !! iu = Some ou) by (by destruct w).
    assert (He : next_errno w1 = 0) by (by destruct w).
    destruct (IUnknown_QueryInterface_run iu ou IID_AppDomain ppv _ Hl) as (w' & Hrun & Ht & _).
    rewrite Hrun, He, Hq. cbn [fst snd Z.eqb negb S_OK]. split; [done|].
    unfold new_calls. rewrite Ht. destruct w. unfold w1, after_call. world_simpl.
    rewrite <- app_assoc. apply drop_app_length. }
  split.
  - intros name Hr. unfold ICORRuntimeHost.CreateDomain. unfold_M. cbv zeta.
    rewrite (vtbl_live _ _ _ _ Hh).
    erewrite SyscallN_method by (try exact Hh; reflexivity).
    rewrite Hr. cbn [fst snd].
    change (negb (S_OK =? S_OK)) with false. cbv iota.
    unfold debugPrint. unfold_M.
    destruct (negb (next_errno w =? 0)); apply Hquery.
  - intros hEnum Hr. split.
    + intros He. rewrite (NextDomain_query _ _ _ _ Hh He) by (by rewrite Hr).
      rewrite Hr. apply Hquery.
    + intros He. unfold ICORRuntimeHost.NextDomain. unfold_M.
      rewrite (vtbl_live _ _ _ _ Hh).
      erewrite SyscallN_method by (try exact Hh; reflexivity).
      assert (Hb : negb (next_errno w =? 0) = true) by (apply negb_true_iff; lia).
      rewrite Hb. cbn [fst snd]. split; [done|]. apply new_calls_after_call.
Qed.

Lemma domains_come_from_QueryInterface_witness :
  (ICORRuntimeHost.CreateDomain 0x6000 "TestDomain" (set_errnos [5] w_hosted)).1
  = Done (Ok 0x2000).
Proof.
  apply (proj1 (domains_come_from_QueryInterface 0x6000 0x7000 0x2000
                  (plain_object 0x7000) (plain_object 0x2000) (set_errnos [5] w_hosted)
                  eq_refl eq_refl eq_refl eq_refl) "TestDomain" eq_refl).
Defined.

(** X14.  The loop of [GetDomain] takes status 1, and no other status,
    for the end of the enumeration: when [NextDomain] reports a failing
    status the search ends with the not-found error if the status is 1,
    and with the error of [NextDomain] otherwise.  It knows the status by
    the last characters of the error text only, so that status 1 from
    the [QueryInterface] that follows a successful [NextDomain] ends the
    search in the same way. *)
Theorem GetDomain_ends_on_status_1
    (Errno_Error : Z → string) (checkOK_Error : Z → string → string)
    (EqualFold : string → string → bool)
    (obj hEnum : Z) (o : Object) (dName : string) (w : World) :
  let loop := GetDomain_loop Errno_Error checkOK_Error EqualFold obj hEnum dName in
  let not_found := Errorf "could not find domain: %s" (Str dName) in
  let hr := (respond o "NextDomain").1 in
  let iu := (respond o "NextDomain").2 in
  objects w !! obj = Some o → next_errno w = 0 →
  (hr ≠ S_OK →
     (loop w).1
     = Done (Err (if hr =? 1 then not_found
                  else Errorf
                    "the ICORRuntimeHost::NextDomain method returned a non-zero HRESULT: 0x%x"
                    (Hex hr))))
  ∧ (hr = S_OK → ∀ ou, objects w !! iu = Some ou → hd 0 (tl (errnos w)) = 0 →
     let hq := (respond ou "QueryInterface").1 in
     hq ≠ S_OK →
     (loop w).1
     = Done (Err (if hq =? 1 then not_found
                  else Errorf
                    "the IUknown::QueryInterface method method returned a non-zero HRESULT: 0x%x"
                    (Hex hq)))).
Proof.
  intros loop not_found hr iu H He. subst loop. split.
  - intros Hhr.
    erewrite (loop_round Errno_Error checkOK_Error EqualFold); [reflexivity|].
    unfold GetDomain_round. unfold_M.
    rewrite (NextDomain_status _ _ _ _ H He Hhr). fold hr.
    rewrite (Error_status _ _
               "the ICORRuntimeHost::NextDomain method returned a non-zero HRESULT: ")
      by reflexivity.
    by destruct (hr =? 1).
  - intros Hhr ou Hou He2 hq Hq.
    set (w1 := after_call (Call (Slot obj "NextDomain") [Ptr obj; Imm hEnum; Out "iu"]) w).
    assert (Hl : objects w1 !! iu = Some ou) by (by destruct w).
    destruct (IUnknown_QueryInterface_run iu ou IID_AppDomain "ad" _ Hl) as (w' & Hrun & _).
    assert (He' : next_errno w1 = 0) by (by destruct w).
    assert (Hb : negb (hq =? S_OK) = true) by (apply negb_true_iff; lia).
    rewrite He' in Hrun. cbn [Z.eqb negb] in Hrun. fold hq in Hrun. rewrite Hb in Hrun.
    erewrite (loop_round Errno_Error checkOK_Error EqualFold); [reflexivity|].
    unfold GetDomain_round. unfold_M.
    rewrite (NextDomain_query _ _ _ _ H He Hhr). fold iu w1. rewrite Hrun.
    rewrite (Error_status _ _
               "the IUknown::QueryInterface method method returned a non-zero HRESULT: ")
      by reflexivity.
    by destruct (hq =? 1).
Qed.

Lemma GetDomain_ends_on_status_1_witness :
  (GetDomain_loop Errno_text checkOK_text EqualFoldASCII 0x6000 0 "TestDomain"
     w_exhausted).1
  = Done (Err (Errorf "could not find domain: %s" (Str "TestDomain"))).
Proof.
  apply (proj1 (GetDomain_ends_on_status_1 Errno_text checkOK_text EqualFoldASCII
                  0x6000 0 exhausted_host "TestDomain" w_exhausted eq_refl eq_refl)).
  discriminate.
Defined.

(** X15.  The loop of [GetDomain] returns the domain [NextDomain]
    yields when the friendly name of that domain equals the name asked
    for under case folding, and a failure to read the friendly name of a
    domain ends the search with that failure. *)
Theorem GetDomain_returns_the_domain_named
    (Errno_Error : Z → string) (checkOK_Error : Z → string → string)
    (EqualFold : string → string → bool)
    (obj hEnum iu ad : Z) (o ou oa : Object) (dName : string) (w : World) :
  let loop := GetDomain_loop Errno_Error checkOK_Error EqualFold obj hEnum dName in
  let hn := (respond oa "get_FriendlyName").1 in
  let p := (respond oa "get_FriendlyName").2 in
  objects w !! obj = Some o → respond o "NextDomain" = (S_OK, iu) →
  objects w !! iu = Some ou → respond ou "QueryInterface" = (S_OK, ad) →
  objects w !! ad = Some oa →
  calm 3 w →
  (hn ≠ S_OK →
     (loop w).1
     = Done (Err (Errorf
         "the appdomain.GetFriendlyName function returned a non-zero HRESULT: 0x%x"
         (Hex hn))))
  ∧ (hn = S_OK → ∀ name, bstrs w !! p = Some name → EqualFold dName name = true →
     (loop w).1 = Done (Ok ad)).
Proof.
  intros loop hn p H Hr Hou Hq Hoa Hcalm. subst loop.
  apply calm_S in Hcalm as [He0 Hcalm].
  set (w1 := after_call (Call (Slot obj "NextDomain") [Ptr obj; Imm hEnum; Out "iu"]) w).
  specialize (Hcalm w1 ltac:(by destruct w)).
  apply calm_S in Hcalm as [He1 Hcalm].
  assert (Hl : objects w1 !! iu = Some ou) by (by destruct w).
  destruct (IUnknown_QueryInterface_run iu ou IID_AppDomain "ad" _ Hl)
    as (w2 & Hrun & _ & He & Hb & Hkeep).
  specialize (Hcalm w2 He). apply (calm_S 0) in Hcalm as [He2 _].
  rewrite He1, Hq in Hrun. cbn [fst snd Z.eqb negb S_OK] in Hrun.
  destruct (Hkeep ad oa ltac:(by destruct w)) as (oa' & Hoa' & Hresp).
  assert (Hround : ∀ r,
    (let name := bstrs w !! p in
     if negb (hn =? S_OK) then
       r = Err (Errorf
                  "the appdomain.GetFriendlyName function returned a non-zero HRESULT: 0x%x"
                  (Hex hn))
     else ∃ name, bstrs w !! p = Some name ∧ EqualFold dName name = true ∧ r = Ok ad) →
    (GetDomain_loop Errno_Error checkOK_Error EqualFold obj hEnum dName w).1 = Done r).
  { intros r Hcase.
    assert (Hgo : ∃ w', GetDomain_round Errno_Error checkOK_Error EqualFold obj hEnum dName
                          tt w = (Done (Break r), w')).
    { unfold GetDomain_round. unfold_M.
      rewrite (NextDomain_query _ _ _ _ H He0) by (by rewrite Hr).
      rewrite Hr. cbn [snd]. fold w1. rewrite Hrun.
      unfold AppDomain.GetFriendlyName. unfold_M. rewrite (vtbl_live _ _ _ _ Hoa').
      erewrite SyscallN_method by (try exact Hoa'; reflexivity).
      rewrite He2, Hresp. cbn [Z.eqb negb]. fold hn p. cbv zeta in Hcase.
      destruct (negb (hn =? S_OK)); [subst r; by eexists|].
      destruct Hcase as (name & Hname & Hfold & ->).
      unfold ReadUnicodeStr.
      assert (Hs : bstrs (after_call
                    (Call (Slot ad "get_FriendlyName")
                       [Ptr ad; Out "bstrFriendlyname"; Imm 0]) w2) !! p = Some name).
      { destruct w2. unfold after_call. world_simpl. rewrite Hb. by destruct w. }
      rewrite Hs, Hfold. by eexists. }
    destruct Hgo as [w' Hgo].
    by rewrite (loop_round Errno_Error checkOK_Error EqualFold _ _ _ _ _ _ Hgo). }
  split.
  - intros Hhn. apply Hround. cbv zeta.
    assert (Hbn : negb (hn =? S_OK) = true) by (apply negb_true_iff; lia).
    by rewrite Hbn.
  - intros Hhn name Hname Hfold. apply Hround. cbv zeta.
    rewrite Hhn. cbn [Z.eqb negb S_OK]. by exists name.
Qed.

Lemma GetDomain_returns_the_domain_named_witness :
  (GetDomain_loop Errno_text checkOK_text EqualFoldASCII 0x6000 0 "defaultdomain"
     w_hosted).1
  = Done (Ok 0x2000).
Proof.
  apply (proj2 (GetDomain_returns_the_domain_named Errno_text checkOK_text EqualFoldASCII
                  0x6000 0 0x7000 0x2000 (plain_object 0x7000) (plain_object 0x2000)
                  (named_domain 0x2100 0x3000) "defaultdomain" w_hosted
                  eq_refl eq_refl eq_refl eq_refl eq_refl (Forall_nil_2 _))
           eq_refl "DefaultDomain").
  - reflexivity.
  - reflexivity.
Defined.

(** X16.  [GetDomain] opens an enumeration of the domains and never
    closes it: on no path, from no world, does it or its loop call
    CloseEnum. *)
Theorem GetDomain_never_closes_the_enumeration
    (Errno_Error : Z → string) (checkOK_Error : Z → string → string)
    (EqualFold : string → string → bool)
    (obj : Z) (dName : string) (w : World) :
  Forall (λ c, is_close c = false)
    (new_calls w (GetDomain Errno_Error checkOK_Error EqualFold obj dName w).2)
  ∧ ∀ hEnum,
      Forall (λ c, is_close c = false)
        (new_calls w
           (GetDomain_loop Errno_Error checkOK_Error EqualFold obj hEnum dName w).2).
Proof.
  assert (Hloop : ∀ hEnum,
            makes (λ c, is_close c = false)
              (GetDomain_loop Errno_Error checkOK_Error EqualFold obj hEnum dName)).
  { intros hEnum.
    unfold GetDomain_loop, GetDomain_round, ICORRuntimeHost.NextDomain,
      IUnknown.QueryInterface, AppDomain.GetFriendlyName.
    makes. }
  split.
  - apply makes_new_calls. unfold GetDomain, ICORRuntimeHost.EnumDomains.
    apply makes_try_bind; [makes|]. intros hEnum. apply Hloop.
  - intros hEnum. apply makes_new_calls, Hloop.
Qed.

(** ** The wrappers as a whole *)

(** X17.  The two revisions of the AppDomain wrappers.  QueryInterface,
    AddRef, Release, GetHashCode, Load_3 and ToString are the same
    computation in both.  GetAssemblies and GetFriendlyName differ by
    the dispatch code alone: the current revision fails on a code the
    earlier one does not look at, and whenever the current revision
    returns a value the earlier one returns the same. *)
Theorem AppDomain_revisions (obj : Z) (w : World) :
  (∀ riid ppv,
     AppDomain_Syscall.QueryInterface obj riid ppv w = AppDomain.QueryInterface obj riid ppv w)
  ∧ AppDomain_Syscall.AddRef obj w = AppDomain.AddRef obj w
  ∧ AppDomain_Syscall.Release obj w = AppDomain.Release obj w
  ∧ AppDomain_Syscall.GetHashCode obj w = AppDomain.GetHashCode obj w
  ∧ (∀ rawAssembly,
       AppDomain_Syscall.Load_3 obj rawAssembly w = AppDomain.Load_3 obj rawAssembly w)
  ∧ AppDomain_Syscall.ToString obj w = AppDomain.ToString obj w
  ∧ (∀ sa, (AppDomain.GetAssemblies obj w).1 = Done (Ok sa) →
       (AppDomain_Syscall.GetAssemblies obj w).1 = Done (Ok sa))
  ∧ (∀ name, (AppDomain.GetFriendlyName obj w).1 = Done (Ok name) →
       (AppDomain_Syscall.GetFriendlyName obj w).1 = Done (Ok name))
  ∧ (∀ o, objects w !! obj = Some o → next_errno w ≠ 0 →
       (respond o "GetAssemblies").1 = S_OK →
       (AppDomain_Syscall.GetAssemblies obj w).1 = Done (Ok (respond o "GetAssemblies").2)
       ∧ (AppDomain.GetAssemblies obj w).1
         = Done (Err (Errorf "the AppDomain.GetAssemblies method retured an error:\r\n%s"
                        (Msg (next_errno w))))).
Proof.
  do 6 (split; [reflexivity|]).
  split; [|split].
  - intros sa. unfold AppDomain.GetAssemblies, AppDomain_Syscall.GetAssemblies.
    unfold_M. destruct (vtbl obj "GetAssemblies" w) as [[fn|f] w1]; [|done].
    destruct (SyscallN fn _ w1) as [[[[hr out] err]|f] w2]; [|done].
    destruct (negb (err =? 0)); [done|].
    change (negb (hr =? S_OK)) with (negb (hr =? 0)).
    by destruct (negb (hr =? 0)).
  - intros name.
    unfold AppDomain.GetFriendlyName, AppDomain_Syscall.GetFriendlyName, Syscall, checkOK.
    unfold_M. cbn [take].
    destruct (vtbl obj "get_FriendlyName" w) as [[fn|f] w1]; [|done].
    destruct (SyscallN fn _ w1) as [[[[hr out] err]|f] w2]; [|done].
    destruct (negb (err =? 0)); [done|].
    destruct (hr =? S_OK); [done|]. cbn [negb]. done.
  - intros o Ho He Hhr. split.
    + unfold AppDomain_Syscall.GetAssemblies. unfold_M. rewrite (vtbl_live _ _ _ _ Ho).
      erewrite SyscallN_method by (try exact Ho; reflexivity).
      rewrite Hhr. reflexivity.
    + rewrite GetAssemblies_run, Ho. cbn [fst].
      assert (Hb : negb (next_errno w =? 0) = true) by (apply negb_true_iff; lia).
      by rewrite Hb.
Qed.

(** X18.  No wrapper looks at its receiver before it reads the method
    table through it: run on a nil handle, or on one that designates no
    live object, every COM method wrapper of the package faults, and no
    method is called. *)
Theorem wrappers_fault_on_a_dead_handle (wr : wrapper) (obj : Z) (w : World) :
  objects w !! obj = None →
  (run wr obj w).1 = Panic (bad_pointer obj)
  ∧ method_call (new_calls w (run wr obj w).2) = None.
Proof.
  intros H.
  assert (Hnone : new_calls w w = []).
  { unfold new_calls. apply drop_all. }
  assert (Hv : ∀ slot, vtbl obj slot w = (Panic (bad_pointer obj), w)).
  { intros slot. unfold vtbl. by rewrite H. }
  destruct wr; try destruct syscallN; cbn [run];
    unfold void,
      IUnknown.QueryInterface, IUnknown.AddRef, IUnknown.Release,
      Assembly.QueryInterface, Assembly.AddRef, Assembly.Release,
      Assembly.GetEntryPoint, Assembly.GetFullName,
      AppDomain.QueryInterface, AppDomain.AddRef, AppDomain.Release,
      AppDomain.GetHashCode, AppDomain.GetFriendlyName, AppDomain.Load_3,
      AppDomain.ToString, AppDomain.GetAssemblies,
      AppDomain_Syscall.QueryInterface, AppDomain_Syscall.AddRef,
      AppDomain_Syscall.Release, AppDomain_Syscall.GetHashCode,
      AppDomain_Syscall.GetFriendlyName, AppDomain_Syscall.Load_3,
      AppDomain_Syscall.ToString, AppDomain_Syscall.GetAssemblies,
      ICORRuntimeHost.QueryInterface, ICORRuntimeHost.AddRef, ICORRuntimeHost.Release,
      ICORRuntimeHost.Start, ICORRuntimeHost.GetDefaultDomain,
      ICORRuntimeHost.CreateDomain, ICORRuntimeHost.EnumDomains,
      ICORRuntimeHost.NextDomain, ICORRuntimeHost.CloseEnum,
      ICORRuntimeHost.UnloadDomain, ICORRuntimeHost.Stop;
    unfold_M; cbv zeta; try (rewrite Hv; cbn [fst snd]; by rewrite Hnone).
  unfold AppDomain_Syscall.Load_2. unfold_M.
  destruct (SysAllocString_quiet assemblyString w) as (r & w1 & Hs & Ho & pre & Ht & Hpre).
  rewrite Hs. unfold vtbl. rewrite Ho, H. cbn [fst snd]. split; [done|].
  unfold new_calls, method_call. rewrite Ht, drop_app_length.
  clear Ht. induction pre as [|c pre IH]; [done|].
  apply Forall_cons in Hpre as [Hc Hpre]. cbn [List.find]. rewrite Hc. by apply IH.
Qed.

Lemma wrappers_fault_on_a_dead_handle_witness :
  (run Assembly_GetFullName 0 w_domain).1 = Panic NilDereference
  ∧ method_call (new_calls w_domain (run Assembly_GetFullName 0 w_domain).2) = None.
Proof.
  apply (wrappers_fault_on_a_dead_handle Assembly_GetFullName 0 w_domain).
  reflexivity.
Defined.
